(** * url-shortener: cache-aside shortening service

    A shallow embedding of the Go sources ([utils/shortener.go],
    [cache/redis.go], [models], [handlers]) and the properties of the
    service that follow from them.

    Conventions.
    - Go [string]s are byte sequences: [string] (a list of [ascii]).
    - Go [int], [int64], [uint], [uint32] are [Z] with the wrap-around written
      where the code can reach it.
    - [time.Time] instants and [time.Duration]s are [Z], in nanoseconds
      since the Unix epoch; a handler reads the clock once ([now]) and the
      cache server shares that clock.  The process runs in UTC, the zone of
      a container in which no [TZ] is set.
    - The process-wide handles [database.DB] and [cache.RedisClient] and the
      goroutines spawned so far form the [World] threaded through the
      handlers by a state monad. *)

From Stdlib Require Import ZArith Lia String Ascii List Bool Sorted.
From stdpp Require Import gmap strings.

Local Open Scope string_scope.
Local Open Scope Z_scope.

(** ** Bytes and strings *)

Definition byte_val (c : ascii) : Z := Z.of_N (N_of_ascii c).

Definition in_range (lo hi : ascii) (c : ascii) : bool :=
  (byte_val lo <=? byte_val c) && (byte_val c <=? byte_val hi).

Definition is_lower (c : ascii) : bool := in_range "a" "z" c.
Definition is_upper (c : ascii) : bool := in_range "A" "Z" c.
Definition is_digit (c : ascii) : bool := in_range "0" "9" c.

(** The 62-character alphabet [[A-Za-z0-9]], given by ranges. *)
Definition is_alnum (c : ascii) : bool := is_lower c || is_upper c || is_digit c.

Definition chars (s : string) : list ascii := list_ascii_of_string s.

(** [s[i]] for a Go [int] index; [None] is the run-time panic of an index out
    of range. *)
Definition index_byte (s : string) (i : Z) : option ascii :=
  if i <? 0 then None else String.get (Z.to_nat i) s.

(** ** utils/shortener.go *)

Module Utils.

Definition charset : string :=
  "abcdefghijklmnopqrstuvwxyzABCDEFGHIJKLMNOPQRSTUVWXYZ0123456789".

Definition shortCodeLength : nat := 6.

(** [rand.Int(rand.Reader, charsetLength)]: the random source is the stream
    of the values the successive calls return; the library promises each one
    in [[0, charsetLength)]. *)
Definition RandReader := nat -> Z.

Definition charsetLength : Z := Z.of_nat (String.length charset).

Definition rand_contract (rnd : RandReader) : Prop :=
  forall i : nat, (i < shortCodeLength)%nat -> 0 <= rnd i < charsetLength.

(** The loop [for i := range shortCode], from index [i], [n] bytes to go. *)
Fixpoint fill (rnd : RandReader) (i n : nat) : option string :=
  match n with
  | O => Some EmptyString
  | S n' =>
      match index_byte charset (rnd i) with
      | None => None
      | Some c =>
          match fill rnd (S i) n' with
          | None => None
          | Some rest => Some (String c rest)
          end
      end
  end.

(** [GenerateShortCode]; [None] when indexing [charset] panics. *)
Definition GenerateShortCode (rnd : RandReader) : option string :=
  fill rnd 0 shortCodeLength.

End Utils.

(** ** net/url (Go standard library): [url.Parse]

    [isValidURL] calls [url.Parse]; this is the library function as the Go
    sources write it, for the non-request case ([viaRequest = false]).  The
    record keeps the fields [parse] fills in except [RawPath] and
    [RawFragment], which are hints that cannot make [Parse] fail. *)

Module NetURL.

Inductive Error :=
| ErrInvalidControl          (* invalid control character in URL *)
| ErrMissingScheme           (* missing protocol scheme *)
| ErrColonInFirstSegment     (* first path segment in URL cannot contain colon *)
| ErrMissingBracket          (* missing ']' in host *)
| ErrInvalidPort (colonPort : string)
| ErrInvalidUserinfo
| EscapeError (s : string)
| InvalidHostError (s : string).

Inductive encoding :=
| encodePath | encodePathSegment | encodeHost | encodeZone
| encodeUserPassword | encodeQueryComponent | encodeFragment.

Definition is_host_mode (m : encoding) : bool :=
  match m with encodeHost | encodeZone => true | _ => false end.

Record Userinfo := { username : string; password : string; passwordSet : bool }.

Record URL := {
  Scheme : string;
  Opaque : string;
  User : option Userinfo;
  Host : string;
  Path : string;
  OmitHost : bool;
  ForceQuery : bool;
  RawQuery : string;
  Fragment : string
}.

Definition is_one_of (set : string) (c : ascii) : bool :=
  existsb (Ascii.eqb c) (chars set).

(** *** package strings, on single-byte separators *)

(** [strings.Cut(s, sep)]: text before and after the first [sep]. *)
Fixpoint Cut (s : string) (sep : ascii) : string * string * bool :=
  match s with
  | EmptyString => (EmptyString, EmptyString, false)
  | String c r =>
      if Ascii.eqb c sep then (EmptyString, r, true)
      else let '(before, after, found) := Cut r sep in (String c before, after, found)
  end.

(** [i := strings.LastIndex(s, sep)] as the pair [(s[:i], s[i+1:])]. *)
Fixpoint CutLast (s : string) (sep : ascii) : option (string * string) :=
  match s with
  | EmptyString => None
  | String c r =>
      match CutLast r sep with
      | Some (before, after) => Some (String c before, after)
      | None => if Ascii.eqb c sep then Some (EmptyString, r) else None
      end
  end.

(** [strings.Index(s, pat)]. *)
Fixpoint Index (s pat : string) : option nat :=
  if String.prefix pat s then Some O
  else match s with
       | EmptyString => None
       | String _ r => option_map S (Index r pat)
       end.

Definition Contains (s : string) (c : ascii) : bool := existsb (Ascii.eqb c) (chars s).

Definition Count (s : string) (c : ascii) : nat :=
  List.length (List.filter (Ascii.eqb c) (chars s)).

Definition HasPrefix (s p : string) : bool := String.prefix p s.

Definition HasSuffix1 (s : string) (c : ascii) : bool :=
  match rev (chars s) with
  | x :: _ => Ascii.eqb x c
  | nil => false
  end.

Definition slice_to (s : string) (i : nat) : string := String.substring 0 i s.
Definition slice_from (s : string) (i : nat) : string :=
  String.substring i (String.length s - i) s.

Definition lower_byte (c : ascii) : ascii :=
  if is_upper c then ascii_of_N (N_of_ascii c + 32) else c.

Definition ToLower (s : string) : string := string_of_list_ascii (map lower_byte (chars s)).

(** *** url.go *)

Definition stringContainsCTLByte (s : string) : bool :=
  existsb (fun b => (byte_val b <? 32) || (byte_val b =? 127)) (chars s).

Definition ishex (c : ascii) : bool :=
  is_digit c || in_range "a" "f" c || in_range "A" "F" c.

Definition unhex (c : ascii) : Z :=
  if is_digit c then byte_val c - byte_val "0"
  else if in_range "a" "f" c then byte_val c - byte_val "a" + 10
  else if in_range "A" "F" c then byte_val c - byte_val "A" + 10
  else 0.

Definition byte_of (v : Z) : ascii := ascii_of_N (Z.to_N v).

Definition shouldEscape (c : ascii) (mode : encoding) : bool :=
  if is_alnum c then false
  else if is_host_mode mode && (is_one_of "!$&'()*+,;=:[]<>" c || Ascii.eqb c "034") then false
  else if is_one_of "-_.~" c then false
  else if is_one_of "$&+,/:;=?@" c then
    match mode with
    | encodePath => Ascii.eqb c "?"
    | encodePathSegment => is_one_of "/;,?" c
    | encodeUserPassword => is_one_of "@/?:" c
    | encodeQueryComponent => true
    | encodeFragment => false
    | _ => true
    end
  else match mode with
       | encodeFragment => negb (is_one_of "!()*" c)
       | _ => true
       end.

(** [unescape(s, mode)].  The Go code validates in a first pass and builds the
    result in a second; one pass from the left reports the same first error
    and the same bytes. *)
Fixpoint unescape (s : string) (mode : encoding) : Error + string :=
  match s with
  | EmptyString => inr EmptyString
  | String c r =>
      if Ascii.eqb c "%" then
        match r with
        | String a (String b r') =>
            if negb (ishex a) || negb (ishex b) then inl (EscapeError (slice_to s 3))
            else
              let is25 := Ascii.eqb a "2" && Ascii.eqb b "5" in
              let v := byte_of (Z.lor (Z.shiftl (unhex a) 4) (unhex b)) in
              if match mode with encodeHost => true | _ => false end
                 && (unhex a <? 8) && negb is25
              then inl (EscapeError (slice_to s 3))
              else if match mode with encodeZone => true | _ => false end
                      && negb is25 && negb (Ascii.eqb v " ")
                      && shouldEscape v encodeHost
              then inl (EscapeError (slice_to s 3))
              else match unescape r' mode with
                   | inl e => inl e
                   | inr t => inr (String v t)
                   end
        | _ => inl (EscapeError (slice_to s 3))
        end
      else if Ascii.eqb c "+" then
        match unescape r mode with
        | inl e => inl e
        | inr t =>
            inr (String (match mode with encodeQueryComponent => " " | _ => "+" end)%char t)
        end
      else if is_host_mode mode && (byte_val c <? 128) && shouldEscape c encodeHost
      then inl (InvalidHostError (String c EmptyString))
      else match unescape r mode with
           | inl e => inl e
           | inr t => inr (String c t)
           end
  end.

(** [validOptionalPort]: empty, or a colon followed by decimal digits. *)
Definition validOptionalPort (port : string) : bool :=
  match port with
  | EmptyString => true
  | String c digits => Ascii.eqb c ":" && forallb is_digit (chars digits)
  end.

(** [validUserinfo]: the loop ranges over runes; every rune it accepts is a
    single ASCII byte, so the test is the same byte by byte. *)
Definition validUserinfo (s : string) : bool :=
  forallb (fun r => is_alnum r || is_one_of "-._:~!$&'()*+,;=%@" r) (chars s).

Definition parseHost (host : string) : Error + string :=
  let general := unescape host encodeHost in
  if HasPrefix host "[" then
    match CutLast host "]" with
    | None => inl ErrMissingBracket
    | Some (before, colonPort) =>
        if negb (validOptionalPort colonPort) then inl (ErrInvalidPort colonPort)
        else
          let i := String.length before in
          match Index before "%25" with
          | Some zone =>
              match unescape (slice_to host zone) encodeHost with
              | inl e => inl e
              | inr host1 =>
                  match unescape (String.substring zone (i - zone) host) encodeZone with
                  | inl e => inl e
                  | inr host2 =>
                      match unescape (slice_from host i) encodeHost with
                      | inl e => inl e
                      | inr host3 => inr (host1 +:+ host2 +:+ host3)
                      end
                  end
              end
          | None => general
          end
    end
  else
    match CutLast host ":" with
    | Some (before, port) =>
        let colonPort := String ":" port in
        if negb (validOptionalPort colonPort) then inl (ErrInvalidPort colonPort)
        else general
    | None => general
    end.

Definition parseAuthority (authority : string) : Error + (option Userinfo * string) :=
  match CutLast authority "@" with
  | None =>
      match parseHost authority with
      | inl e => inl e
      | inr host => inr (None, host)
      end
  | Some (userinfo, hostpart) =>
      match parseHost hostpart with
      | inl e => inl e
      | inr host =>
          if negb (validUserinfo userinfo) then inl ErrInvalidUserinfo
          else if negb (Contains userinfo ":") then
            match unescape userinfo encodeUserPassword with
            | inl e => inl e
            | inr u =>
                inr (Some {| username := u; password := EmptyString; passwordSet := false |},
                     host)
            end
          else
            let '(uname, pass, _) := Cut userinfo ":" in
            match unescape uname encodeUserPassword with
            | inl e => inl e
            | inr u =>
                match unescape pass encodeUserPassword with
                | inl e => inl e
                | inr p =>
                    inr (Some {| username := u; password := p; passwordSet := true |}, host)
                end
            end
      end
  end.

(** [getScheme]: the loop at byte [i], with [rest = rawURL[i:]]. *)
Fixpoint getScheme_from (rawURL : string) (i : nat) (rest : string)
  : Error + (string * string) :=
  match rest with
  | EmptyString => inr (EmptyString, rawURL)
  | String c rest' =>
      if is_lower c || is_upper c then getScheme_from rawURL (S i) rest'
      else if is_digit c || is_one_of "+-." c then
        match i with
        | O => inr (EmptyString, rawURL)
        | _ => getScheme_from rawURL (S i) rest'
        end
      else if Ascii.eqb c ":" then
        match i with
        | O => inl ErrMissingScheme
        | _ => inr (slice_to rawURL i, rest')
        end
      else inr (EmptyString, rawURL)
  end.

Definition getScheme (rawURL : string) : Error + (string * string) :=
  getScheme_from rawURL 0 rawURL.

Definition nonempty (s : string) : bool :=
  match s with EmptyString => false | _ => true end.

(** [parse(rawURL, false)]. *)
Definition parse (rawURL : string) : Error + URL :=
  if stringContainsCTLByte rawURL then inl ErrInvalidControl
  else if String.eqb rawURL "*" then
    inr {| Scheme := EmptyString; Opaque := EmptyString; User := None;
           Host := EmptyString; Path := "*"; OmitHost := false;
           ForceQuery := false; RawQuery := EmptyString; Fragment := EmptyString |}
  else
    match getScheme rawURL with
    | inl e => inl e
    | inr (scheme0, rest0) =>
        let scheme := ToLower scheme0 in
        let '(rest, forceQuery, rawQuery) :=
          if HasSuffix1 rest0 "?" && (Count rest0 "?" =? 1)%nat
          then (slice_to rest0 (String.length rest0 - 1), true, EmptyString)
          else let '(r, q, _) := Cut rest0 "?" in (r, false, q) in
        let finish (user : option Userinfo) (host : string) (omit : bool) (rest : string) :=
          match unescape rest encodePath with
          | inl e => inl e
          | inr path =>
              inr {| Scheme := scheme; Opaque := EmptyString; User := user;
                     Host := host; Path := path; OmitHost := omit;
                     ForceQuery := forceQuery; RawQuery := rawQuery;
                     Fragment := EmptyString |}
          end in
        if negb (HasPrefix rest "/") && nonempty scheme then
          inr {| Scheme := scheme; Opaque := rest; User := None;
                 Host := EmptyString; Path := EmptyString; OmitHost := false;
                 ForceQuery := forceQuery; RawQuery := rawQuery;
                 Fragment := EmptyString |}
        else if negb (HasPrefix rest "/") && Contains (fst (fst (Cut rest "/"))) ":" then
          inl ErrColonInFirstSegment
        else if (nonempty scheme || negb (HasPrefix rest "///")) && HasPrefix rest "//" then
          let after := slice_from rest 2 in
          let '(authority, rest') :=
            match Index after "/" with
            | Some i => (slice_to after i, slice_from after i)
            | None => (after, EmptyString)
            end in
          match parseAuthority authority with
          | inl e => inl e
          | inr (user, host) => finish user host false rest'
          end
        else if nonempty scheme && HasPrefix rest "/" then finish None EmptyString true rest
        else finish None EmptyString false rest
    end.

(** [url.Parse]. *)
Definition Parse (rawURL : string) : Error + URL :=
  let '(u, frag, _) := Cut rawURL "#" in
  match parse u with
  | inl e => inl e
  | inr url =>
      match frag with
      | EmptyString => inr url
      | _ =>
          match unescape frag encodeFragment with
          | inl e => inl e
          | inr f =>
              inr {| Scheme := Scheme url; Opaque := Opaque url; User := User url;
                     Host := Host url; Path := Path url; OmitHost := OmitHost url;
                     ForceQuery := ForceQuery url; RawQuery := RawQuery url;
                     Fragment := f |}
          end
      end
  end.

End NetURL.


(** ** package time *)

Definition Time := Z.
Definition Duration := Z.

Definition Second : Duration := 1000000000.
Definition Minute : Duration := 60 * Second.
Definition Hour : Duration := 60 * Minute.
Definition Day : Duration := 24 * Hour.

(** [t.Before(u)]. *)
Definition Before (t u : Time) : bool := t <? u.

(** Go [int] and [int64] arithmetic wraps around at 64 bits. *)
Definition wrap64 (z : Z) : Z := (z + 2 ^ 63) mod 2 ^ 64 - 2 ^ 63.
Definition MaxInt64 : Z := 2 ^ 63 - 1.

(** Seconds from January 1 of year 1, where a [Time] starts counting, to the
    Unix epoch. *)
Definition unixToInternal : Z := 62135596800.

(** [t.AddDate(0, 0, days)]: [time.Date] rebuilds the instant from the date
    and the clock of [t] with the day of the month moved by [days].  In UTC a
    day is 86400 seconds, and all of this is computed in 64-bit integers
    that wrap around: the seconds of the result, counted from year 1, are
    those of [t] plus [days * 86400] modulo [2^64]; the nanoseconds within
    the second are kept. *)
Definition AddDate_days (t : Time) (days : Z) : Time :=
  (wrap64 (t / Second + unixToInternal + days * 86400) - unixToInternal) * Second
  + t mod Second.

(** [json.Marshal] of a [time.Time] ([Time.MarshalJSON]) fails unless the
    year is within 0..9999, that is, in UTC, from 0000-01-01T00:00:00Z
    up to, not including, 10000-01-01T00:00:00Z. *)
Definition json_time_ok (t : Time) : bool :=
  (-62167219200 * Second <=? t) && (t <? 253402300800 * Second).

(** The same for a [*time.Time] or a [gorm.DeletedAt]: [null] when unset. *)
Definition json_opt_time_ok (t : option Time) : bool :=
  match t with
  | Some t' => json_time_ok t'
  | None => true
  end.

(** ** package models *)

Module URL.
Record t := {
  ID : Z;
  CreatedAt : Time;
  UpdatedAt : Time;
  DeletedAt : option Time;
  OriginalURL : string;
  ShortCode : string;
  ClickCount : Z;
  ExpiresAt : option Time
}.

Definition with_ExpiresAt (u : t) (e : option Time) : t :=
  {| ID := ID u; CreatedAt := CreatedAt u; UpdatedAt := UpdatedAt u;
     DeletedAt := DeletedAt u; OriginalURL := OriginalURL u;
     ShortCode := ShortCode u; ClickCount := ClickCount u; ExpiresAt := e |}.

(** [json.Marshal(u)] returns no error: the four times of the record can be
    written. *)
Definition json_Marshal_ok (u : t) : bool :=
  json_time_ok (CreatedAt u) && json_time_ok (UpdatedAt u)
  && json_opt_time_ok (DeletedAt u) && json_opt_time_ok (ExpiresAt u).
End URL.

Module ShortenRequest.
Record t := {
  URL : string;
  ExpiresIn : Z
}.
End ShortenRequest.

Module ShortenResponse.
Record t := {
  ShortURL : string;
  OriginalURL : string;
  ShortCode : string;
  ExpiresAt : option Time
}.
End ShortenResponse.

Module StatsResponse.
Record t := {
  OriginalURL : string;
  ShortCode : string;
  ClickCount : Z;
  CreatedAt : Time;
  ExpiresAt : option Time
}.

(** [json.Marshal(stats)] returns no error. *)
Definition json_Marshal_ok (s : t) : bool :=
  json_time_ok (CreatedAt s) && json_opt_time_ok (ExpiresAt s).
End StatsResponse.

(** ** The durable store: the [urls] table behind [database.DB]

    The gorm calls the handlers make, on a table kept in primary-key order.
    [online] is whether the server answers; a call on a server that does not
    answer returns [ErrConnection]. *)

Module Database.

Inductive Error :=
| ErrRecordNotFound
| ErrUniqueViolation      (* unique index on short_code *)
| ErrMissingWhereClause
| ErrConnection.

Record DB := {
  rows : list URL.t;
  next_id : Z;
  has_sql_pool : bool;    (* [DB.DB()] returns the [*sql.DB] *)
  online : bool
}.

Definition with_rows (db : DB) (rs : list URL.t) (next : Z) : DB :=
  {| rows := rs; next_id := next; has_sql_pool := has_sql_pool db; online := online db |}.

Definition not_deleted (r : URL.t) : bool :=
  match URL.DeletedAt r with None => true | Some _ => false end.

(** [DB.Where(cond).First(&dst)]: the first row in primary-key order. *)
Definition First (cond : URL.t -> bool) (db : DB) : Error + URL.t :=
  if negb (online db) then inl ErrConnection
  else match List.find (fun r => not_deleted r && cond r) (rows db) with
       | Some r => inr r
       | None => inl ErrRecordNotFound
       end.

Definition where_original_url (url : string) (r : URL.t) : bool :=
  String.eqb (URL.OriginalURL r) url.

Definition where_short_code (code : string) (r : URL.t) : bool :=
  String.eqb (URL.ShortCode r) code.

(** [DB.Create(&urlRecord)]: the store assigns [ID] and the timestamps (gorm
    reads the clock for them; here they get the instant [now] at which the
    handler runs); the unique index on [short_code] rejects a duplicate and
    the table is then left as it was (the sequence behind [ID] still
    advances). *)
Definition Create (now : Time) (urlRecord : URL.t) (db : DB) : (Error + URL.t) * DB :=
  if negb (online db) then (inl ErrConnection, db)
  else if existsb (where_short_code (URL.ShortCode urlRecord)) (rows db)
  then (inl ErrUniqueViolation, with_rows db (rows db) (next_id db + 1))
  else
    let saved :=
      {| URL.ID := next_id db; URL.CreatedAt := now; URL.UpdatedAt := now;
         URL.DeletedAt := None; URL.OriginalURL := URL.OriginalURL urlRecord;
         URL.ShortCode := URL.ShortCode urlRecord;
         URL.ClickCount := URL.ClickCount urlRecord;
         URL.ExpiresAt := URL.ExpiresAt urlRecord |} in
    (inr saved, with_rows db (rows db ++ saved :: nil) (next_id db + 1)).

Definition set_click_count (now : Time) (id v : Z) (r : URL.t) : URL.t :=
  if (URL.ID r =? id) && not_deleted r then
    {| URL.ID := URL.ID r; URL.CreatedAt := URL.CreatedAt r; URL.UpdatedAt := now;
       URL.DeletedAt := URL.DeletedAt r; URL.OriginalURL := URL.OriginalURL r;
       URL.ShortCode := URL.ShortCode r; URL.ClickCount := v;
       URL.ExpiresAt := URL.ExpiresAt r |}
  else r.

(** [DB.Model(urlRecord).Update("click_count", v)]: the row is picked by the
    primary key of [urlRecord]. *)
Definition Update_click_count (now : Time) (urlRecord : URL.t) (v : Z) (db : DB)
  : option Error * DB :=
  if negb (online db) then (Some ErrConnection, db)
  else if URL.ID urlRecord =? 0 then (Some ErrMissingWhereClause, db)
  else (None, with_rows db (map (set_click_count now (URL.ID urlRecord) v) (rows db))
                (next_id db)).

(** [sqlDB.Ping()]. *)
Definition Ping (db : DB) : option Error :=
  if online db then None else Some ErrConnection.

End Database.

(** ** The Redis server behind [cache.RedisClient]

    The go-redis commands the cache layer issues.  Values are kept decoded
    and tagged by what wrote them: the JSON of a [models.URL], the JSON of a
    [models.StatsResponse], a plain string, or the integer of a counter
    ([json.Marshal] followed by [json.Unmarshal] gives the record back).  A
    cache function that reads a value of another tag reports a decoding
    error; the four families of keys have different prefixes, so that never
    happens in a run of the service ([coherent_no_decode_error] below). *)

Module Redis.

Inductive Error :=
| Nil                     (* [redis.Nil]: no such key *)
| ErrConnection
| ErrDecode               (* the value does not unmarshal *)
| ErrMarshal              (* [json.Marshal] failed: nothing was sent *)
| ErrNotInteger
| ErrOverflow.

Inductive Value :=
| VURL (u : URL.t)
| VStats (s : StatsResponse.t)
| VString (s : string)
| VInt (n : Z).

Record Entry := {
  value : Value;
  expire_at : option Time
}.

Record Client := {
  data : gmap string Entry;
  online : bool
}.

Definition with_data (cl : Client) (d : gmap string Entry) : Client :=
  {| data := d; online := online cl |}.

Definition expired (now : Time) (e : Entry) : bool :=
  match expire_at e with
  | Some t => t <=? now
  | None => false
  end.

(** The value a key holds at [now], if any. *)
Definition live (now : Time) (key : string) (cl : Client) : option Value :=
  match data cl !! key with
  | Some e => if expired now e then None else Some (value e)
  | None => None
  end.

Definition Get (now : Time) (key : string) (cl : Client) : Error + Value :=
  if negb (online cl) then inl ErrConnection
  else match live now key cl with
       | Some v => inr v
       | None => inl Nil
       end.

Definition Set_ (now : Time) (key : string) (v : Value) (ttl : Duration) (cl : Client)
  : option Error * Client :=
  if negb (online cl) then (Some ErrConnection, cl)
  else (None, with_data cl (<[key := {| value := v; expire_at := Some (now + ttl) |}]> (data cl))).

(** [INCR]: a missing key counts as 0 and gets no expiry; an existing counter
    keeps its expiry. *)
Definition Incr (now : Time) (key : string) (cl : Client) : (Error + Z) * Client :=
  if negb (online cl) then (inl ErrConnection, cl)
  else match data cl !! key with
       | Some e =>
           if expired now e
           then (inr 1, with_data cl (<[key := {| value := VInt 1; expire_at := None |}]> (data cl)))
           else match value e with
                | VInt n =>
                    if n =? MaxInt64 then (inl ErrOverflow, cl)
                    else (inr (n + 1),
                          with_data cl (<[key := {| value := VInt (n + 1);
                                                    expire_at := expire_at e |}]> (data cl)))
                | _ => (inl ErrNotInteger, cl)
                end
       | None =>
           (inr 1, with_data cl (<[key := {| value := VInt 1; expire_at := None |}]> (data cl)))
       end.

Definition Del (key : string) (cl : Client) : Client :=
  if negb (online cl) then cl else with_data cl (delete key (data cl)).

Definition Ping (cl : Client) : option Error :=
  if online cl then None else Some ErrConnection.

End Redis.

(** ** The process state *)

(** The goroutine [RedirectURL] starts: the closure captures [shortCode] and
    [urlRecord]. *)
Record ClickTask := {
  task_shortCode : string;
  task_urlRecord : URL.t
}.

Record World := {
  DB : Database.DB;
  RedisClient : option Redis.Client;     (* [None] is the nil client *)
  goroutines : list ClickTask            (* started, not yet run *)
}.

Definition M (A : Type) : Type := World -> A * World.

Definition ret {A} (a : A) : M A := fun w => (a, w).

Definition bind {A B} (m : M A) (k : A -> M B) : M B :=
  fun w => let '(a, w') := m w in k a w'.

Notation "x <~ m ;; k" := (bind m (fun x => k))
  (at level 20, m at level 99, k at level 200, only parsing).
Notation "m ;;; k" := (bind m (fun _ => k))
  (at level 100, k at level 200, right associativity, only parsing).

(** A query or statement on [database.DB]. *)
Definition db_query {A} (q : Database.DB -> A) : M A := fun w => (q (DB w), w).

Definition db_exec {A} (q : Database.DB -> A * Database.DB) : M A :=
  fun w => let '(a, db') := q (DB w) in
           (a, {| DB := db'; RedisClient := RedisClient w; goroutines := goroutines w |}).

Definition set_client (w : World) (cl : Redis.Client) : World :=
  {| DB := DB w; RedisClient := Some cl; goroutines := goroutines w |}.

(** [go func() { ... }()]. *)
Definition go (t : ClickTask) : M unit :=
  fun w => (tt, {| DB := DB w; RedisClient := RedisClient w;
                   goroutines := goroutines w ++ t :: nil |}).

(** [fmt.Sprintf(format, arg)] for a format with one [%s] verb. *)
Fixpoint Sprintf_s (format arg : string) : string :=
  match format with
  | EmptyString => EmptyString
  | String c rest =>
      match rest with
      | String v rest' =>
          if Ascii.eqb c "%" && Ascii.eqb v "s" then arg +:+ rest'
          else String c (Sprintf_s rest arg)
      | EmptyString => String c EmptyString
      end
  end.

(** ** cache/redis.go *)

Module Cache.

Definition URLMappingKey : string := "url:mapping:%s".
Definition URLStatsKey : string := "url:stats:%s".
Definition OriginalURLKey : string := "url:original:%s".
Definition ClicksKey : string := "url:clicks:%s".
Definition DefaultCacheTTL : Duration := 24 * Hour.
Definition StatsCacheTTL : Duration := 5 * Minute.

(** *** [hashString] *)

Definition RuneError : Z := 65533.

(** The table [first] of package utf8 for a leading byte [>= 0x80]: the
    length of the sequence and the range accepted for its second byte. *)
Definition utf8_first (b0 : Z) : option (nat * Z * Z) :=
  if b0 <? 194 then None
  else if b0 <=? 223 then Some (2%nat, 128, 191)
  else if b0 =? 224 then Some (3%nat, 160, 191)
  else if b0 <=? 236 then Some (3%nat, 128, 191)
  else if b0 =? 237 then Some (3%nat, 128, 159)
  else if b0 <=? 239 then Some (3%nat, 128, 191)
  else if b0 =? 240 then Some (4%nat, 144, 191)
  else if b0 <=? 243 then Some (4%nat, 128, 191)
  else if b0 =? 244 then Some (4%nat, 128, 143)
  else None.

Definition outside (lo hi : Z) (b : ascii) : bool :=
  (byte_val b <? lo) || (hi <? byte_val b).

Definition low_bits (mask : Z) (b : ascii) : Z := Z.land (byte_val b) mask.

(** The runes [for _, c := range s] yields: an ill-formed byte gives
    [RuneError] and the loop moves on by one byte. *)
Fixpoint runes (s : string) : list Z :=
  match s with
  | EmptyString => nil
  | String b0 r =>
      let bad := RuneError :: runes r in
      if byte_val b0 <? 128 then byte_val b0 :: runes r
      else
        match utf8_first (byte_val b0) with
        | None => bad
        | Some (sz, lo, hi) =>
            if (String.length s <? sz)%nat then bad
            else
              match r with
              | EmptyString => bad
              | String b1 r1 =>
                  if outside lo hi b1 then bad
                  else if (sz <=? 2)%nat then
                    Z.lor (Z.shiftl (low_bits 31 b0) 6) (low_bits 63 b1) :: runes r1
                  else
                    match r1 with
                    | EmptyString => bad
                    | String b2 r2 =>
                        if outside 128 191 b2 then bad
                        else if (sz <=? 3)%nat then
                          Z.lor (Z.lor (Z.shiftl (low_bits 15 b0) 12)
                                       (Z.shiftl (low_bits 63 b1) 6))
                                (low_bits 63 b2) :: runes r2
                        else
                          match r2 with
                          | EmptyString => bad
                          | String b3 r3 =>
                              if outside 128 191 b3 then bad
                              else
                                Z.lor (Z.lor (Z.lor (Z.shiftl (low_bits 7 b0) 18)
                                                    (Z.shiftl (low_bits 63 b1) 12))
                                             (Z.shiftl (low_bits 63 b2) 6))
                                      (low_bits 63 b3) :: runes r3
                          end
                    end
              end
        end
  end.

Definition hex_digit (d : Z) : ascii :=
  match String.get (Z.to_nat d) "0123456789abcdef" with
  | Some c => c
  | None => "0"%char
  end.

Fixpoint hex_digits (fuel : nat) (n : Z) (acc : string) : string :=
  match fuel with
  | O => acc
  | S fuel' =>
      let acc' := String (hex_digit (n mod 16)) acc in
      if n / 16 =? 0 then acc' else hex_digits fuel' (n / 16) acc'
  end.

(** [fmt.Sprintf("%x", hash)] for a [uint32]. *)
Definition Sprintf_x (hash : Z) : string := hex_digits 8 hash EmptyString.

Definition hash_step (hash c : Z) : Z := (hash * 31 + c) mod 2 ^ 32.

Definition hashString (s : string) : string :=
  Sprintf_x (fold_left hash_step (runes s) 0).

(** *** The cache functions *)

Definition with_client {A} (absent : A) (f : Redis.Client -> A * Redis.Client) : M A :=
  fun w => match RedisClient w with
           | None => (absent, w)
           | Some cl => let '(a, cl') := f cl in (a, set_client w cl')
           end.

Definition CacheURLMapping (now : Time) (shortCode : string) (urlData : URL.t)
  : M (option Redis.Error) :=
  with_client None (fun cl =>
    let key := Sprintf_s URLMappingKey shortCode in
    if negb (URL.json_Marshal_ok urlData) then (Some Redis.ErrMarshal, cl)
    else Redis.Set_ now key (Redis.VURL urlData) DefaultCacheTTL cl).

Definition GetURLMapping (now : Time) (shortCode : string) : M (Redis.Error + URL.t) :=
  with_client (inl Redis.Nil) (fun cl =>
    let key := Sprintf_s URLMappingKey shortCode in
    match Redis.Get now key cl with
    | inl err => (inl err, cl)
    | inr (Redis.VURL urlData) => (inr urlData, cl)
    | inr _ => (inl Redis.ErrDecode, cl)
    end).

Definition CacheURLStats (now : Time) (shortCode : string) (stats : StatsResponse.t)
  : M (option Redis.Error) :=
  with_client None (fun cl =>
    let key := Sprintf_s URLStatsKey shortCode in
    if negb (StatsResponse.json_Marshal_ok stats) then (Some Redis.ErrMarshal, cl)
    else Redis.Set_ now key (Redis.VStats stats) StatsCacheTTL cl).

Definition GetURLStats (now : Time) (shortCode : string)
  : M (Redis.Error + StatsResponse.t) :=
  with_client (inl Redis.Nil) (fun cl =>
    let key := Sprintf_s URLStatsKey shortCode in
    match Redis.Get now key cl with
    | inl err => (inl err, cl)
    | inr (Redis.VStats stats) => (inr stats, cl)
    | inr _ => (inl Redis.ErrDecode, cl)
    end).

Definition CacheOriginalURLMapping (now : Time) (originalURL shortCode : string)
  : M (option Redis.Error) :=
  with_client None (fun cl =>
    let key := Sprintf_s OriginalURLKey (hashString originalURL) in
    Redis.Set_ now key (Redis.VString shortCode) DefaultCacheTTL cl).

Definition GetShortCodeForOriginalURL (now : Time) (originalURL : string)
  : M (Redis.Error + string) :=
  with_client (inl Redis.Nil) (fun cl =>
    let key := Sprintf_s OriginalURLKey (hashString originalURL) in
    match Redis.Get now key cl with
    | inl err => (inl err, cl)
    | inr (Redis.VString shortCode) => (inr shortCode, cl)
    | inr _ => (inl Redis.ErrDecode, cl)
    end).

Definition IncrementClickCount (now : Time) (shortCode : string) : M (option Redis.Error) :=
  with_client None (fun cl =>
    let key := Sprintf_s ClicksKey shortCode in
    match Redis.Incr now key cl with
    | (inl err, cl') => (Some err, cl')
    | (inr _, cl') => (None, cl')
    end).

Definition GetClickCount (now : Time) (shortCode : string) : M (Redis.Error + Z) :=
  with_client (inl Redis.Nil) (fun cl =>
    let key := Sprintf_s ClicksKey shortCode in
    match Redis.Get now key cl with
    | inl err => (inl err, cl)
    | inr (Redis.VInt n) => (inr n, cl)
    | inr _ => (inl Redis.ErrNotInteger, cl)
    end).

Definition InvalidateCache (shortCode : string) : M unit :=
  with_client tt (fun cl =>
    let keys := Sprintf_s URLMappingKey shortCode
                :: Sprintf_s URLStatsKey shortCode
                :: Sprintf_s ClicksKey shortCode :: nil in
    (tt, fold_left (fun cl key => Redis.Del key cl) keys cl)).

Definition IsRedisHealthy : M bool :=
  fun w => match RedisClient w with
           | None => (false, w)
           | Some cl => (match Redis.Ping cl with None => true | Some _ => false end, w)
           end.

End Cache.

(** ** package handlers *)

Module Handlers.

Definition StatusOK : Z := 200.
Definition StatusCreated : Z := 201.
Definition StatusMovedPermanently : Z := 301.
Definition StatusBadRequest : Z := 400.
Definition StatusNotFound : Z := 404.
Definition StatusGone : Z := 410.
Definition StatusInternalServerError : Z := 500.
Definition StatusServiceUnavailable : Z := 503.

(** What a handler reads from [*gin.Context]. *)
Record Context := {
  TLS : bool;                                       (* [c.Request.TLS != nil] *)
  Host : string;                                    (* [c.Request.Host] *)
  ShouldBindJSON : string + ShortenRequest.t;       (* the bound body, or the error text *)
  Param_shortCode : string                          (* [c.Param("shortCode")] *)
}.

Record Health := {
  status : string;
  timestamp : Time;
  service : string;
  database_healthy : bool;
  cache_healthy : bool
}.

Inductive Body :=
| ErrorBody (message : string)                      (* [gin.H{"error": message}] *)
| ShortenBody (r : ShortenResponse.t)
| StatsBody (r : StatsResponse.t)
| HealthBody (h : Health).

(** What a handler answers with: the status and the value it hands to
    [c.JSON] (the rendering of the value to bytes is gin's), the status and
    the location it hands to [c.Redirect], or the 500 of gin's recovery
    middleware after a panic. *)
Inductive Response :=
| JSON (code : Z) (body : Body)
| Redirect (code : Z) (location : string)
| Recovered (code : Z).

Definition isValidURL (str : string) : bool :=
  match NetURL.Parse str with
  | inl _ => false
  | inr u => NetURL.nonempty (NetURL.Scheme u) && NetURL.nonempty (NetURL.Host u)
  end.

Definition buildShortURL (c : Context) (shortCode : string) : string :=
  let scheme := if TLS c then "https" else "http" in
  scheme +:+ "://" +:+ Host c +:+ "/" +:+ shortCode.

Definition shorten_response (c : Context) (u : URL.t) : ShortenResponse.t :=
  {| ShortenResponse.ShortURL := buildShortURL c (URL.ShortCode u);
     ShortenResponse.OriginalURL := URL.OriginalURL u;
     ShortenResponse.ShortCode := URL.ShortCode u;
     ShortenResponse.ExpiresAt := URL.ExpiresAt u |}.

Definition ShortenURL (c : Context) (now : Time) (rnd : Utils.RandReader) : M Response :=
  match ShouldBindJSON c with
  | inl err => ret (JSON StatusBadRequest (ErrorBody err))
  | inr request =>
      if negb (isValidURL (ShortenRequest.URL request))
      then ret (JSON StatusBadRequest (ErrorBody "Invalid URL format"))
      else
        (* Check cache first for existing URL *)
        found <~ Cache.GetShortCodeForOriginalURL now (ShortenRequest.URL request) ;;
        cached <~ match found with
                  | inr shortCode => Cache.GetURLMapping now shortCode
                  | inl err => ret (inl err)
                  end ;;
        match cached with
        | inr urlData => ret (JSON StatusOK (ShortenBody (shorten_response c urlData)))
        | inl _ =>
            (* Check database if not in cache *)
            existing <~ db_query (Database.First
                          (Database.where_original_url (ShortenRequest.URL request))) ;;
            match existing with
            | inr existingURL =>
                Cache.CacheURLMapping now (URL.ShortCode existingURL) existingURL ;;;
                Cache.CacheOriginalURLMapping now (URL.OriginalURL existingURL)
                                              (URL.ShortCode existingURL) ;;;
                ret (JSON StatusOK (ShortenBody (shorten_response c existingURL)))
            | inl _ =>
                match Utils.GenerateShortCode rnd with
                | None => ret (Recovered StatusInternalServerError)
                | Some shortCode =>
                    let urlRecord :=
                      {| URL.ID := 0; URL.CreatedAt := 0; URL.UpdatedAt := 0;
                         URL.DeletedAt := None;
                         URL.OriginalURL := ShortenRequest.URL request;
                         URL.ShortCode := shortCode;
                         URL.ClickCount := 0;
                         URL.ExpiresAt := None |} in
                    (* Set expiration if provided *)
                    let urlRecord :=
                      if 0 <? ShortenRequest.ExpiresIn request
                      then URL.with_ExpiresAt urlRecord
                             (Some (AddDate_days now (ShortenRequest.ExpiresIn request)))
                      else urlRecord in
                    (* Save to database *)
                    saved <~ db_exec (Database.Create now urlRecord) ;;
                    match saved with
                    | inl _ =>
                        ret (JSON StatusInternalServerError
                                  (ErrorBody "Failed to create short URL"))
                    | inr urlRecord =>
                        Cache.CacheURLMapping now (URL.ShortCode urlRecord) urlRecord ;;;
                        Cache.CacheOriginalURLMapping now (URL.OriginalURL urlRecord)
                                                      (URL.ShortCode urlRecord) ;;;
                        ret (JSON StatusCreated
                                  (ShortenBody (shorten_response c urlRecord)))
                    end
                end
            end
        end
  end.

Definition is_expired (now : Time) (urlRecord : URL.t) : bool :=
  match URL.ExpiresAt urlRecord with
  | Some t => Before t now
  | None => false
  end.

(** The body of the goroutine of [RedirectURL]. *)
Definition click_accounting (now : Time) (t : ClickTask) : M unit :=
  let shortCode := task_shortCode t in
  let urlRecord := task_urlRecord t in
  Cache.IncrementClickCount now shortCode ;;;
  db_exec (Database.Update_click_count now urlRecord
             (wrap64 (URL.ClickCount urlRecord + 1))) ;;;
  Cache.InvalidateCache shortCode.

Definition RedirectURL (c : Context) (now : Time) : M Response :=
  let shortCode := Param_shortCode c in
  (* Try cache first *)
  cached <~ Cache.GetURLMapping now shortCode ;;
  resolved <~ match cached with
              | inr cachedURL => ret (inr cachedURL)
              | inl _ =>
                  (* Cache miss, check database *)
                  found <~ db_query (Database.First (Database.where_short_code shortCode)) ;;
                  match found with
                  | inl err => ret (inl err)
                  | inr dbURL =>
                      Cache.CacheURLMapping now shortCode dbURL ;;;
                      ret (inr dbURL)
                  end
              end ;;
  match resolved with
  | inl _ => ret (JSON StatusNotFound (ErrorBody "Short URL not found"))
  | inr urlRecord =>
      if is_expired now urlRecord
      then ret (JSON StatusGone (ErrorBody "Short URL has expired"))
      else
        go {| task_shortCode := shortCode; task_urlRecord := urlRecord |} ;;;
        ret (Redirect StatusMovedPermanently (URL.OriginalURL urlRecord))
  end.

Definition GetURLStats (c : Context) (now : Time) : M Response :=
  let shortCode := Param_shortCode c in
  cached <~ Cache.GetURLStats now shortCode ;;
  match cached with
  | inr cachedStats => ret (JSON StatusOK (StatsBody cachedStats))
  | inl _ =>
      found <~ db_query (Database.First (Database.where_short_code shortCode)) ;;
      match found with
      | inl _ => ret (JSON StatusNotFound (ErrorBody "Short URL not found"))
      | inr urlRecord =>
          cachedClicks <~ Cache.GetClickCount now shortCode ;;
          let clickCount :=
            match cachedClicks with
            | inr n => n
            | inl _ => URL.ClickCount urlRecord
            end in
          let response :=
            {| StatsResponse.OriginalURL := URL.OriginalURL urlRecord;
               StatsResponse.ShortCode := URL.ShortCode urlRecord;
               StatsResponse.ClickCount := clickCount;
               StatsResponse.CreatedAt := URL.CreatedAt urlRecord;
               StatsResponse.ExpiresAt := URL.ExpiresAt urlRecord |} in
          Cache.CacheURLStats now shortCode response ;;;
          ret (JSON StatusOK (StatsBody response))
      end
  end.

(** [sqlDB, err := database.DB.DB()] and, when that works, [sqlDB.Ping()]. *)
Definition probe_database (db : Database.DB) : bool :=
  if Database.has_sql_pool db
  then match Database.Ping db with None => true | Some _ => false end
  else false.

Definition HealthCheck (now : Time) : M Response :=
  dbHealthy <~ db_query probe_database ;;
  redisHealthy <~ Cache.IsRedisHealthy ;;
  let response (status : string) :=
    HealthBody {| status := status; timestamp := now; service := "url-shortener";
                  database_healthy := dbHealthy; cache_healthy := redisHealthy |} in
  if negb dbHealthy then ret (JSON StatusServiceUnavailable (response "unhealthy"))
  else if negb redisHealthy then ret (JSON StatusOK (response "degraded"))
  else ret (JSON StatusOK (response "healthy")).

(** The scheduler lets the started goroutines run to completion, in the
    order they were started. *)
Definition run_goroutines (now : Time) : M unit :=
  fun w =>
    (tt, fold_left (fun w t => snd (click_accounting now t w)) (goroutines w)
                   {| DB := DB w; RedisClient := RedisClient w; goroutines := nil |}).

End Handlers.

(** ** Start-up: [database.InitDB] and [cache.InitRedis] *)

Definition empty_db : Database.DB :=
  {| Database.rows := nil; Database.next_id := 1;
     Database.has_sql_pool := true; Database.online := true |}.

Definition empty_redis : Redis.Client :=
  {| Redis.data := ∅; Redis.online := true |}.

(** [InitRedis] leaves a client when the first ping succeeds and [nil]
    otherwise. *)
Definition init_world (redis_answers : bool) : World :=
  {| DB := empty_db;
     RedisClient := if redis_answers then Some empty_redis else None;
     goroutines := nil |}.

(** ** Vocabulary of the specification *)

Import Handlers.

Definition response_code (r : Response) : Z :=
  match r with
  | JSON code _ => code
  | Redirect code _ => code
  | Recovered code => code
  end.

Definition health_status (r : Response) : option string :=
  match r with
  | JSON _ (HealthBody h) => Some (status h)
  | _ => None
  end.

(** The request [POST /shorten {url, expires_in}] and the requests with a
    [shortCode] path parameter. *)
Definition shorten_request (tls : bool) (host url : string) (expires_in : Z) : Context :=
  {| TLS := tls; Host := host;
     ShouldBindJSON := inr {| ShortenRequest.URL := url;
                              ShortenRequest.ExpiresIn := expires_in |};
     Param_shortCode := EmptyString |}.

Definition code_request (shortCode : string) : Context :=
  {| TLS := false; Host := EmptyString;
     ShouldBindJSON := inl EmptyString;
     Param_shortCode := shortCode |}.

(** The contents of the cache server ([∅] without a client) and the entry
    stored under [key]. *)
Definition cache_data (w : World) : gmap string Redis.Entry :=
  match RedisClient w with
  | Some cl => Redis.data cl
  | None => ∅
  end.

Definition cache_entry (w : World) (key : string) : option Redis.Entry :=
  cache_data w !! key.

(** The client when there is one and the server answers. *)
Definition usable (w : World) : option Redis.Client :=
  match RedisClient w with
  | Some cl => if Redis.online cl then Some cl else None
  | None => None
  end.

Definition cache_up (w : World) : bool :=
  match usable w with Some _ => true | None => false end.

(** [RedisClient.Get] as the cache functions see it: [redis.Nil] without a
    client. *)
Definition cache_get (now : Time) (key : string) (w : World) : Redis.Error + Redis.Value :=
  match RedisClient w with
  | Some cl => Redis.Get now key cl
  | None => inl Redis.Nil
  end.

(** The effect of a write on the world: none unless the client is usable. *)
Definition cache_update (f : gmap string Redis.Entry -> gmap string Redis.Entry)
           (w : World) : World :=
  match usable w with
  | Some cl => set_client w (Redis.with_data cl (f (Redis.data cl)))
  | None => w
  end.

Definition cache_set (now : Time) (key : string) (v : Redis.Value) (ttl : Duration)
  : World -> World :=
  cache_update (insert key {| Redis.value := v; Redis.expire_at := Some (now + ttl) |}).

Definition cache_del (key : string) : World -> World := cache_update (delete key).

Definition with_db (w : World) (db : Database.DB) : World :=
  {| DB := db; RedisClient := RedisClient w; goroutines := goroutines w |}.

Definition clicks_key (shortCode : string) : string := Sprintf_s Cache.ClicksKey shortCode.
Definition mapping_key (shortCode : string) : string := Sprintf_s Cache.URLMappingKey shortCode.
Definition stats_key (shortCode : string) : string := Sprintf_s Cache.URLStatsKey shortCode.
Definition original_key (url : string) : string :=
  Sprintf_s Cache.OriginalURLKey (Cache.hashString url).

(** A cached snapshot [u] of the row [r]: everything the store never changes
    after the insert agrees (the click count and [UpdatedAt] may differ). *)
Definition mirrors (u r : URL.t) : Prop :=
  URL.ID u = URL.ID r
  /\ URL.CreatedAt u = URL.CreatedAt r
  /\ URL.DeletedAt u = URL.DeletedAt r
  /\ URL.OriginalURL u = URL.OriginalURL r
  /\ URL.ShortCode u = URL.ShortCode r
  /\ URL.ExpiresAt u = URL.ExpiresAt r.

(** Every row of [rows] is still there in [rows'], up to its click count. *)
Definition extends (rows rows' : list URL.t) : Prop :=
  forall r, In r rows -> exists r', In r' rows' /\ mirrors r r'.

(** The table as the store keeps it: short codes are unique (the unique
    index), no row is soft-deleted, primary keys come from the sequence, and
    the rows are listed in primary-key order. *)
Definition db_ok (db : Database.DB) : Prop :=
  List.NoDup (map URL.ShortCode (Database.rows db))
  /\ List.Forall (fun r => URL.DeletedAt r = None /\ 0 < URL.ID r < Database.next_id db)
                 (Database.rows db)
  /\ 0 < Database.next_id db
  /\ StronglySorted Z.lt (map URL.ID (Database.rows db)).

(** A cache entry as the cache functions write it: a mapping sits under the
    key of its own short code and mirrors a row; a short code sits under the
    key of the hash of its row's URL; statistics sit under the key of their
    short code; no click counter outlives the goroutine that made it. *)
Definition entry_ok (rows : list URL.t) (key : string) (e : Redis.Entry) : Prop :=
  match Redis.value e with
  | Redis.VURL u =>
      key = mapping_key (URL.ShortCode u) /\ exists r, In r rows /\ mirrors u r
  | Redis.VStats s =>
      key = stats_key (StatsResponse.ShortCode s)
      /\ exists r, In r rows /\ URL.ShortCode r = StatsResponse.ShortCode s
  | Redis.VString shortCode =>
      exists r, In r rows /\ URL.ShortCode r = shortCode
                /\ key = original_key (URL.OriginalURL r)
  | Redis.VInt _ => False
  end.

Definition cache_ok (w : World) : Prop :=
  map_Forall (entry_ok (Database.rows (DB w))) (cache_data w).

Definition coherent (w : World) : Prop := db_ok (DB w) /\ cache_ok w.

(** [expiresAt] is set and lies strictly before [now]. *)
Definition expired_at (now : Time) (expiresAt : option Time) : bool :=
  match expiresAt with
  | Some t => Before t now
  | None => false
  end.

(** The effect of [CacheURLMapping] and of [CacheURLStats] on the world:
    nothing is written when the record does not marshal. *)
Definition cache_mapping (now : Time) (shortCode : string) (u : URL.t) (w : World) : World :=
  if URL.json_Marshal_ok u
  then cache_set now (mapping_key shortCode) (Redis.VURL u) Cache.DefaultCacheTTL w
  else w.

Definition cache_stats (now : Time) (shortCode : string) (s : StatsResponse.t) (w : World)
  : World :=
  if StatsResponse.json_Marshal_ok s
  then cache_set now (stats_key shortCode) (Redis.VStats s) Cache.StatsCacheTTL w
  else w.

(** The two cache writes [ShortenURL] makes for a mapping. *)
Definition cache_put (now : Time) (u : URL.t) (w : World) : World :=
  cache_set now (original_key (URL.OriginalURL u)) (Redis.VString (URL.ShortCode u))
            Cache.DefaultCacheTTL
    (cache_mapping now (URL.ShortCode u) u w).

(** The mapping the cache holds for an original URL: the short code under
    the hash of the URL, then the mapping under that short code. *)
Definition cached_mapping_for (now : Time) (url : string) (w : World) : option URL.t :=
  match cache_get now (original_key url) w with
  | inr (Redis.VString shortCode) =>
      match cache_get now (mapping_key shortCode) w with
      | inr (Redis.VURL urlData) => Some urlData
      | _ => None
      end
  | _ => None
  end.

(** The record [ShortenURL] hands to [DB.Create]. *)
Definition new_record (now : Time) (request : ShortenRequest.t) (shortCode : string) : URL.t :=
  {| URL.ID := 0; URL.CreatedAt := 0; URL.UpdatedAt := 0; URL.DeletedAt := None;
     URL.OriginalURL := ShortenRequest.URL request;
     URL.ShortCode := shortCode;
     URL.ClickCount := 0;
     URL.ExpiresAt := if 0 <? ShortenRequest.ExpiresIn request
                      then Some (AddDate_days now (ShortenRequest.ExpiresIn request))
                      else None |}.

(** [go func() { ... }()] on the world. *)
Definition spawn (t : ClickTask) (w : World) : World :=
  {| DB := DB w; RedisClient := RedisClient w; goroutines := goroutines w ++ t :: nil |}.

(** [RedisClient.Incr] on the world. *)
Definition cache_incr (now : Time) (key : string) (w : World) : World :=
  match RedisClient w with
  | Some cl => set_client w (snd (Redis.Incr now key cl))
  | None => w
  end.

(** The handlers, path by path (proved equal to the handlers below). *)
Definition ShortenURL_paths (c : Context) (request : ShortenRequest.t) (now : Time)
           (rnd : Utils.RandReader) (w : World) : Response * World :=
  match cached_mapping_for now (ShortenRequest.URL request) w with
  | Some urlData => (JSON StatusOK (ShortenBody (shorten_response c urlData)), w)
  | None =>
      match Database.First (Database.where_original_url (ShortenRequest.URL request)) (DB w) with
      | inr existingURL =>
          (JSON StatusOK (ShortenBody (shorten_response c existingURL)),
           cache_put now existingURL w)
      | inl _ =>
          match Utils.GenerateShortCode rnd with
          | None => (Recovered StatusInternalServerError, w)
          | Some shortCode =>
              match Database.Create now (new_record now request shortCode) (DB w) with
              | (inl _, db') =>
                  (JSON StatusInternalServerError (ErrorBody "Failed to create short URL"),
                   with_db w db')
              | (inr saved, db') =>
                  (JSON StatusCreated (ShortenBody (shorten_response c saved)),
                   cache_put now saved (with_db w db'))
              end
          end
      end
  end.

Definition RedirectURL_finish (shortCode : string) (now : Time) (urlRecord : URL.t)
           (w : World) : Response * World :=
  if is_expired now urlRecord
  then (JSON StatusGone (ErrorBody "Short URL has expired"), w)
  else (Redirect StatusMovedPermanently (URL.OriginalURL urlRecord),
        spawn {| task_shortCode := shortCode; task_urlRecord := urlRecord |} w).

Definition RedirectURL_paths (shortCode : string) (now : Time) (w : World)
  : Response * World :=
  match cache_get now (mapping_key shortCode) w with
  | inr (Redis.VURL cachedURL) => RedirectURL_finish shortCode now cachedURL w
  | _ =>
      match Database.First (Database.where_short_code shortCode) (DB w) with
      | inl _ => (JSON StatusNotFound (ErrorBody "Short URL not found"), w)
      | inr dbURL =>
          RedirectURL_finish shortCode now dbURL (cache_mapping now shortCode dbURL w)
      end
  end.

Definition stats_of (urlRecord : URL.t) (clickCount : Z) : StatsResponse.t :=
  {| StatsResponse.OriginalURL := URL.OriginalURL urlRecord;
     StatsResponse.ShortCode := URL.ShortCode urlRecord;
     StatsResponse.ClickCount := clickCount;
     StatsResponse.CreatedAt := URL.CreatedAt urlRecord;
     StatsResponse.ExpiresAt := URL.ExpiresAt urlRecord |}.

Definition GetURLStats_paths (shortCode : string) (now : Time) (w : World)
  : Response * World :=
  match cache_get now (stats_key shortCode) w with
  | inr (Redis.VStats cachedStats) => (JSON StatusOK (StatsBody cachedStats), w)
  | _ =>
      match Database.First (Database.where_short_code shortCode) (DB w) with
      | inl _ => (JSON StatusNotFound (ErrorBody "Short URL not found"), w)
      | inr urlRecord =>
          let clickCount :=
            match cache_get now (clicks_key shortCode) w with
            | inr (Redis.VInt n) => n
            | _ => URL.ClickCount urlRecord
            end in
          (JSON StatusOK (StatsBody (stats_of urlRecord clickCount)),
           cache_stats now shortCode (stats_of urlRecord clickCount) w)
      end
  end.

Definition click_accounting_effect (now : Time) (t : ClickTask) (w : World) : World :=
  let shortCode := task_shortCode t in
  let w1 := cache_incr now (clicks_key shortCode) w in
  let w2 := with_db w1 (snd (Database.Update_click_count now (task_urlRecord t)
                               (wrap64 (URL.ClickCount (task_urlRecord t) + 1)) (DB w1))) in
  cache_del (clicks_key shortCode) (cache_del (stats_key shortCode)
    (cache_del (mapping_key shortCode) w2)).

(** ** Runs of the service

    The requests arrive one at a time; between two of them the scheduler may
    let the started goroutines finish, and either server may stop or resume
    answering. *)
Inductive Event :=
| EvShorten (c : Context) (now : Time) (rnd : Utils.RandReader)
| EvRedirect (c : Context) (now : Time)
| EvStats (c : Context) (now : Time)
| EvHealth (now : Time)
| EvGoroutines (now : Time)
| EvStoreOnline (up : bool)
| EvCacheOnline (up : bool).

Definition set_store_online (up : bool) (w : World) : World :=
  {| DB := {| Database.rows := Database.rows (DB w);
              Database.next_id := Database.next_id (DB w);
              Database.has_sql_pool := Database.has_sql_pool (DB w);
              Database.online := up |};
     RedisClient := RedisClient w; goroutines := goroutines w |}.

Definition set_cache_online (up : bool) (w : World) : World :=
  {| DB := DB w;
     RedisClient := match RedisClient w with
                    | Some cl => Some {| Redis.data := Redis.data cl; Redis.online := up |}
                    | None => None
                    end;
     goroutines := goroutines w |}.

Definition step (w : World) (ev : Event) : World :=
  match ev with
  | EvShorten c now rnd => snd (ShortenURL c now rnd w)
  | EvRedirect c now => snd (RedirectURL c now w)
  | EvStats c now => snd (GetURLStats c now w)
  | EvHealth now => snd (HealthCheck now w)
  | EvGoroutines now => snd (run_goroutines now w)
  | EvStoreOnline up => set_store_online up w
  | EvCacheOnline up => set_cache_online up w
  end.

Definition run (evs : list Event) (w : World) : World := fold_left step evs w.

Definition reachable (w : World) : Prop :=
  exists (redis_answers : bool) (evs : list Event), w = run evs (init_world redis_answers).

Arguments Cache.hashString : simpl never.
Arguments Sprintf_s : simpl never.
Arguments Utils.GenerateShortCode : simpl never.
Arguments isValidURL : simpl never.
Arguments wrap64 : simpl never.
Arguments AddDate_days : simpl never.
Arguments mapping_key : simpl never.
Arguments stats_key : simpl never.
Arguments clicks_key : simpl never.
Arguments original_key : simpl never.

(** *** Sequential use of one short code

    A redirect at [t] whose goroutine runs to completion at [t'] before the
    next request, or a statistics request at [t]. *)
Inductive Call :=
| CallRedirect (t t' : Time)
| CallStats (t : Time).

Definition sequential_call (shortCode : string) (w : World) (call : Call) : World :=
  match call with
  | CallRedirect t t' =>
      snd (run_goroutines t' (snd (RedirectURL (code_request shortCode) t w)))
  | CallStats t => snd (GetURLStats (code_request shortCode) t w)
  end.

Definition sequential_calls (shortCode : string) (calls : list Call) (w : World) : World :=
  fold_left (sequential_call shortCode) calls w.

Fixpoint redirects_in (calls : list Call) : nat :=
  match calls with
  | nil => O
  | CallRedirect _ _ :: rest => S (redirects_in rest)
  | CallStats _ :: rest => redirects_in rest
  end.

(** No redirect of [calls] comes after [expiresAt]. *)
Definition in_time (expiresAt : option Time) (call : Call) : Prop :=
  match call with
  | CallRedirect t _ => expired_at t expiresAt = false
  | CallStats _ => True
  end.

(** The state between two calls: the row of [shortCode] counts [k] clicks,
    no goroutine is pending, and whatever a usable cache holds for
    [shortCode] (mapping or statistics) carries that same count. *)
Definition counted (shortCode : string) (expiresAt : option Time) (k : Z) (w : World)
  : Prop :=
  coherent w
  /\ goroutines w = nil
  /\ Database.online (DB w) = true
  /\ (exists row, In row (Database.rows (DB w))
                  /\ URL.ShortCode row = shortCode
                  /\ URL.ClickCount row = k
                  /\ URL.ExpiresAt row = expiresAt)
  /\ (cache_up w = true ->
      (forall e u, cache_data w !! mapping_key shortCode = Some e ->
                   Redis.value e = Redis.VURL u -> URL.ClickCount u = k)
      /\ (forall e s, cache_data w !! stats_key shortCode = Some e ->
                      Redis.value e = Redis.VStats s -> StatsResponse.ClickCount s = k)).

(** A store and goroutines with no cache client, with a client and an empty
    cache, and with a client whose server holds nothing and does not answer. *)
Definition without_cache (db : Database.DB) (gs : list ClickTask) : World :=
  {| DB := db; RedisClient := None; goroutines := gs |}.

Definition with_empty_cache (db : Database.DB) (gs : list ClickTask) : World :=
  {| DB := db; RedisClient := Some empty_redis; goroutines := gs |}.

Definition with_silent_cache (db : Database.DB) (gs : list ClickTask) : World :=
  {| DB := db;
     RedisClient := Some {| Redis.data := ∅; Redis.online := false |};
     goroutines := gs |}.

(** ** Sample data for the worked examples *)

Definition sample_rnd : Utils.RandReader := fun i => Z.of_nat i * 7.

(** The world after [POST /shorten {url: "https://a.example/x", expires_in: 1}]
    at time 0 on a fresh service with a working cache: one row, short code
    "ahovCJ", expiring after one day. *)
Definition sample_world : World :=
  snd (ShortenURL (shorten_request false "sho.rt" "https://a.example/x" 1) 0 sample_rnd
                  (init_world true)).


Definition sample_response : ShortenResponse.t :=
  {| ShortenResponse.ShortURL := "http://sho.rt/ahovCJ";
     ShortenResponse.OriginalURL := "https://a.example/x";
     ShortenResponse.ShortCode := "ahovCJ";
     ShortenResponse.ExpiresAt := Some Day |}.

(** Two redirects with a statistics request in between, all within the day. *)
Definition sample_calls : list Call :=
  CallRedirect 10 11 :: CallStats 12 :: CallRedirect 20 21 :: nil.

(** ** Further vocabulary *)

(** A result that is an error: for the handlers, a miss. *)
Definition is_miss {E A} (r : E + A) : bool :=
  match r with inl _ => true | inr _ => false end.

(** The [uint32] that [hashString] formats. *)
Definition hash32 (s : string) : Z := fold_left Cache.hash_step (Cache.runes s) 0.

(** Reading a lower-case hexadecimal numeral. *)
Definition hex_digit_value (c : ascii) : Z :=
  if is_digit c then byte_val c - byte_val "0" else byte_val c - byte_val "a" + 10.

Definition hex_value (s : string) : Z :=
  fold_left (fun v c => v * 16 + hex_digit_value c) (chars s) 0.

Definition is_lower_hex (c : ascii) : bool := is_digit c || in_range "a" "f" c.

(** Every byte is below 128. *)
Definition is_ascii (s : string) : bool :=
  forallb (fun c => byte_val c <? 128) (chars s).

(** [strings.IndexByte]: the first position of [c] in [s], or [-1]. *)
Fixpoint IndexByte (s : string) (c : ascii) : Z :=
  match s with
  | EmptyString => -1
  | String a s' =>
      if Ascii.eqb a c then 0
      else let r := IndexByte s' c in if r <? 0 then -1 else r + 1
  end.

(** The draws that spell [code]: the position in [charset] of each of its
    characters. *)
Definition draws_of (code : string) : Utils.RandReader :=
  fun i => match String.get i code with
           | Some c => IndexByte Utils.charset c
           | None => 0
           end.

(** Two outcomes of a handler with the same answer, the same durable store
    and the same goroutines started: they differ in the cache at most. *)
Definition agree_up_to_cache {A} (r r0 : A * World) : Prop :=
  fst r = fst r0 /\ DB (snd r) = DB (snd r0) /\ goroutines (snd r) = goroutines (snd r0).

(** What is known of the row [saved] that the store keeps for a request
    accepted under [code]: the next primary key, the requested URL, no click,
    and an expiry exactly when [expires_in] is positive. *)
Definition new_row (db : Database.DB) (request : ShortenRequest.t) (code : string)
           (saved : URL.t) : Prop :=
  URL.ID saved = Database.next_id db
  /\ URL.DeletedAt saved = None
  /\ URL.OriginalURL saved = ShortenRequest.URL request
  /\ URL.ShortCode saved = code
  /\ URL.ClickCount saved = 0
  /\ (URL.ExpiresAt saved = None <-> ShortenRequest.ExpiresIn request <= 0).

(** The row of [sample_world]. *)
Definition sample_row : URL.t :=
  {| URL.ID := 1; URL.CreatedAt := 0; URL.UpdatedAt := 0; URL.DeletedAt := None;
     URL.OriginalURL := "https://a.example/x"; URL.ShortCode := "ahovCJ";
     URL.ClickCount := 0; URL.ExpiresAt := Some Day |}.

Definition is_goroutines (ev : Event) : bool :=
  match ev with EvGoroutines _ => true | _ => false end.

(** The answer of [RedirectURL] for a record that expires at [expiresAt] and
    points to [url]. *)
Definition redirect_answer (now : Time) (expiresAt : option Time) (url : string) : Response :=
  if expired_at now expiresAt
  then JSON StatusGone (ErrorBody "Short URL has expired")
  else Redirect StatusMovedPermanently url.

(** Redirects on [shortCode] at the times [ts], none of their goroutines
    having run yet. *)
Definition burst (shortCode : string) (ts : list Time) (w : World) : World :=
  fold_left (fun w t => snd (RedirectURL (code_request shortCode) t w)) ts w.

(** What a goroutine of a redirect on [shortCode] captured while the row
    [id] counted [k] clicks. *)
Definition captured (shortCode : string) (id k : Z) (t : ClickTask) : Prop :=
  task_shortCode t = shortCode
  /\ URL.ID (task_urlRecord t) = id
  /\ URL.ClickCount (task_urlRecord t) = k.

(** The state during a burst: as [counted], but for the goroutines pending,
    which all captured the count [k]. *)
Definition counted_pending (shortCode : string) (expiresAt : option Time) (id k : Z)
           (w : World) : Prop :=
  coherent w
  /\ Database.online (DB w) = true
  /\ (exists row, In row (Database.rows (DB w))
                  /\ URL.ShortCode row = shortCode
                  /\ URL.ID row = id
                  /\ URL.ClickCount row = k
                  /\ URL.ExpiresAt row = expiresAt)
  /\ List.Forall (captured shortCode id k) (goroutines w)
  /\ (cache_up w = true ->
      forall e u, cache_data w !! mapping_key shortCode = Some e ->
                  Redis.value e = Redis.VURL u -> URL.ClickCount u = k).

(** A row as [ShortenURL] makes them: a URL that [isValidURL] accepts under a
    code of six characters of [[A-Za-z0-9]]. *)
Definition well_formed_row (r : URL.t) : Prop :=
  isValidURL (URL.OriginalURL r) = true
  /\ String.length (URL.ShortCode r) = Utils.shortCodeLength
  /\ forallb is_alnum (chars (URL.ShortCode r)) = true.



(** * Properties *)

(** ** The code generator *)

Lemma charset_length : String.length Utils.charset = 62%nat.
Proof. reflexivity. Qed.

Lemma is_alnum_charset (c : ascii) :
  is_alnum c = existsb (Ascii.eqb c) (chars Utils.charset).
Proof. destruct c as [[] [] [] [] [] [] [] []]; vm_compute; reflexivity. Qed.

Lemma charset_is_alphabet (c : ascii) :
  is_alnum c = true <-> In c (chars Utils.charset).
Proof.
  rewrite is_alnum_charset, existsb_exists. split.
  - intros (x & Hin & Heq). apply Ascii.eqb_eq in Heq. now subst.
  - intros Hin. exists c. split; [assumption | apply Ascii.eqb_refl].
Qed.

Lemma charset_NoDup : NoDup (chars Utils.charset).
Proof. unfold chars. apply (bool_decide_unpack _). vm_compute. reflexivity. Qed.

Lemma get_In (s : string) (n : nat) (c : ascii) :
  String.get n s = Some c -> In c (chars s).
Proof.
  revert n. induction s as [|a s IH]; intros n H; [discriminate|].
  destruct n as [|n]; simpl in *.
  - left. congruence.
  - right. eauto.
Qed.

Lemma get_is_Some (s : string) (n : nat) :
  (n < String.length s)%nat -> exists c, String.get n s = Some c.
Proof.
  revert n. induction s as [|a s IH]; intros n H; simpl in *; [lia|].
  destruct n as [|n]; [eauto | apply IH; lia].
Qed.

Lemma index_byte_alnum (z : Z) (c : ascii) :
  index_byte Utils.charset z = Some c -> is_alnum c = true.
Proof.
  unfold index_byte. destruct (z <? 0); [discriminate|].
  intros H. apply charset_is_alphabet. eapply get_In; eassumption.
Qed.

Lemma index_byte_in_range (z : Z) :
  0 <= z < Utils.charsetLength -> exists c, index_byte Utils.charset z = Some c.
Proof.
  intros [H0 H1]. unfold index_byte.
  destruct (Z.ltb_spec z 0); [lia|].
  apply get_is_Some. unfold Utils.charsetLength in H1. lia.
Qed.

Lemma fill_spec (rnd : Utils.RandReader) (n i : nat) (code : string) :
  Utils.fill rnd i n = Some code ->
  String.length code = n /\ Forall (fun c => is_alnum c = true) (chars code).
Proof.
  revert i code. induction n as [|n IH]; intros i code H; simpl in H.
  - injection H as <-. split; [reflexivity | constructor].
  - destruct (index_byte Utils.charset (rnd i)) as [c|] eqn:Hc; [|discriminate].
    destruct (Utils.fill rnd (S i) n) as [rest|] eqn:Hr; [|discriminate].
    injection H as <-. destruct (IH _ _ Hr) as [Hlen Hall]. split.
    + simpl. now rewrite Hlen.
    + constructor; [eapply index_byte_alnum; eassumption | exact Hall].
Qed.

Lemma fill_total (rnd : Utils.RandReader) (n i : nat) :
  (forall j : nat, (i <= j < i + n)%nat -> 0 <= rnd j < Utils.charsetLength) ->
  exists code, Utils.fill rnd i n = Some code.
Proof.
  revert i. induction n as [|n IH]; intros i H; simpl.
  - eauto.
  - destruct (index_byte_in_range (rnd i)) as [c ->]; [apply H; lia|].
    destruct (IH (S i)) as [rest ->]; [intros j Hj; apply H; lia|]. eauto.
Qed.

(** C8.  Whenever the random source keeps the promise of [rand.Int],
    [GenerateShortCode] returns a string; and every string it returns has
    length exactly 6 and only characters of the 62-character alphabet
    [[A-Za-z0-9]] (which is the set of characters of [charset]). *)
Theorem GenerateShortCode_length_and_alphabet (rnd : Utils.RandReader) :
  (Utils.rand_contract rnd -> exists code, Utils.GenerateShortCode rnd = Some code)
  /\ (forall code, Utils.GenerateShortCode rnd = Some code ->
        String.length code = 6%nat
        /\ Forall (fun c => is_alnum c = true /\ In c (chars Utils.charset)) (chars code)).
Proof.
  split.
  - intros H. apply fill_total. intros j Hj. apply H. lia.
  - intros code H. apply fill_spec in H as [Hlen Hall]. split; [exact Hlen|].
    eapply Forall_impl; [exact Hall|]. intros c Hc. split; [exact Hc|].
    now apply charset_is_alphabet.
Qed.

Lemma GenerateShortCode_length_and_alphabet_witness :
  let rnd : Utils.RandReader := fun i => Z.of_nat i * 7 in
  Utils.rand_contract rnd
  /\ (exists code, Utils.GenerateShortCode rnd = Some code)
  /\ Utils.GenerateShortCode rnd = Some "ahovCJ"
  /\ String.length "ahovCJ" = 6%nat
  /\ Forall (fun c => is_alnum c = true /\ In c (chars Utils.charset)) (chars "ahovCJ").
Proof.
  intros rnd.
  assert (Hrnd : Utils.rand_contract rnd).
  { intros i Hi. unfold Utils.shortCodeLength in Hi.
    assert (Hi' : (i <= 5)%nat) by lia.
    unfold rnd, Utils.charsetLength. rewrite charset_length. lia. }
  split; [exact Hrnd|]. split.
  - exact (proj1 (GenerateShortCode_length_and_alphabet rnd) Hrnd).
  - split; [reflexivity|].
    apply (proj2 (GenerateShortCode_length_and_alphabet rnd) "ahovCJ"). reflexivity.
Defined.

(** ** The URL validator *)

Lemma nonempty_true (s : string) : NetURL.nonempty s = true <-> s <> EmptyString.
Proof. destruct s; simpl; split; intros H; congruence. Qed.

Lemma isValidURL_iff (str : string) :
  isValidURL str = true <->
  exists u, NetURL.Parse str = inr u
            /\ NetURL.Scheme u <> EmptyString /\ NetURL.Host u <> EmptyString.
Proof.
  unfold isValidURL. destruct (NetURL.Parse str) as [e|u]; split.
  - discriminate.
  - intros (u & Hu & _). discriminate Hu.
  - intros H. apply andb_true_iff in H as [Hs Hh]. exists u.
    rewrite <- !nonempty_true. auto.
  - intros (u' & [= <-] & Hs & Hh). apply andb_true_iff.
    rewrite !nonempty_true. auto.
Qed.

Lemma ShortenURL_invalid (c : Context) (request : ShortenRequest.t)
      (now : Time) (rnd : Utils.RandReader) (w : World) :
  ShouldBindJSON c = inr request ->
  isValidURL (ShortenRequest.URL request) = false ->
  ShortenURL c now rnd w = (JSON StatusBadRequest (ErrorBody "Invalid URL format"), w).
Proof. intros Hb Hv. unfold ShortenURL. rewrite Hb, Hv. reflexivity. Qed.

(** C7.  [isValidURL] accepts exactly the strings that [url.Parse] parses
    into a URL with a non-empty scheme and a non-empty host.  It rejects
    "not a url" and "example.com", for which Create answers 400 (invalid
    input) and changes nothing, and it accepts "https://example.com/path". *)
Theorem isValidURL_accepts_scheme_and_host :
  (forall str, isValidURL str = true <->
     exists u, NetURL.Parse str = inr u
               /\ NetURL.Scheme u <> EmptyString /\ NetURL.Host u <> EmptyString)
  /\ isValidURL "not a url" = false
  /\ isValidURL "example.com" = false
  /\ isValidURL "https://example.com/path" = true
  /\ (forall tls host d now rnd w,
        ShortenURL (shorten_request tls host "not a url" d) now rnd w
        = (JSON StatusBadRequest (ErrorBody "Invalid URL format"), w))
  /\ (forall tls host d now rnd w,
        ShortenURL (shorten_request tls host "example.com" d) now rnd w
        = (JSON StatusBadRequest (ErrorBody "Invalid URL format"), w)).
Proof.
  split; [exact isValidURL_iff|].
  repeat split; try (vm_compute; reflexivity);
    intros; now apply ShortenURL_invalid with (request := {| ShortenRequest.URL := _ |}).
Qed.

(** ** The health check *)

Lemma probe_database_true (db : Database.DB) :
  probe_database db = true <->
  Database.has_sql_pool db = true /\ Database.online db = true.
Proof.
  unfold probe_database, Database.Ping.
  destruct (Database.has_sql_pool db), (Database.online db); simpl; intuition congruence.
Qed.

Lemma IsRedisHealthy_true (w : World) :
  fst (Cache.IsRedisHealthy w) = true <->
  exists cl, RedisClient w = Some cl /\ Redis.online cl = true.
Proof.
  unfold Cache.IsRedisHealthy, Redis.Ping.
  destruct (RedisClient w) as [cl|]; simpl.
  - destruct (Redis.online cl) eqn:Ho; split; eauto; try discriminate.
    intros (cl' & [= <-] & H). congruence.
  - split; [discriminate | intros (cl & H & _); discriminate].
Qed.

Lemma HealthCheck_eq (now : Time) (w : World) :
  HealthCheck now w =
  (let dbHealthy := probe_database (DB w) in
   let redisHealthy := fst (Cache.IsRedisHealthy w) in
   let body st := HealthBody {| status := st; timestamp := now; service := "url-shortener";
                                database_healthy := dbHealthy;
                                cache_healthy := redisHealthy |} in
   if negb dbHealthy then JSON StatusServiceUnavailable (body "unhealthy")
   else if negb redisHealthy then JSON StatusOK (body "degraded")
   else JSON StatusOK (body "healthy"), w).
Proof.
  unfold HealthCheck, bind, db_query, ret, Cache.IsRedisHealthy. simpl.
  destruct (RedisClient w) as [cl|]; simpl;
    destruct (probe_database (DB w)); simpl; try reflexivity.
  destruct (Redis.Ping cl); reflexivity.
Qed.

(** C9.  [HealthCheck] answers "unhealthy", with 503, exactly when the probe
    of the durable store fails; when that probe succeeds it answers 200, with
    "degraded" if the cache probe [IsRedisHealthy] fails and "healthy" if
    both succeed.  It changes nothing. *)
Theorem HealthCheck_status (now : Time) (w : World) :
  let r := fst (HealthCheck now w) in
  let store_ok := probe_database (DB w) in
  let cache_ok := fst (Cache.IsRedisHealthy w) in
  (health_status r = Some "unhealthy" <-> store_ok = false)
  /\ (response_code r = StatusServiceUnavailable <-> store_ok = false)
  /\ (store_ok = true ->
        response_code r = StatusOK
        /\ (cache_ok = false -> health_status r = Some "degraded")
        /\ (cache_ok = true -> health_status r = Some "healthy"))
  /\ snd (HealthCheck now w) = w.
Proof.
  rewrite HealthCheck_eq. cbn zeta. simpl fst. simpl snd.
  destruct (probe_database (DB w)), (fst (Cache.IsRedisHealthy w)); simpl;
    repeat split; intros; try reflexivity; try discriminate.
Qed.

Lemma HealthCheck_status_witness :
  let w := init_world false in
  probe_database (DB w) = true
  /\ fst (Cache.IsRedisHealthy w) = false
  /\ response_code (fst (HealthCheck 0 w)) = StatusOK
  /\ health_status (fst (HealthCheck 0 w)) = Some "degraded".
Proof.
  intros w. split; [reflexivity|]. split; [reflexivity|].
  destruct (HealthCheck_status 0 w) as (_ & _ & H & _).
  destruct (H eq_refl) as (Hc & Hd & _). split; [exact Hc | exact (Hd eq_refl)].
Defined.

(** ** Cache keys *)

Lemma append_nil_r (s : string) : s +:+ EmptyString = s.
Proof.
  induction s as [|a s IH]; [reflexivity|].
  change (String a (s +:+ EmptyString) = String a s). now rewrite IH.
Qed.

Lemma append_inj_r (p a b : string) : p +:+ a = p +:+ b -> a = b.
Proof.
  induction p as [|c p IH]; intros H; [exact H|].
  change (String c (p +:+ a) = String c (p +:+ b)) in H.
  injection H as H. auto.
Qed.

Lemma mapping_key_eq (c : string) : mapping_key c = "url:mapping:" +:+ c.
Proof.
  change (mapping_key c) with ("url:mapping:" +:+ (c +:+ EmptyString)).
  now rewrite append_nil_r.
Qed.

Lemma stats_key_eq (c : string) : stats_key c = "url:stats:" +:+ c.
Proof.
  change (stats_key c) with ("url:stats:" +:+ (c +:+ EmptyString)).
  now rewrite append_nil_r.
Qed.

Lemma clicks_key_eq (c : string) : clicks_key c = "url:clicks:" +:+ c.
Proof.
  change (clicks_key c) with ("url:clicks:" +:+ (c +:+ EmptyString)).
  now rewrite append_nil_r.
Qed.

Lemma original_key_eq (u : string) :
  original_key u = "url:original:" +:+ Cache.hashString u.
Proof.
  change (original_key u) with ("url:original:" +:+ (Cache.hashString u +:+ EmptyString)).
  now rewrite append_nil_r.
Qed.

(** The four families of keys differ in their fifth byte. *)
Lemma mapping_key_4 (a : string) : String.get 4 (mapping_key a) = Some "m"%char.
Proof. rewrite mapping_key_eq. reflexivity. Qed.

Lemma stats_key_4 (a : string) : String.get 4 (stats_key a) = Some "s"%char.
Proof. rewrite stats_key_eq. reflexivity. Qed.

Lemma clicks_key_4 (a : string) : String.get 4 (clicks_key a) = Some "c"%char.
Proof. rewrite clicks_key_eq. reflexivity. Qed.

Lemma original_key_4 (a : string) : String.get 4 (original_key a) = Some "o"%char.
Proof. rewrite original_key_eq. reflexivity. Qed.

Lemma mapping_key_inj (a b : string) : mapping_key a = mapping_key b -> a = b.
Proof. rewrite !mapping_key_eq. apply append_inj_r. Qed.

Lemma stats_key_inj (a b : string) : stats_key a = stats_key b -> a = b.
Proof. rewrite !stats_key_eq. apply append_inj_r. Qed.

Lemma original_key_inj (a b : string) :
  original_key a = original_key b -> Cache.hashString a = Cache.hashString b.
Proof. rewrite !original_key_eq. apply append_inj_r. Qed.

Ltac key_clash :=
  let H := fresh in
  intros H; apply (f_equal (String.get 4)) in H;
  rewrite ?mapping_key_4, ?stats_key_4, ?clicks_key_4, ?original_key_4 in H;
  discriminate H.

Lemma mapping_stats_key (a b : string) : mapping_key a <> stats_key b.
Proof. key_clash. Qed.

Lemma mapping_clicks_key (a b : string) : mapping_key a <> clicks_key b.
Proof. key_clash. Qed.

Lemma mapping_original_key (a b : string) : mapping_key a <> original_key b.
Proof. key_clash. Qed.

Lemma stats_clicks_key (a b : string) : stats_key a <> clicks_key b.
Proof. key_clash. Qed.

Lemma stats_original_key (a b : string) : stats_key a <> original_key b.
Proof. key_clash. Qed.

Lemma clicks_original_key (a b : string) : clicks_key a <> original_key b.
Proof. key_clash. Qed.

(** ** Symbolic execution of the handlers *)

Ltac fold_keys :=
  repeat match goal with
    | |- context [Sprintf_s Cache.OriginalURLKey (Cache.hashString ?u)] =>
        change (Sprintf_s Cache.OriginalURLKey (Cache.hashString u)) with (original_key u)
    | |- context [Sprintf_s Cache.URLMappingKey ?c] =>
        change (Sprintf_s Cache.URLMappingKey c) with (mapping_key c)
    | |- context [Sprintf_s Cache.URLStatsKey ?c] =>
        change (Sprintf_s Cache.URLStatsKey c) with (stats_key c)
    | |- context [Sprintf_s Cache.ClicksKey ?c] =>
        change (Sprintf_s Cache.ClicksKey c) with (clicks_key c)
    end.

Ltac unfold_monad :=
  unfold bind, ret, db_query, db_exec, go, set_client,
    Cache.GetURLMapping, Cache.CacheURLMapping, Cache.GetURLStats, Cache.CacheURLStats,
    Cache.GetShortCodeForOriginalURL, Cache.CacheOriginalURLMapping,
    Cache.IncrementClickCount, Cache.GetClickCount, Cache.InvalidateCache,
    Cache.with_client in *.


Lemma bind_eq {A B} (m : M A) (k : A -> M B) (w : World) :
  bind m k w = k (fst (m w)) (snd (m w)).
Proof. unfold bind. destruct (m w). reflexivity. Qed.

Lemma world_eta (w : World) :
  {| DB := DB w; RedisClient := RedisClient w; goroutines := goroutines w |} = w.
Proof. destruct w. reflexivity. Qed.

(** *** The cache functions in terms of [cache_get], [cache_set], [cache_del] *)

Ltac cache_cases w :=
  destruct w as [?db [[?d []]|] ?gs]; unfold_monad;
  unfold cache_get, cache_set, cache_del, cache_update, cache_incr, usable, set_client,
    Redis.Get, Redis.Set_, Redis.Del, Redis.with_data;
  simpl; fold_keys.

Lemma GetURLMapping_eq (now : Time) (c : string) (w : World) :
  Cache.GetURLMapping now c w =
  (match cache_get now (mapping_key c) w with
   | inl e => inl e
   | inr (Redis.VURL u) => inr u
   | inr _ => inl Redis.ErrDecode
   end, w).
Proof.
  cache_cases w; try reflexivity.
  destruct (Redis.live now _ _) as [[]|]; reflexivity.
Qed.

Lemma GetURLStats_eq (now : Time) (c : string) (w : World) :
  Cache.GetURLStats now c w =
  (match cache_get now (stats_key c) w with
   | inl e => inl e
   | inr (Redis.VStats s) => inr s
   | inr _ => inl Redis.ErrDecode
   end, w).
Proof.
  cache_cases w; try reflexivity.
  destruct (Redis.live now _ _) as [[]|]; reflexivity.
Qed.

Lemma GetShortCodeForOriginalURL_eq (now : Time) (u : string) (w : World) :
  Cache.GetShortCodeForOriginalURL now u w =
  (match cache_get now (original_key u) w with
   | inl e => inl e
   | inr (Redis.VString s) => inr s
   | inr _ => inl Redis.ErrDecode
   end, w).
Proof.
  cache_cases w; try reflexivity.
  destruct (Redis.live now _ _) as [[]|]; reflexivity.
Qed.

Lemma GetClickCount_eq (now : Time) (c : string) (w : World) :
  Cache.GetClickCount now c w =
  (match cache_get now (clicks_key c) w with
   | inl e => inl e
   | inr (Redis.VInt n) => inr n
   | inr _ => inl Redis.ErrNotInteger
   end, w).
Proof.
  cache_cases w; try reflexivity.
  destruct (Redis.live now _ _) as [[]|]; reflexivity.
Qed.

Lemma CacheURLMapping_eq (now : Time) (c : string) (u : URL.t) (w : World) :
  snd (Cache.CacheURLMapping now c u w) = cache_mapping now c u w.
Proof.
  unfold cache_mapping. destruct (URL.json_Marshal_ok u) eqn:Hm;
    cache_cases w; rewrite ?Hm; reflexivity.
Qed.

Lemma CacheURLStats_eq (now : Time) (c : string) (s : StatsResponse.t) (w : World) :
  snd (Cache.CacheURLStats now c s w) = cache_stats now c s w.
Proof.
  unfold cache_stats. destruct (StatsResponse.json_Marshal_ok s) eqn:Hm;
    cache_cases w; rewrite ?Hm; reflexivity.
Qed.

Lemma CacheOriginalURLMapping_eq (now : Time) (u c : string) (w : World) :
  snd (Cache.CacheOriginalURLMapping now u c w)
  = cache_set now (original_key u) (Redis.VString c) Cache.DefaultCacheTTL w.
Proof. cache_cases w; reflexivity. Qed.

Lemma IncrementClickCount_eq (now : Time) (c : string) (w : World) :
  snd (Cache.IncrementClickCount now c w) = cache_incr now (clicks_key c) w.
Proof.
  cache_cases w; try reflexivity.
  destruct (Redis.Incr now _ _) as [[e|n] cl']; reflexivity.
Qed.

Lemma InvalidateCache_eq (c : string) (w : World) :
  snd (Cache.InvalidateCache c w)
  = cache_del (clicks_key c) (cache_del (stats_key c) (cache_del (mapping_key c) w)).
Proof. cache_cases w; reflexivity. Qed.

(** *** The handlers, path by path *)

Lemma new_record_eq (now : Time) (request : ShortenRequest.t) (shortCode : string) :
  (if 0 <? ShortenRequest.ExpiresIn request
   then URL.with_ExpiresAt
          {| URL.ID := 0; URL.CreatedAt := 0; URL.UpdatedAt := 0; URL.DeletedAt := None;
             URL.OriginalURL := ShortenRequest.URL request; URL.ShortCode := shortCode;
             URL.ClickCount := 0; URL.ExpiresAt := None |}
          (Some (AddDate_days now (ShortenRequest.ExpiresIn request)))
   else
     {| URL.ID := 0; URL.CreatedAt := 0; URL.UpdatedAt := 0; URL.DeletedAt := None;
        URL.OriginalURL := ShortenRequest.URL request; URL.ShortCode := shortCode;
        URL.ClickCount := 0; URL.ExpiresAt := None |})
  = new_record now request shortCode.
Proof. unfold new_record. destruct (0 <? ShortenRequest.ExpiresIn request); reflexivity. Qed.

Lemma ShortenURL_eq (c : Context) (request : ShortenRequest.t) (now : Time)
      (rnd : Utils.RandReader) (w : World) :
  ShouldBindJSON c = inr request ->
  isValidURL (ShortenRequest.URL request) = true ->
  ShortenURL c now rnd w = ShortenURL_paths c request now rnd w.
Proof.
  intros Hb Hv. unfold ShortenURL, ShortenURL_paths, cached_mapping_for.
  rewrite Hb, Hv. change (negb true) with false. cbv iota.
  match goal with
  | |- context [bind (db_query ?q) ?k] =>
      assert (Hdb : forall w0 : World,
        bind (db_query q) k w0
        = match Database.First
                  (Database.where_original_url (ShortenRequest.URL request)) (DB w0) with
          | inr existingURL =>
              (JSON StatusOK (ShortenBody (shorten_response c existingURL)),
               cache_put now existingURL w0)
          | inl _ =>
              match Utils.GenerateShortCode rnd with
              | None => (Recovered StatusInternalServerError, w0)
              | Some shortCode =>
                  match Database.Create now (new_record now request shortCode) (DB w0) with
                  | (inl _, db') =>
                      (JSON StatusInternalServerError
                            (ErrorBody "Failed to create short URL"), with_db w0 db')
                  | (inr saved, db') =>
                      (JSON StatusCreated (ShortenBody (shorten_response c saved)),
                       cache_put now saved (with_db w0 db'))
                  end
              end
          end)
  end.
  { intros w0. rewrite bind_eq. unfold db_query at 1 2. cbn [fst snd].
    destruct (Database.First _ (DB w0)) as [e|existingURL].
    - destruct (Utils.GenerateShortCode rnd) as [shortCode|]; [|reflexivity].
      cbv zeta. rewrite (new_record_eq now request shortCode).
      rewrite bind_eq. unfold db_exec at 1 2.
      destruct (Database.Create now _ (DB w0)) as [[e'|saved] db']; cbn [fst snd].
      + reflexivity.
      + rewrite !bind_eq, CacheURLMapping_eq, CacheOriginalURLMapping_eq. reflexivity.
    - rewrite !bind_eq, CacheURLMapping_eq, CacheOriginalURLMapping_eq. reflexivity. }
  rewrite bind_eq, GetShortCodeForOriginalURL_eq. cbn [fst snd].
  rewrite bind_eq.
  destruct (cache_get now (original_key (ShortenRequest.URL request)) w) as [e|[u|s|s|n]];
    try (unfold ret at 1 2; cbn [fst snd]; apply Hdb).
  rewrite GetURLMapping_eq. cbn [fst snd].
  destruct (cache_get now (mapping_key s) w) as [e|[u|s'|s'|n]];
    try apply Hdb.
  reflexivity.
Qed.

Lemma RedirectURL_eq (c : Context) (now : Time) (w : World) :
  RedirectURL c now w = RedirectURL_paths (Param_shortCode c) now w.
Proof.
  unfold RedirectURL, RedirectURL_paths, RedirectURL_finish. cbv zeta.
  rewrite bind_eq, GetURLMapping_eq. cbn [fst snd]. rewrite bind_eq.
  assert (Hfin : forall (u : URL.t) (w0 : World),
    (if is_expired now u
     then ret (JSON StatusGone (ErrorBody "Short URL has expired"))
     else go {| task_shortCode := Param_shortCode c; task_urlRecord := u |} ;;;
          ret (Redirect StatusMovedPermanently (URL.OriginalURL u))) w0
    = (if is_expired now u
       then (JSON StatusGone (ErrorBody "Short URL has expired"), w0)
       else (Redirect StatusMovedPermanently (URL.OriginalURL u),
             spawn {| task_shortCode := Param_shortCode c; task_urlRecord := u |} w0))).
  { intros u w0. destruct (is_expired now u); reflexivity. }
  assert (Hdb : forall e : Redis.Error,
    (let m : M (Database.Error + URL.t) :=
       found <~ db_query (Database.First (Database.where_short_code (Param_shortCode c))) ;;
       match found with
       | inl err => ret (inl err)
       | inr dbURL => Cache.CacheURLMapping now (Param_shortCode c) dbURL ;;; ret (inr dbURL)
       end in
     match fst (m w) with
     | inl _ => ret (JSON StatusNotFound (ErrorBody "Short URL not found"))
     | inr urlRecord =>
         if is_expired now urlRecord
         then ret (JSON StatusGone (ErrorBody "Short URL has expired"))
         else go {| task_shortCode := Param_shortCode c; task_urlRecord := urlRecord |} ;;;
              ret (Redirect StatusMovedPermanently (URL.OriginalURL urlRecord))
     end (snd (m w)))
    = match Database.First (Database.where_short_code (Param_shortCode c)) (DB w) with
      | inl _ => (JSON StatusNotFound (ErrorBody "Short URL not found"), w)
      | inr dbURL =>
          if is_expired now dbURL
          then (JSON StatusGone (ErrorBody "Short URL has expired"),
                cache_mapping now (Param_shortCode c) dbURL w)
          else (Redirect StatusMovedPermanently (URL.OriginalURL dbURL),
                spawn {| task_shortCode := Param_shortCode c; task_urlRecord := dbURL |}
                      (cache_mapping now (Param_shortCode c) dbURL w))
      end).
  { intros _. cbv zeta. rewrite bind_eq. unfold db_query at 1 2 3 4. cbn [fst snd].
    destruct (Database.First _ (DB w)) as [e|dbURL]; [reflexivity|].
    rewrite bind_eq, CacheURLMapping_eq. unfold ret at 1 3. cbn [fst snd]. apply Hfin. }
  destruct (cache_get now (mapping_key (Param_shortCode c)) w) as [e|[u|s|s|n]];
    try (apply (Hdb Redis.Nil)).
  unfold ret at 1 2. cbn [fst snd]. apply Hfin.
Qed.

Lemma GetURLStats_handler_eq (c : Context) (now : Time) (w : World) :
  GetURLStats c now w = GetURLStats_paths (Param_shortCode c) now w.
Proof.
  unfold GetURLStats, GetURLStats_paths. cbv zeta.
  rewrite bind_eq, GetURLStats_eq. cbn [fst snd].
  assert (Hdb :
    (found <~ db_query (Database.First (Database.where_short_code (Param_shortCode c))) ;;
     match found with
     | inl _ => ret (JSON StatusNotFound (ErrorBody "Short URL not found"))
     | inr urlRecord =>
         cachedClicks <~ Cache.GetClickCount now (Param_shortCode c) ;;
         Cache.CacheURLStats now (Param_shortCode c)
           {| StatsResponse.OriginalURL := URL.OriginalURL urlRecord;
              StatsResponse.ShortCode := URL.ShortCode urlRecord;
              StatsResponse.ClickCount :=
                match cachedClicks with
                | inr n => n
                | inl _ => URL.ClickCount urlRecord
                end;
              StatsResponse.CreatedAt := URL.CreatedAt urlRecord;
              StatsResponse.ExpiresAt := URL.ExpiresAt urlRecord |} ;;;
         ret (JSON StatusOK (StatsBody
           {| StatsResponse.OriginalURL := URL.OriginalURL urlRecord;
              StatsResponse.ShortCode := URL.ShortCode urlRecord;
              StatsResponse.ClickCount :=
                match cachedClicks with
                | inr n => n
                | inl _ => URL.ClickCount urlRecord
                end;
              StatsResponse.CreatedAt := URL.CreatedAt urlRecord;
              StatsResponse.ExpiresAt := URL.ExpiresAt urlRecord |}))
     end) w
    = match Database.First (Database.where_short_code (Param_shortCode c)) (DB w) with
      | inl _ => (JSON StatusNotFound (ErrorBody "Short URL not found"), w)
      | inr urlRecord =>
          let clickCount :=
            match cache_get now (clicks_key (Param_shortCode c)) w with
            | inr (Redis.VInt n) => n
            | _ => URL.ClickCount urlRecord
            end in
          (JSON StatusOK (StatsBody (stats_of urlRecord clickCount)),
           cache_stats now (Param_shortCode c) (stats_of urlRecord clickCount) w)
      end).
  { rewrite bind_eq. unfold db_query at 1 2. cbn [fst snd].
    destruct (Database.First _ (DB w)) as [e|urlRecord]; [reflexivity|].
    rewrite bind_eq, GetClickCount_eq. cbn [fst snd].
    rewrite bind_eq, CacheURLStats_eq. unfold ret. cbv zeta. unfold stats_of.
    destruct (cache_get now (clicks_key (Param_shortCode c)) w) as [e|[u|s|s|n]];
      reflexivity. }
  destruct (cache_get now (stats_key (Param_shortCode c)) w) as [e|[u|s|s|n]];
    try exact Hdb.
  reflexivity.
Qed.

Lemma click_accounting_eq (now : Time) (t : ClickTask) (w : World) :
  snd (click_accounting now t w) = click_accounting_effect now t w.
Proof.
  unfold click_accounting, click_accounting_effect. cbv zeta.
  rewrite bind_eq. cbn [fst snd]. rewrite IncrementClickCount_eq.
  rewrite bind_eq, InvalidateCache_eq. unfold db_exec.
  destruct (Database.Update_click_count now _ _ _) as [err db']. reflexivity.
Qed.

(** *** Reads after writes *)

Lemma cache_get_inr (now : Time) (key : string) (w : World) (v : Redis.Value) :
  cache_get now key w = inr v <->
  cache_up w = true
  /\ exists e, cache_data w !! key = Some e
               /\ Redis.expired now e = false /\ Redis.value e = v.
Proof.
  destruct w as [db [[d o]|] gs];
    unfold cache_get, cache_up, usable, cache_data, Redis.Get, Redis.live; simpl.
  - destruct o; simpl.
    + destruct (d !! key) as [e|] eqn:He.
      * destruct (Redis.expired now e) eqn:Hx; split.
        -- discriminate.
        -- intros (_ & e' & [= <-] & Hx' & _). congruence.
        -- intros [= <-]. eauto.
        -- intros (_ & e' & [= <-] & _ & <-). reflexivity.
      * split; [discriminate | intros (_ & e' & He' & _); discriminate].
    + split; [discriminate | intros [H _]; discriminate].
  - split; [discriminate | intros [H _]; discriminate].
Qed.

Lemma cache_get_down (now : Time) (key : string) (w : World) :
  cache_up w = false -> exists e, cache_get now key w = inl e.
Proof.
  intros H. destruct (cache_get now key w) as [e|v] eqn:Hg; [eauto|].
  apply cache_get_inr in Hg as [Hup _]. congruence.
Qed.

Lemma cache_update_down (f : gmap string Redis.Entry -> gmap string Redis.Entry) (w : World) :
  cache_up w = false -> cache_update f w = w.
Proof. unfold cache_up, cache_update. destruct (usable w); [discriminate | reflexivity]. Qed.

Lemma cache_up_update (f : gmap string Redis.Entry -> gmap string Redis.Entry) (w : World) :
  cache_up (cache_update f w) = cache_up w.
Proof. destruct w as [db [[d []]|] gs]; reflexivity. Qed.

Lemma cache_data_update (f : gmap string Redis.Entry -> gmap string Redis.Entry) (w : World) :
  cache_data (cache_update f w) = if cache_up w then f (cache_data w) else cache_data w.
Proof. destruct w as [db [[d []]|] gs]; reflexivity. Qed.

Lemma DB_cache_update (f : gmap string Redis.Entry -> gmap string Redis.Entry) (w : World) :
  DB (cache_update f w) = DB w.
Proof. destruct w as [db [[d []]|] gs]; reflexivity. Qed.

Lemma goroutines_cache_update (f : gmap string Redis.Entry -> gmap string Redis.Entry)
      (w : World) :
  goroutines (cache_update f w) = goroutines w.
Proof. destruct w as [db [[d []]|] gs]; reflexivity. Qed.

Lemma DefaultCacheTTL_pos : 0 < Cache.DefaultCacheTTL.
Proof. reflexivity. Qed.

Lemma cache_get_set_eq (now now' : Time) (key : string) (v : Redis.Value) (ttl : Duration)
      (w : World) :
  cache_up w = true -> now' < now + ttl ->
  cache_get now' key (cache_set now key v ttl w) = inr v.
Proof.
  intros Hup Hlt. apply cache_get_inr. unfold cache_set.
  rewrite cache_up_update, cache_data_update, Hup. split; [reflexivity|].
  eexists. rewrite lookup_insert_eq. split; [reflexivity|]. split; [|reflexivity].
  unfold Redis.expired. simpl. apply Z.leb_gt. exact Hlt.
Qed.

Lemma cache_get_update_ne (now : Time) (key : string)
      (f : gmap string Redis.Entry -> gmap string Redis.Entry) (w : World) :
  (forall d, f d !! key = d !! key) ->
  cache_get now key (cache_update f w) = cache_get now key w.
Proof.
  intros Hf. destruct w as [db [[d []]|] gs];
    unfold cache_get, cache_update, usable, Redis.Get, Redis.live; simpl;
    try reflexivity.
  now rewrite Hf.
Qed.

Lemma cache_get_set_ne (now now' : Time) (key key' : string) (v : Redis.Value)
      (ttl : Duration) (w : World) :
  key <> key' ->
  cache_get now' key' (cache_set now key v ttl w) = cache_get now' key' w.
Proof.
  intros Hne. apply cache_get_update_ne. intros d. now apply lookup_insert_ne.
Qed.

(** *** The writes that marshal first *)

Lemma DB_cache_mapping (now : Time) (c : string) (u : URL.t) (w : World) :
  DB (cache_mapping now c u w) = DB w.
Proof.
  unfold cache_mapping, cache_set. destruct (URL.json_Marshal_ok u); [|reflexivity].
  apply DB_cache_update.
Qed.

Lemma goroutines_cache_mapping (now : Time) (c : string) (u : URL.t) (w : World) :
  goroutines (cache_mapping now c u w) = goroutines w.
Proof.
  unfold cache_mapping, cache_set. destruct (URL.json_Marshal_ok u); [|reflexivity].
  apply goroutines_cache_update.
Qed.

Lemma cache_up_mapping (now : Time) (c : string) (u : URL.t) (w : World) :
  cache_up (cache_mapping now c u w) = cache_up w.
Proof.
  unfold cache_mapping, cache_set. destruct (URL.json_Marshal_ok u); [|reflexivity].
  apply cache_up_update.
Qed.

Lemma cache_mapping_down (now : Time) (c : string) (u : URL.t) (w : World) :
  cache_up w = false -> cache_mapping now c u w = w.
Proof.
  intros H. unfold cache_mapping, cache_set. destruct (URL.json_Marshal_ok u); [|reflexivity].
  now apply cache_update_down.
Qed.


Lemma DB_cache_stats (now : Time) (c : string) (s : StatsResponse.t) (w : World) :
  DB (cache_stats now c s w) = DB w.
Proof.
  unfold cache_stats, cache_set. destruct (StatsResponse.json_Marshal_ok s); [|reflexivity].
  apply DB_cache_update.
Qed.

Lemma goroutines_cache_stats (now : Time) (c : string) (s : StatsResponse.t) (w : World) :
  goroutines (cache_stats now c s w) = goroutines w.
Proof.
  unfold cache_stats, cache_set. destruct (StatsResponse.json_Marshal_ok s); [|reflexivity].
  apply goroutines_cache_update.
Qed.

Lemma cache_up_stats (now : Time) (c : string) (s : StatsResponse.t) (w : World) :
  cache_up (cache_stats now c s w) = cache_up w.
Proof.
  unfold cache_stats, cache_set. destruct (StatsResponse.json_Marshal_ok s); [|reflexivity].
  apply cache_up_update.
Qed.

Lemma cache_stats_down (now : Time) (c : string) (s : StatsResponse.t) (w : World) :
  cache_up w = false -> cache_stats now c s w = w.
Proof.
  intros H. unfold cache_stats, cache_set.
  destruct (StatsResponse.json_Marshal_ok s); [|reflexivity].
  now apply cache_update_down.
Qed.


(** ** The durable store *)

Lemma First_inr (cond : URL.t -> bool) (db : Database.DB) (r : URL.t) :
  Database.First cond db = inr r ->
  In r (Database.rows db) /\ cond r = true /\ Database.online db = true.
Proof.
  unfold Database.First. destruct (Database.online db); simpl; [|discriminate].
  destruct (find _ (Database.rows db)) as [r'|] eqn:Hf; [|discriminate].
  intros [= <-]. apply find_some in Hf as [Hin Hc].
  apply andb_true_iff in Hc as [_ Hc]. auto.
Qed.

Lemma First_inl_online (cond : URL.t -> bool) (db : Database.DB) (e : Database.Error) :
  Database.First cond db = inl e -> Database.online db = true ->
  forall r, In r (Database.rows db) -> Database.not_deleted r = true -> cond r = false.
Proof.
  unfold Database.First. intros H Ho. rewrite Ho in H. simpl in H.
  destruct (find _ (Database.rows db)) as [r'|] eqn:Hf; [discriminate|].
  intros r Hin Hnd. pose proof (find_none _ _ Hf r Hin) as Hn. simpl in Hn.
  rewrite Hnd in Hn. exact Hn.
Qed.

Lemma where_short_code_true (code : string) (r : URL.t) :
  Database.where_short_code code r = true <-> URL.ShortCode r = code.
Proof. unfold Database.where_short_code. apply String.eqb_eq. Qed.

Lemma where_original_url_true (url : string) (r : URL.t) :
  Database.where_original_url url r = true <-> URL.OriginalURL r = url.
Proof. unfold Database.where_original_url. apply String.eqb_eq. Qed.

Lemma NoDup_map_eq {A B} (f : A -> B) (l : list A) (x y : A) :
  List.NoDup (map f l) -> In x l -> In y l -> f x = f y -> x = y.
Proof.
  induction l as [|a l IH]; simpl; intros Hnd Hx Hy Hf; [contradiction|].
  inversion Hnd as [|? ? Hnotin Hnd']; subst.
  destruct Hx as [<-|Hx], Hy as [<-|Hy]; auto.
  - exfalso. apply Hnotin. rewrite Hf. now apply in_map.
  - exfalso. apply Hnotin. rewrite <- Hf. now apply in_map.
Qed.

Lemma db_ok_not_deleted (db : Database.DB) (r : URL.t) :
  db_ok db -> In r (Database.rows db) -> Database.not_deleted r = true.
Proof.
  intros (_ & Hall & _) Hin. rewrite List.Forall_forall in Hall.
  destruct (Hall r Hin) as [Hd _]. unfold Database.not_deleted. now rewrite Hd.
Qed.

(** With the unique index, a short code selects its row. *)
Lemma First_short_code (db : Database.DB) (r : URL.t) :
  db_ok db -> Database.online db = true -> In r (Database.rows db) ->
  Database.First (Database.where_short_code (URL.ShortCode r)) db = inr r.
Proof.
  intros Hok Ho Hin.
  destruct (Database.First _ db) as [e|r'] eqn:HF.
  - pose proof (First_inl_online _ _ _ HF Ho r Hin (db_ok_not_deleted _ _ Hok Hin)) as Hc.
    assert (Ht : Database.where_short_code (URL.ShortCode r) r = true)
      by now apply where_short_code_true.
    congruence.
  - apply First_inr in HF as (Hin' & Hc & _). apply where_short_code_true in Hc.
    f_equal. destruct Hok as (Hnd & _). eapply NoDup_map_eq; eauto.
Qed.

Lemma existsb_short_code_false (code : string) (rows : list URL.t) :
  existsb (Database.where_short_code code) rows = false <->
  ~ In code (map URL.ShortCode rows).
Proof.
  rewrite <- not_true_iff_false, existsb_exists, in_map_iff. split; intros H (r & H1 & H2).
  - apply H. exists r. split; [exact H2 | now apply where_short_code_true].
  - apply H. exists r. split; [now apply where_short_code_true | exact H1].
Qed.

Lemma Create_inr (now : Time) (rec saved : URL.t) (db db' : Database.DB) :
  Database.Create now rec db = (inr saved, db') ->
  Database.online db = true
  /\ ~ In (URL.ShortCode rec) (map URL.ShortCode (Database.rows db))
  /\ saved = {| URL.ID := Database.next_id db; URL.CreatedAt := now; URL.UpdatedAt := now;
                URL.DeletedAt := None; URL.OriginalURL := URL.OriginalURL rec;
                URL.ShortCode := URL.ShortCode rec; URL.ClickCount := URL.ClickCount rec;
                URL.ExpiresAt := URL.ExpiresAt rec |}
  /\ db' = Database.with_rows db (Database.rows db ++ saved :: nil) (Database.next_id db + 1).
Proof.
  unfold Database.Create. destruct (Database.online db); simpl; [|discriminate].
  destruct (existsb _ (Database.rows db)) eqn:Hex; [discriminate|].
  intros [= <- <-]. apply existsb_short_code_false in Hex. auto.
Qed.

Lemma Create_inl (now : Time) (rec : URL.t) (e : Database.Error) (db db' : Database.DB) :
  Database.Create now rec db = (inl e, db') ->
  Database.rows db' = Database.rows db
  /\ Database.online db' = Database.online db
  /\ Database.has_sql_pool db' = Database.has_sql_pool db
  /\ Database.next_id db <= Database.next_id db'.
Proof.
  unfold Database.Create. destruct (Database.online db) eqn:Ho; simpl.
  - destruct (existsb _ (Database.rows db)); [|discriminate].
    intros [= <- <-]. simpl. repeat split; try reflexivity; try assumption; lia.
  - intros [= <- <-]. repeat split; try reflexivity; try assumption; lia.
Qed.

(** The unique index at work: a code already in the table is refused and the
    table stays as it was. *)
Lemma Create_collision (now : Time) (rec : URL.t) (db : Database.DB) :
  Database.online db = true ->
  In (URL.ShortCode rec) (map URL.ShortCode (Database.rows db)) ->
  Database.Create now rec db
  = (inl Database.ErrUniqueViolation,
     Database.with_rows db (Database.rows db) (Database.next_id db + 1)).
Proof.
  intros Ho Hin. unfold Database.Create. rewrite Ho. simpl.
  destruct (existsb _ (Database.rows db)) eqn:Hex; [reflexivity|].
  apply existsb_short_code_false in Hex. contradiction.
Qed.

Lemma NoDup_snoc {A} (l : list A) (x : A) :
  List.NoDup l -> ~ In x l -> List.NoDup (l ++ x :: nil).
Proof.
  intros Hnd Hx. induction Hnd as [|a l Ha Hnd IH]; simpl.
  - constructor; [intros [] | constructor].
  - constructor.
    + rewrite in_app_iff. simpl. intros [H|[H|[]]]; [contradiction|].
      apply Hx. left. congruence.
    + apply IH. intros H. apply Hx. now right.
Qed.

Lemma StronglySorted_snoc (l : list Z) (a : Z) :
  StronglySorted Z.lt l -> List.Forall (fun x => x < a) l ->
  StronglySorted Z.lt (l ++ a :: nil).
Proof.
  intros Hs Hall. induction Hs as [|x l Hs IH Hx]; simpl.
  - constructor; constructor.
  - inversion Hall as [|? ? Hxa Hall']; subst. constructor; [now apply IH|].
    apply List.Forall_app. split; [exact Hx | constructor; [exact Hxa | constructor]].
Qed.

Lemma db_ok_Create (now : Time) (rec : URL.t) (res : Database.Error + URL.t)
      (db db' : Database.DB) :
  db_ok db -> Database.Create now rec db = (res, db') -> db_ok db'.
Proof.
  intros (Hnd & Hall & Hpos & Hsort) HC. destruct res as [e|saved].
  - apply Create_inl in HC as (Hrows & _ & _ & Hnext). unfold db_ok. rewrite Hrows.
    split; [exact Hnd|]. split; [|split; [lia | exact Hsort]].
    eapply List.Forall_impl; [|exact Hall]. simpl. intros r [? ?].
    split; [assumption | lia].
  - apply Create_inr in HC as (_ & Hfresh & -> & ->). unfold db_ok. simpl.
    split; [|split; [|split; [lia|]]].
    + rewrite map_app. simpl. now apply NoDup_snoc.
    + apply List.Forall_app. split.
      * eapply List.Forall_impl; [|exact Hall]. simpl. intros r [? ?].
        split; [assumption | lia].
      * constructor; [|constructor]. simpl. split; [reflexivity | lia].
    + rewrite map_app. simpl. apply StronglySorted_snoc; [exact Hsort|].
      rewrite List.Forall_map. eapply List.Forall_impl; [|exact Hall].
      simpl. intros r [_ ?]. lia.
Qed.

Lemma set_click_count_mirrors (now : Time) (id v : Z) (r : URL.t) :
  mirrors (Database.set_click_count now id v r) r.
Proof.
  unfold Database.set_click_count, mirrors.
  destruct ((URL.ID r =? id) && Database.not_deleted r); simpl; repeat split.
Qed.

Lemma Update_rows (now : Time) (u : URL.t) (v : Z) (db : Database.DB) :
  let db' := snd (Database.Update_click_count now u v db) in
  Database.next_id db' = Database.next_id db
  /\ Database.online db' = Database.online db
  /\ Database.has_sql_pool db' = Database.has_sql_pool db
  /\ (Database.rows db' = Database.rows db
      \/ Database.online db = true /\ URL.ID u <> 0
         /\ Database.rows db'
            = map (Database.set_click_count now (URL.ID u) v) (Database.rows db)).
Proof.
  unfold Database.Update_click_count.
  destruct (Database.online db) eqn:Ho; simpl; [|rewrite Ho; auto].
  destruct (Z.eqb_spec (URL.ID u) 0); simpl; auto 10.
Qed.

Lemma map_mirrors_codes (f : URL.t -> URL.t) (rows : list URL.t) :
  (forall r, mirrors (f r) r) -> map URL.ShortCode (map f rows) = map URL.ShortCode rows.
Proof.
  intros Hf. rewrite map_map. apply map_ext. intros r.
  destruct (Hf r) as (_ & _ & _ & _ & Hc & _). exact Hc.
Qed.

Lemma map_mirrors_ids (f : URL.t -> URL.t) (rows : list URL.t) :
  (forall r, mirrors (f r) r) -> map URL.ID (map f rows) = map URL.ID rows.
Proof.
  intros Hf. rewrite map_map. apply map_ext. intros r.
  destruct (Hf r) as (Hid & _). exact Hid.
Qed.

Lemma db_ok_Update (now : Time) (u : URL.t) (v : Z) (db : Database.DB) :
  db_ok db -> db_ok (snd (Database.Update_click_count now u v db)).
Proof.
  intros (Hnd & Hall & Hpos & Hsort).
  destruct (Update_rows now u v db) as (Hn & _ & _ & [Hr | (_ & _ & Hr)]);
    unfold db_ok; rewrite Hn, Hr; auto.
  split; [|split; [|split; [exact Hpos|]]].
  - rewrite map_mirrors_codes; [exact Hnd | apply set_click_count_mirrors].
  - rewrite List.Forall_forall in *. intros r' Hin.
    apply in_map_iff in Hin as (r & <- & Hin).
    destruct (set_click_count_mirrors now (URL.ID u) v r) as (Hid & _ & Hd & _).
    rewrite Hid, Hd. now apply Hall.
  - rewrite map_mirrors_ids; [exact Hsort | apply set_click_count_mirrors].
Qed.

(** [First] returns the matching row with the least primary key, as the
    [ORDER BY id LIMIT 1] of gorm does. *)
Lemma First_least_id (cond : URL.t -> bool) (db : Database.DB) (r : URL.t) :
  db_ok db -> Database.First cond db = inr r ->
  forall r', In r' (Database.rows db) -> cond r' = true -> URL.ID r <= URL.ID r'.
Proof.
  intros (_ & Hall & _ & Hsort) HF r' Hin' Hc'.
  assert (Hnd' : Database.not_deleted r' = true).
  { rewrite List.Forall_forall in Hall. destruct (Hall r' Hin') as [Hd _].
    unfold Database.not_deleted. now rewrite Hd. }
  unfold Database.First in HF. destruct (Database.online db); simpl in HF; [|discriminate].
  destruct (find _ (Database.rows db)) as [r0|] eqn:Hf; [|discriminate].
  injection HF as ->. clear Hall.
  induction (Database.rows db) as [|a l IH]; simpl in *; [contradiction|].
  inversion Hsort as [|? ? Hs Hlt]; subst.
  destruct (Database.not_deleted a && cond a) eqn:Ha.
  - injection Hf as ->. destruct Hin' as [->|Hin']; [lia|].
    rewrite List.Forall_forall in Hlt.
    assert (URL.ID r < URL.ID r') by (apply Hlt; now apply in_map). lia.
  - destruct Hin' as [->|Hin']; [rewrite Hnd', Hc' in Ha; discriminate|].
    now apply IH.
Qed.

(** ** Coherence of cache and store *)

Lemma mirrors_refl (r : URL.t) : mirrors r r.
Proof. unfold mirrors. repeat split. Qed.

Lemma mirrors_sym (a b : URL.t) : mirrors a b -> mirrors b a.
Proof. unfold mirrors. intuition congruence. Qed.

Lemma mirrors_trans (a b c : URL.t) : mirrors a b -> mirrors b c -> mirrors a c.
Proof. unfold mirrors. intuition congruence. Qed.

Lemma extends_refl (rows : list URL.t) : extends rows rows.
Proof. intros r Hin. exists r. split; [exact Hin | apply mirrors_refl]. Qed.

Lemma extends_app (rows more : list URL.t) : extends rows (rows ++ more).
Proof.
  intros r Hin. exists r. split; [apply in_app_iff; now left | apply mirrors_refl].
Qed.

Lemma extends_map (f : URL.t -> URL.t) (rows : list URL.t) :
  (forall r, mirrors (f r) r) -> extends rows (map f rows).
Proof.
  intros Hf r Hin. exists (f r). split; [now apply in_map | apply mirrors_sym, Hf].
Qed.

Lemma entry_ok_extends (rows rows' : list URL.t) (key : string) (e : Redis.Entry) :
  extends rows rows' -> entry_ok rows key e -> entry_ok rows' key e.
Proof.
  intros Hext. unfold entry_ok. destruct (Redis.value e) as [u|s|code|n]; [| | |auto].
  - intros [Hk (r & Hin & Hm)]. split; [exact Hk|].
    destruct (Hext r Hin) as (r' & Hin' & Hm'). exists r'. split; [exact Hin'|].
    eapply mirrors_trans; eassumption.
  - intros [Hk (r & Hin & Hc)]. split; [exact Hk|].
    destruct (Hext r Hin) as (r' & Hin' & (_ & _ & _ & _ & Hc' & _)). exists r'.
    split; [exact Hin' | congruence].
  - intros (r & Hin & Hc & Hk).
    destruct (Hext r Hin) as (r' & Hin' & (_ & _ & _ & Hu & Hc' & _)). exists r'.
    split; [exact Hin'|]. split; congruence.
Qed.

Lemma coherent_cache_set (now : Time) (key : string) (v : Redis.Value) (ttl : Duration)
      (w : World) :
  coherent w ->
  entry_ok (Database.rows (DB w)) key
           {| Redis.value := v; Redis.expire_at := Some (now + ttl) |} ->
  coherent (cache_set now key v ttl w).
Proof.
  intros [Hdb Hc] He. unfold coherent, cache_ok, cache_set.
  rewrite DB_cache_update, cache_data_update. split; [exact Hdb|].
  destruct (cache_up w); [|exact Hc]. apply map_Forall_insert_2; assumption.
Qed.

Lemma coherent_cache_del (key : string) (w : World) :
  coherent w -> coherent (cache_del key w).
Proof.
  intros [Hdb Hc]. unfold coherent, cache_ok, cache_del.
  rewrite DB_cache_update, cache_data_update. split; [exact Hdb|].
  destruct (cache_up w); [|exact Hc]. now apply map_Forall_delete.
Qed.

Lemma coherent_with_db (w : World) (db' : Database.DB) :
  coherent w -> db_ok db' -> extends (Database.rows (DB w)) (Database.rows db') ->
  coherent (with_db w db').
Proof.
  intros [Hdb Hc] Hdb' Hext. split; [exact Hdb'|].
  unfold cache_ok in *. simpl. change (cache_data (with_db w db')) with (cache_data w).
  eapply map_Forall_impl; [exact Hc|]. intros key e. now apply entry_ok_extends.
Qed.

Lemma coherent_spawn (t : ClickTask) (w : World) : coherent w -> coherent (spawn t w).
Proof. intros H. exact H. Qed.

Lemma coherent_cache_mapping (now : Time) (c : string) (u : URL.t) (w : World) :
  coherent w -> In u (Database.rows (DB w)) -> URL.ShortCode u = c ->
  coherent (cache_mapping now c u w).
Proof.
  intros Hc Hin Hcode. unfold cache_mapping. destruct (URL.json_Marshal_ok u); [|exact Hc].
  apply coherent_cache_set; [exact Hc|]. unfold entry_ok. simpl.
  split; [now rewrite Hcode|]. exists u. split; [exact Hin | apply mirrors_refl].
Qed.

Lemma coherent_cache_stats (now : Time) (c : string) (s : StatsResponse.t) (w : World) :
  coherent w ->
  (exists r, In r (Database.rows (DB w)) /\ URL.ShortCode r = StatsResponse.ShortCode s) ->
  StatsResponse.ShortCode s = c ->
  coherent (cache_stats now c s w).
Proof.
  intros Hc Hr Hcode. unfold cache_stats.
  destruct (StatsResponse.json_Marshal_ok s); [|exact Hc].
  apply coherent_cache_set; [exact Hc|]. unfold entry_ok. simpl.
  split; [now rewrite Hcode | exact Hr].
Qed.

Lemma coherent_cache_put (now : Time) (u : URL.t) (w : World) :
  coherent w -> In u (Database.rows (DB w)) -> coherent (cache_put now u w).
Proof.
  intros Hc Hin. unfold cache_put. apply coherent_cache_set.
  - now apply coherent_cache_mapping.
  - rewrite DB_cache_mapping. unfold entry_ok. simpl. eauto.
Qed.

Lemma ShortenURL_unbound (c : Context) (err : string) (now : Time)
      (rnd : Utils.RandReader) (w : World) :
  ShouldBindJSON c = inl err ->
  ShortenURL c now rnd w = (JSON StatusBadRequest (ErrorBody err), w).
Proof. intros Hb. unfold ShortenURL. rewrite Hb. reflexivity. Qed.

(** The three ways [ShortenURL] is entered. *)
Lemma ShortenURL_cases (c : Context) (now : Time) (rnd : Utils.RandReader) (w : World) :
  (exists msg, ShortenURL c now rnd w = (JSON StatusBadRequest (ErrorBody msg), w))
  \/ (exists request,
        ShouldBindJSON c = inr request
        /\ isValidURL (ShortenRequest.URL request) = true
        /\ ShortenURL c now rnd w = ShortenURL_paths c request now rnd w).
Proof.
  destruct (ShouldBindJSON c) as [err|request] eqn:Hb.
  - left. exists err. now apply ShortenURL_unbound.
  - destruct (isValidURL (ShortenRequest.URL request)) eqn:Hv.
    + right. exists request. repeat split; [exact Hv | now apply ShortenURL_eq].
    + left. eexists. now apply ShortenURL_invalid with (request := request).
Qed.

Lemma ShortenURL_paths_coherent (c : Context) (request : ShortenRequest.t) (now : Time)
      (rnd : Utils.RandReader) (w : World) :
  coherent w -> coherent (snd (ShortenURL_paths c request now rnd w)).
Proof.
  intros Hc. unfold ShortenURL_paths.
  destruct (cached_mapping_for now _ w) as [u|]; [exact Hc|].
  destruct (Database.First _ (DB w)) as [e|existingURL] eqn:HF.
  - destruct (Utils.GenerateShortCode rnd) as [shortCode|]; [|exact Hc].
    destruct (Database.Create now _ (DB w)) as [[e'|saved] db'] eqn:HC; simpl.
    + apply coherent_with_db; [exact Hc | eapply db_ok_Create; [apply Hc | exact HC] |].
      apply Create_inl in HC as (-> & _). apply extends_refl.
    + pose proof HC as HC'. apply Create_inr in HC' as (_ & _ & _ & Hdb').
      apply coherent_cache_put.
      * apply coherent_with_db; [exact Hc | eapply db_ok_Create; [apply Hc | exact HC] |].
        rewrite Hdb'. simpl. apply extends_app.
      * rewrite Hdb'. simpl. apply in_app_iff. right. now left.
  - simpl. apply coherent_cache_put; [exact Hc|]. now apply First_inr in HF.
Qed.

Lemma ShortenURL_coherent (c : Context) (now : Time) (rnd : Utils.RandReader) (w : World) :
  coherent w -> coherent (snd (ShortenURL c now rnd w)).
Proof.
  intros Hc. destruct (ShortenURL_cases c now rnd w) as [[msg ->]|(rq & _ & _ & ->)].
  - exact Hc.
  - now apply ShortenURL_paths_coherent.
Qed.

Lemma RedirectURL_finish_coherent (code : string) (now : Time) (u : URL.t) (w : World) :
  coherent w -> coherent (snd (RedirectURL_finish code now u w)).
Proof. intros Hc. unfold RedirectURL_finish. destruct (is_expired now u); exact Hc. Qed.

Lemma RedirectURL_coherent (c : Context) (now : Time) (w : World) :
  coherent w -> coherent (snd (RedirectURL c now w)).
Proof.
  intros Hc. rewrite RedirectURL_eq. unfold RedirectURL_paths.
  assert (Hdb : coherent (snd
    match Database.First (Database.where_short_code (Param_shortCode c)) (DB w) with
    | inl _ => (JSON StatusNotFound (ErrorBody "Short URL not found"), w)
    | inr dbURL =>
        RedirectURL_finish (Param_shortCode c) now dbURL
          (cache_mapping now (Param_shortCode c) dbURL w)
    end)).
  { destruct (Database.First _ (DB w)) as [e|dbURL] eqn:HF; [exact Hc|].
    apply First_inr in HF as (Hin & Hcode & _). apply where_short_code_true in Hcode.
    now apply RedirectURL_finish_coherent, coherent_cache_mapping. }
  destruct (cache_get now _ w) as [e|[u|s|s|n]]; try exact Hdb.
  now apply RedirectURL_finish_coherent.
Qed.

Lemma GetURLStats_coherent (c : Context) (now : Time) (w : World) :
  coherent w -> coherent (snd (GetURLStats c now w)).
Proof.
  intros Hc. rewrite GetURLStats_handler_eq. unfold GetURLStats_paths.
  assert (Hdb : coherent (snd
    match Database.First (Database.where_short_code (Param_shortCode c)) (DB w) with
    | inl _ => (JSON StatusNotFound (ErrorBody "Short URL not found"), w)
    | inr urlRecord =>
        let clickCount :=
          match cache_get now (clicks_key (Param_shortCode c)) w with
          | inr (Redis.VInt n) => n
          | _ => URL.ClickCount urlRecord
          end in
        (JSON StatusOK (StatsBody (stats_of urlRecord clickCount)),
         cache_stats now (Param_shortCode c) (stats_of urlRecord clickCount) w)
    end)).
  { destruct (Database.First _ (DB w)) as [e|urlRecord] eqn:HF; [exact Hc|].
    cbv zeta. cbn [snd].
    apply First_inr in HF as (Hin & Hcode & _). apply where_short_code_true in Hcode.
    apply coherent_cache_stats; [exact Hc | | exact Hcode].
    exists urlRecord. split; [exact Hin | reflexivity]. }
  destruct (cache_get now (stats_key _) w) as [e|[u|s|s|n]]; try exact Hdb.
  exact Hc.
Qed.

Lemma cache_incr_down (now : Time) (key : string) (w : World) :
  cache_up w = false -> cache_incr now key w = w.
Proof.
  destruct w as [db [[d []]|] gs]; unfold cache_up, usable; simpl; try discriminate;
    reflexivity.
Qed.

Lemma DB_cache_incr (now : Time) (key : string) (w : World) :
  DB (cache_incr now key w) = DB w.
Proof. unfold cache_incr. destruct (RedisClient w); reflexivity. Qed.

Lemma goroutines_cache_incr (now : Time) (key : string) (w : World) :
  goroutines (cache_incr now key w) = goroutines w.
Proof. unfold cache_incr. destruct (RedisClient w); reflexivity. Qed.

Lemma Incr_online (now : Time) (key : string) (cl : Redis.Client) :
  Redis.online (snd (Redis.Incr now key cl)) = Redis.online cl.
Proof.
  unfold Redis.Incr. destruct (Redis.online cl) eqn:Ho; simpl; [|exact Ho].
  destruct (Redis.data cl !! key) as [e|]; [|exact Ho].
  destruct (Redis.expired now e); [exact Ho|].
  destruct (Redis.value e); try exact Ho.
  destruct (_ =? MaxInt64); exact Ho.
Qed.

Lemma Incr_lookup_ne (now : Time) (key key' : string) (cl : Redis.Client) :
  key <> key' ->
  Redis.data (snd (Redis.Incr now key cl)) !! key' = Redis.data cl !! key'.
Proof.
  intros Hne. unfold Redis.Incr. destruct (Redis.online cl); simpl; [|reflexivity].
  destruct (Redis.data cl !! key) as [e|]; simpl; [|now apply lookup_insert_ne].
  destruct (Redis.expired now e); simpl; [now apply lookup_insert_ne|].
  destruct (Redis.value e); try reflexivity.
  destruct (_ =? MaxInt64); simpl; [reflexivity | now apply lookup_insert_ne].
Qed.

Lemma cache_up_incr (now : Time) (key : string) (w : World) :
  cache_up (cache_incr now key w) = cache_up w.
Proof.
  destruct w as [db [cl|] gs]; [|reflexivity].
  unfold cache_up, usable, cache_incr. simpl. rewrite Incr_online.
  destruct (Redis.online cl); reflexivity.
Qed.

Lemma cache_incr_lookup_ne (now : Time) (key key' : string) (w : World) :
  key <> key' ->
  cache_data (cache_incr now key w) !! key' = cache_data w !! key'.
Proof.
  intros Hne. destruct w as [db [cl|] gs]; [|reflexivity].
  unfold cache_incr, cache_data. simpl. now apply Incr_lookup_ne.
Qed.

Lemma click_accounting_effect_DB (now : Time) (t : ClickTask) (w : World) :
  DB (click_accounting_effect now t w)
  = snd (Database.Update_click_count now (task_urlRecord t)
           (wrap64 (URL.ClickCount (task_urlRecord t) + 1)) (DB w)).
Proof.
  unfold click_accounting_effect, cache_del. cbv zeta.
  rewrite !DB_cache_update. simpl. now rewrite DB_cache_incr.
Qed.

Lemma click_accounting_effect_up (now : Time) (t : ClickTask) (w : World) :
  cache_up (click_accounting_effect now t w) = cache_up w.
Proof.
  unfold click_accounting_effect, cache_del. cbv zeta. rewrite !cache_up_update.
  change (cache_up (with_db ?w0 ?db)) with (cache_up w0). apply cache_up_incr.
Qed.

(** What the goroutine leaves in the cache: the three keys of its short code
    are gone, every other entry is as before. *)
Lemma click_accounting_effect_data (now : Time) (t : ClickTask) (w : World) (key : string) :
  cache_data (click_accounting_effect now t w) !! key
  = if cache_up w
    then if decide (key = clicks_key (task_shortCode t)
                    \/ key = stats_key (task_shortCode t)
                    \/ key = mapping_key (task_shortCode t))
         then None else cache_data w !! key
    else cache_data w !! key.
Proof.
  unfold click_accounting_effect, cache_del. cbv zeta.
  rewrite !cache_data_update, !cache_up_update.
  change (cache_up (with_db ?w0 ?db)) with (cache_up w0).
  change (cache_data (with_db ?w0 ?db)) with (cache_data w0).
  rewrite cache_up_incr. destruct (cache_up w) eqn:Hup.
  - case_decide as Hk.
    + destruct Hk as [-> | [-> | ->]].
      * apply lookup_delete_eq.
      * rewrite lookup_delete_ne by (apply not_eq_sym, stats_clicks_key).
        apply lookup_delete_eq.
      * rewrite lookup_delete_ne by (apply not_eq_sym, mapping_clicks_key).
        rewrite lookup_delete_ne by (apply not_eq_sym, mapping_stats_key).
        apply lookup_delete_eq.
    + rewrite !lookup_delete_ne by (intros Heq; apply Hk; rewrite <- Heq; auto).
      apply cache_incr_lookup_ne. intros Heq; apply Hk; rewrite <- Heq; auto.
  - now rewrite cache_incr_down.
Qed.

Lemma click_accounting_coherent (now : Time) (t : ClickTask) (w : World) :
  coherent w -> coherent (click_accounting_effect now t w).
Proof.
  intros [Hdb Hc]. split.
  - rewrite click_accounting_effect_DB. now apply db_ok_Update.
  - unfold cache_ok. rewrite click_accounting_effect_DB.
    intros key e He. rewrite click_accounting_effect_data in He.
    assert (He' : cache_data w !! key = Some e).
    { destruct (cache_up w); [|exact He]. case_decide; [discriminate | exact He]. }
    apply (entry_ok_extends (Database.rows (DB w))); [|exact (Hc key e He')].
    destruct (Update_rows now (task_urlRecord t)
                (wrap64 (URL.ClickCount (task_urlRecord t) + 1)) (DB w))
      as (_ & _ & _ & [-> | (_ & _ & ->)]).
    + apply extends_refl.
    + apply extends_map, set_click_count_mirrors.
Qed.

Lemma run_goroutines_coherent (now : Time) (w : World) :
  coherent w -> coherent (snd (run_goroutines now w)).
Proof.
  unfold run_goroutines. cbn [snd]. intros Hc.
  assert (H0 : coherent {| DB := DB w; RedisClient := RedisClient w; goroutines := nil |})
    by exact Hc.
  revert H0. generalize {| DB := DB w; RedisClient := RedisClient w; goroutines := nil |}.
  induction (goroutines w) as [|t ts IH]; intros w0 H0; simpl; [exact H0|].
  apply IH. rewrite click_accounting_eq. now apply click_accounting_coherent.
Qed.

Lemma coherent_init (redis_answers : bool) : coherent (init_world redis_answers).
Proof.
  split.
  - split; [apply List.NoDup_nil|]. split; [apply List.Forall_nil|].
    split; [reflexivity | constructor].
  - unfold cache_ok. destruct redis_answers; apply map_Forall_empty.
Qed.

Lemma step_coherent (w : World) (ev : Event) : coherent w -> coherent (step w ev).
Proof.
  intros Hc. destruct ev as [c now rnd|c now|c now|now|now|up|up]; simpl.
  - now apply ShortenURL_coherent.
  - now apply RedirectURL_coherent.
  - now apply GetURLStats_coherent.
  - rewrite HealthCheck_eq. exact Hc.
  - now apply run_goroutines_coherent.
  - exact Hc.
  - destruct Hc as [Hdb Hc]. split; [exact Hdb|].
    unfold cache_ok, cache_data, set_cache_online in *. simpl.
    destruct (RedisClient w); exact Hc.
Qed.

Lemma run_coherent (evs : list Event) (w : World) : coherent w -> coherent (run evs w).
Proof.
  revert w. induction evs as [|ev evs IH]; intros w Hc; simpl; [exact Hc|].
  apply IH. now apply step_coherent.
Qed.


(** ** Redirect: failures *)

Lemma cache_entry_set_ne (now : Time) (key key' : string) (v : Redis.Value) (ttl : Duration)
      (w : World) :
  key <> key' -> cache_entry (cache_set now key v ttl w) key' = cache_entry w key'.
Proof.
  intros Hne. unfold cache_entry, cache_set. rewrite cache_data_update.
  destruct (cache_up w); [now apply lookup_insert_ne | reflexivity].
Qed.

Lemma cache_entry_mapping_ne (now : Time) (c key : string) (u : URL.t) (w : World) :
  mapping_key c <> key -> cache_entry (cache_mapping now c u w) key = cache_entry w key.
Proof.
  intros Hne. unfold cache_mapping. destruct (URL.json_Marshal_ok u); [|reflexivity].
  now apply cache_entry_set_ne.
Qed.

Lemma cache_entry_stats_ne (now : Time) (c key : string) (st : StatsResponse.t) (w : World) :
  stats_key c <> key -> cache_entry (cache_stats now c st w) key = cache_entry w key.
Proof.
  intros Hne. unfold cache_stats. destruct (StatsResponse.json_Marshal_ok st); [|reflexivity].
  now apply cache_entry_set_ne.
Qed.

Lemma coherent_mapping_hit (now : Time) (code : string) (u : URL.t) (w : World) :
  coherent w -> cache_get now (mapping_key code) w = inr (Redis.VURL u) ->
  URL.ShortCode u = code /\ exists r, In r (Database.rows (DB w)) /\ mirrors u r.
Proof.
  intros [_ Hc] Hg. apply cache_get_inr in Hg as (_ & e & He & _ & Hv).
  pose proof (Hc _ _ He) as Hok. unfold entry_ok in Hok. rewrite Hv in Hok.
  destruct Hok as [Hk Hr]. split; [|exact Hr]. symmetry. now apply mapping_key_inj.
Qed.

(** The tagged values are sound: in a coherent world a cache function never
    reads a value written by another one. *)
Lemma coherent_no_decode_error (now : Time) (c : string) (w : World) :
  coherent w ->
  fst (Cache.GetURLMapping now c w) <> inl Redis.ErrDecode
  /\ fst (Cache.GetURLStats now c w) <> inl Redis.ErrDecode
  /\ fst (Cache.GetShortCodeForOriginalURL now c w) <> inl Redis.ErrDecode
  /\ fst (Cache.GetClickCount now c w) <> inl Redis.ErrNotInteger.
Proof.
  intros [_ Hc].
  assert (Hget : forall key v, cache_get now key w = inr v ->
            entry_ok (Database.rows (DB w)) key
                     {| Redis.value := v; Redis.expire_at := None |}).
  { intros key v Hg. apply cache_get_inr in Hg as (_ & e & He & _ & Hv).
    pose proof (Hc _ _ He) as Hok. unfold entry_ok in *. simpl. now rewrite Hv in Hok. }
  assert (Herr : forall key, cache_get now key w <> inl Redis.ErrDecode
                             /\ cache_get now key w <> inl Redis.ErrNotInteger).
  { intros key. destruct w as [db [[d []]|] gs];
      unfold cache_get, Redis.Get; simpl; try (split; discriminate).
    destruct (Redis.live now key _); split; discriminate. }
  rewrite GetURLMapping_eq, GetURLStats_eq, GetShortCodeForOriginalURL_eq, GetClickCount_eq.
  cbn [fst].
  split; [|split; [|split]];
    match goal with
    | |- context [cache_get now ?key w] =>
        destruct (Herr key) as [He1 He2];
        destruct (cache_get now key w) as [e|[u|s|s|n]] eqn:Hg;
        try discriminate; try congruence;
        apply Hget in Hg; unfold entry_ok in Hg; simpl in Hg; exfalso
    end.
  - destruct Hg as [Hk _]. revert Hk. apply mapping_stats_key.
  - destruct Hg as (r & _ & _ & Hk). revert Hk. apply mapping_original_key.
  - exact Hg.
  - destruct Hg as [Hk _]. symmetry in Hk. revert Hk. apply mapping_stats_key.
  - destruct Hg as (r & _ & _ & Hk). revert Hk. apply stats_original_key.
  - exact Hg.
  - destruct Hg as [Hk _]. symmetry in Hk. revert Hk. apply mapping_original_key.
  - destruct Hg as [Hk _]. symmetry in Hk. revert Hk. apply stats_original_key.
  - exact Hg.
  - destruct Hg as [Hk _]. symmetry in Hk. revert Hk. apply mapping_clicks_key.
  - destruct Hg as [Hk _]. symmetry in Hk. revert Hk. apply stats_clicks_key.
  - destruct Hg as (r & _ & _ & Hk). revert Hk. apply clicks_original_key.
Qed.

(** C10.  A [RedirectURL] call that does not answer with the 301 answers
    NotFound or Expired, starts no goroutine, and leaves the durable store
    (hence every [clickCount]) and every click counter of the cache as they
    were. *)
Theorem RedirectURL_failure_no_click_accounting (c : Context) (now : Time) (w : World) :
  response_code (fst (RedirectURL c now w)) <> StatusMovedPermanently ->
  (fst (RedirectURL c now w) = JSON StatusNotFound (ErrorBody "Short URL not found")
   \/ fst (RedirectURL c now w) = JSON StatusGone (ErrorBody "Short URL has expired"))
  /\ goroutines (snd (RedirectURL c now w)) = goroutines w
  /\ DB (snd (RedirectURL c now w)) = DB w
  /\ forall shortCode,
       cache_entry (snd (RedirectURL c now w)) (clicks_key shortCode)
       = cache_entry w (clicks_key shortCode).
Proof.
  rewrite RedirectURL_eq. unfold RedirectURL_paths, RedirectURL_finish.
  assert (Hdb :
    let res :=
      match Database.First (Database.where_short_code (Param_shortCode c)) (DB w) with
      | inl _ => (JSON StatusNotFound (ErrorBody "Short URL not found"), w)
      | inr dbURL =>
          if is_expired now dbURL
          then (JSON StatusGone (ErrorBody "Short URL has expired"),
                cache_mapping now (Param_shortCode c) dbURL w)
          else (Redirect StatusMovedPermanently (URL.OriginalURL dbURL),
                spawn {| task_shortCode := Param_shortCode c; task_urlRecord := dbURL |}
                  (cache_mapping now (Param_shortCode c) dbURL w))
      end in
    response_code (fst res) <> StatusMovedPermanently ->
    (fst res = JSON StatusNotFound (ErrorBody "Short URL not found")
     \/ fst res = JSON StatusGone (ErrorBody "Short URL has expired"))
    /\ goroutines (snd res) = goroutines w
    /\ DB (snd res) = DB w
    /\ forall shortCode,
         cache_entry (snd res) (clicks_key shortCode) = cache_entry w (clicks_key shortCode)).
  { cbv zeta. destruct (Database.First _ (DB w)) as [e|dbURL]; [auto|].
    destruct (is_expired now dbURL); cbn [fst snd response_code].
    - intros _. split; [now right|].
      rewrite goroutines_cache_mapping, DB_cache_mapping. repeat split.
      intros shortCode. apply cache_entry_mapping_ne, mapping_clicks_key.
    - intros H. now contradiction H. }
  destruct (cache_get now _ w) as [e|[u|s|s|n]]; try exact Hdb.
  destruct (is_expired now u); cbn [fst snd response_code].
  - auto.
  - intros H. now contradiction H.
Qed.

Lemma RedirectURL_failure_no_click_accounting_witness :
  let w := init_world true in
  let c := code_request "nosuch" in
  response_code (fst (RedirectURL c 0 w)) <> StatusMovedPermanently
  /\ goroutines (snd (RedirectURL c 0 w)) = goroutines w
  /\ DB (snd (RedirectURL c 0 w)) = DB w.
Proof.
  intros w c.
  assert (H : response_code (fst (RedirectURL c 0 w)) <> StatusMovedPermanently)
    by (vm_compute; discriminate).
  split; [exact H|].
  destruct (RedirectURL_failure_no_click_accounting c 0 w H) as (_ & Hg & Hd & _).
  split; [exact Hg | exact Hd].
Defined.

(** C4.  In a coherent world (every world the service reaches): [RedirectURL]
    on a short code that no row of the store carries answers 404 NotFound and
    changes nothing; on a short code whose row has [ExpiresAt] strictly
    before now it answers 410 Expired, a different status, provided the store
    answers. *)
Theorem RedirectURL_NotFound_and_Expired (c : Context) (now : Time) (w : World) :
  coherent w ->
  ((forall r, In r (Database.rows (DB w)) -> URL.ShortCode r <> Param_shortCode c) ->
   RedirectURL c now w = (JSON StatusNotFound (ErrorBody "Short URL not found"), w))
  /\ (forall r t,
        In r (Database.rows (DB w)) -> URL.ShortCode r = Param_shortCode c ->
        URL.ExpiresAt r = Some t -> t < now ->
        Database.online (DB w) = true ->
        fst (RedirectURL c now w) = JSON StatusGone (ErrorBody "Short URL has expired"))
  /\ StatusGone <> StatusNotFound.
Proof.
  intros Hc. rewrite RedirectURL_eq. unfold RedirectURL_paths, RedirectURL_finish.
  split; [|split; [|discriminate]].
  - intros Hnone.
    destruct (cache_get now _ w) as [e|[u|s|s|n]] eqn:Hg;
      try (destruct (Database.First _ (DB w)) as [e'|dbURL] eqn:HF; [reflexivity|];
           apply First_inr in HF as (Hin & Hcode & _);
           apply where_short_code_true in Hcode; now destruct (Hnone dbURL Hin)).
    destruct (coherent_mapping_hit _ _ _ _ Hc Hg) as (Hcode & r & Hin & Hm).
    destruct Hm as (_ & _ & _ & _ & Hsc & _). destruct (Hnone r Hin). congruence.
  - intros r t Hin Hcode Hexp Hlt Hon.
    assert (Hx : forall u, mirrors u r -> is_expired now u = true).
    { intros u (_ & _ & _ & _ & _ & He). unfold is_expired. rewrite He, Hexp.
      unfold Before. now apply Z.ltb_lt. }
    assert (HF : Database.First (Database.where_short_code (Param_shortCode c)) (DB w)
                 = inr r).
    { rewrite <- Hcode. apply First_short_code; [apply Hc | exact Hon | exact Hin]. }
    destruct (cache_get now _ w) as [e|[u|s|s|n]] eqn:Hg;
      try (rewrite HF, (Hx r (mirrors_refl r)); reflexivity).
    destruct (coherent_mapping_hit _ _ _ _ Hc Hg) as (Hcode' & r' & Hin' & Hm).
    assert (r' = r).
    { destruct Hc as [(Hnd & _) _]. eapply NoDup_map_eq; eauto.
      destruct Hm as (_ & _ & _ & _ & Hsc & _). congruence. }
    subst r'. now rewrite (Hx u Hm).
Qed.

Lemma sample_world_coherent : coherent sample_world.
Proof. apply ShortenURL_coherent, coherent_init. Qed.

Lemma sample_world_rows :
  Database.rows (DB sample_world)
  = {| URL.ID := 1; URL.CreatedAt := 0; URL.UpdatedAt := 0; URL.DeletedAt := None;
       URL.OriginalURL := "https://a.example/x"; URL.ShortCode := "ahovCJ";
       URL.ClickCount := 0; URL.ExpiresAt := Some Day |} :: nil.
Proof. vm_compute. reflexivity. Qed.

Lemma RedirectURL_NotFound_and_Expired_witness :
  RedirectURL (code_request "nosuch") (2 * Day) sample_world
  = (JSON StatusNotFound (ErrorBody "Short URL not found"), sample_world)
  /\ fst (RedirectURL (code_request "ahovCJ") (2 * Day) sample_world)
     = JSON StatusGone (ErrorBody "Short URL has expired").
Proof.
  split.
  - apply (RedirectURL_NotFound_and_Expired (code_request "nosuch") (2 * Day) sample_world
             sample_world_coherent).
    intros r Hin. rewrite sample_world_rows in Hin. destruct Hin as [<-|[]].
    simpl. discriminate.
  - eapply (proj1 (proj2 (RedirectURL_NotFound_and_Expired
             (code_request "ahovCJ") (2 * Day) sample_world sample_world_coherent)))
      with (t := Day).
    + rewrite sample_world_rows. left. reflexivity.
    + reflexivity.
    + reflexivity.
    + reflexivity.
    + reflexivity.
Defined.

(** ** Without a cache *)

Lemma cache_get_without (now : Time) (key : string) (db : Database.DB) (gs : list ClickTask) :
  cache_get now key (without_cache db gs) = inl Redis.Nil.
Proof. reflexivity. Qed.

Lemma cache_get_empty (now : Time) (key : string) (db : Database.DB) (gs : list ClickTask) :
  cache_get now key (with_empty_cache db gs) = inl Redis.Nil.
Proof.
  unfold cache_get, with_empty_cache, Redis.Get, Redis.live. simpl.
  now rewrite lookup_empty.
Qed.

Lemma DB_cache_put (now : Time) (u : URL.t) (w : World) : DB (cache_put now u w) = DB w.
Proof. unfold cache_put, cache_set. now rewrite DB_cache_update, DB_cache_mapping. Qed.

Lemma goroutines_cache_put (now : Time) (u : URL.t) (w : World) :
  goroutines (cache_put now u w) = goroutines w.
Proof.
  unfold cache_put, cache_set. now rewrite goroutines_cache_update, goroutines_cache_mapping.
Qed.

Lemma cache_up_put (now : Time) (u : URL.t) (w : World) :
  cache_up (cache_put now u w) = cache_up w.
Proof. unfold cache_put, cache_set. now rewrite cache_up_update, cache_up_mapping. Qed.

Lemma cache_put_down (now : Time) (u : URL.t) (w : World) :
  cache_up w = false -> cache_put now u w = w.
Proof.
  intros H. unfold cache_put, cache_set.
  rewrite (cache_mapping_down _ _ _ w H). now apply cache_update_down.
Qed.

Lemma ShortenURL_paths_without (c : Context) (request : ShortenRequest.t) (now : Time)
      (rnd : Utils.RandReader) (db : Database.DB) (gs : list ClickTask) :
  let r := ShortenURL_paths c request now rnd (without_cache db gs) in
  let r0 := ShortenURL_paths c request now rnd (with_empty_cache db gs) in
  fst r = fst r0 /\ DB (snd r) = DB (snd r0) /\ RedisClient (snd r) = None.
Proof.
  unfold ShortenURL_paths, cached_mapping_for.
  rewrite cache_get_without, cache_get_empty.
  change (DB (without_cache db gs)) with db. change (DB (with_empty_cache db gs)) with db.
  destruct (Database.First _ db) as [e|existingURL].
  - destruct (Utils.GenerateShortCode rnd) as [shortCode|]; [|now repeat split].
    destruct (Database.Create now _ db) as [[e'|saved] db']; cbn [fst snd].
    + now repeat split.
    + rewrite !DB_cache_put. rewrite cache_put_down by reflexivity. now repeat split.
  - cbn [fst snd]. rewrite !DB_cache_put, cache_put_down by reflexivity. now repeat split.
Qed.

Lemma RedirectURL_paths_without (code : string) (now : Time)
      (db : Database.DB) (gs : list ClickTask) :
  let r := RedirectURL_paths code now (without_cache db gs) in
  let r0 := RedirectURL_paths code now (with_empty_cache db gs) in
  fst r = fst r0 /\ DB (snd r) = DB (snd r0) /\ goroutines (snd r) = goroutines (snd r0)
  /\ RedisClient (snd r) = None.
Proof.
  unfold RedirectURL_paths, RedirectURL_finish.
  rewrite cache_get_without, cache_get_empty.
  change (DB (without_cache db gs)) with db. change (DB (with_empty_cache db gs)) with db.
  destruct (Database.First _ db) as [e|dbURL]; [now repeat split|].
  rewrite (cache_mapping_down now code dbURL (without_cache db gs)) by reflexivity.
  destruct (is_expired now dbURL); cbn [fst snd]; unfold spawn; cbn [DB goroutines];
    rewrite ?DB_cache_mapping, ?goroutines_cache_mapping; now repeat split.
Qed.

Lemma GetURLStats_paths_without (code : string) (now : Time)
      (db : Database.DB) (gs : list ClickTask) :
  let r := GetURLStats_paths code now (without_cache db gs) in
  let r0 := GetURLStats_paths code now (with_empty_cache db gs) in
  fst r = fst r0 /\ DB (snd r) = DB (snd r0) /\ RedisClient (snd r) = None.
Proof.
  unfold GetURLStats_paths.
  rewrite !cache_get_without, !cache_get_empty.
  change (DB (without_cache db gs)) with db. change (DB (with_empty_cache db gs)) with db.
  destruct (Database.First _ db) as [e|urlRecord]; [now repeat split|].
  cbv zeta. cbn [fst snd].
  rewrite (cache_stats_down now code _ (without_cache db gs)) by reflexivity.
  rewrite DB_cache_stats. now repeat split.
Qed.

(** What the handlers answer without a client: the store alone decides. *)
Lemma ShortenURL_paths_without_eq (c : Context) (request : ShortenRequest.t) (now : Time)
      (rnd : Utils.RandReader) (db : Database.DB) (gs : list ClickTask) :
  ShortenURL_paths c request now rnd (without_cache db gs)
  = match Database.First (Database.where_original_url (ShortenRequest.URL request)) db with
    | inr existingURL =>
        (JSON StatusOK (ShortenBody (shorten_response c existingURL)), without_cache db gs)
    | inl _ =>
        match Utils.GenerateShortCode rnd with
        | None => (Recovered StatusInternalServerError, without_cache db gs)
        | Some shortCode =>
            match Database.Create now (new_record now request shortCode) db with
            | (inl _, db') =>
                (JSON StatusInternalServerError (ErrorBody "Failed to create short URL"),
                 without_cache db' gs)
            | (inr saved, db') =>
                (JSON StatusCreated (ShortenBody (shorten_response c saved)),
                 without_cache db' gs)
            end
        end
    end.
Proof.
  unfold ShortenURL_paths, cached_mapping_for. rewrite cache_get_without.
  change (DB (without_cache db gs)) with db.
  destruct (Database.First _ db) as [e|existingURL].
  - destruct (Utils.GenerateShortCode rnd) as [shortCode|]; [|reflexivity].
    destruct (Database.Create now _ db) as [[e'|saved] db']; [reflexivity|].
    now rewrite cache_put_down by reflexivity.
  - now rewrite cache_put_down by reflexivity.
Qed.

Lemma RedirectURL_paths_without_eq (code : string) (now : Time)
      (db : Database.DB) (gs : list ClickTask) :
  RedirectURL_paths code now (without_cache db gs)
  = match Database.First (Database.where_short_code code) db with
    | inl _ => (JSON StatusNotFound (ErrorBody "Short URL not found"), without_cache db gs)
    | inr dbURL =>
        if is_expired now dbURL
        then (JSON StatusGone (ErrorBody "Short URL has expired"), without_cache db gs)
        else (Redirect StatusMovedPermanently (URL.OriginalURL dbURL),
              without_cache db
                (gs ++ {| task_shortCode := code; task_urlRecord := dbURL |} :: nil)%list)
    end.
Proof.
  unfold RedirectURL_paths, RedirectURL_finish. rewrite cache_get_without.
  change (DB (without_cache db gs)) with db.
  destruct (Database.First _ db) as [e|dbURL]; [reflexivity|].
  rewrite (cache_mapping_down now code dbURL (without_cache db gs)) by reflexivity.
  reflexivity.
Qed.

Lemma GetURLStats_paths_without_eq (code : string) (now : Time)
      (db : Database.DB) (gs : list ClickTask) :
  GetURLStats_paths code now (without_cache db gs)
  = match Database.First (Database.where_short_code code) db with
    | inl _ => (JSON StatusNotFound (ErrorBody "Short URL not found"), without_cache db gs)
    | inr urlRecord =>
        (JSON StatusOK (StatsBody (stats_of urlRecord (URL.ClickCount urlRecord))),
         without_cache db gs)
    end.
Proof.
  unfold GetURLStats_paths. rewrite !cache_get_without.
  change (DB (without_cache db gs)) with db.
  destruct (Database.First _ db) as [e|urlRecord]; [reflexivity|]. cbv zeta.
  now rewrite (cache_stats_down now code _ (without_cache db gs)) by reflexivity.
Qed.

(** C5.  Without a cache connection ([RedisClient] is nil) every cache read
    reports the miss [redis.Nil], every cache write, increment and
    invalidation does nothing and reports no error.  Create, Redirect (with
    its goroutine) and GetStats answer from the durable store alone: Create
    by the exact-match lookup on the URL, then the insert; Redirect and
    GetStats by the lookup on the short code, the click count being the
    row's; the goroutine writes the captured count plus one to the store.
    These answers, and the store they leave, are those given with an empty
    cache.  HealthCheck changes nothing and answers 503 "unhealthy" when the
    probe of the store fails, as with an empty cache, and otherwise 200
    "degraded" with the cache reported unhealthy (with an empty cache:
    200), which is also its answer when the cache server does not answer. *)
Theorem cache_unavailable_degrades_gracefully (db : Database.DB) (gs : list ClickTask) :
  let w := without_cache db gs in
  let w0 := with_empty_cache db gs in
  (forall now key,
     Cache.GetURLMapping now key w = (inl Redis.Nil, w)
     /\ Cache.GetURLStats now key w = (inl Redis.Nil, w)
     /\ Cache.GetShortCodeForOriginalURL now key w = (inl Redis.Nil, w)
     /\ Cache.GetClickCount now key w = (inl Redis.Nil, w))
  /\ (forall now key u s code,
        Cache.CacheURLMapping now key u w = (None, w)
        /\ Cache.CacheURLStats now key s w = (None, w)
        /\ Cache.CacheOriginalURLMapping now key code w = (None, w)
        /\ Cache.IncrementClickCount now key w = (None, w)
        /\ Cache.InvalidateCache key w = (tt, w))
  /\ (forall c now rnd,
        fst (ShortenURL c now rnd w) = fst (ShortenURL c now rnd w0)
        /\ DB (snd (ShortenURL c now rnd w)) = DB (snd (ShortenURL c now rnd w0))
        /\ RedisClient (snd (ShortenURL c now rnd w)) = None)
  /\ (forall c now,
        fst (RedirectURL c now w) = fst (RedirectURL c now w0)
        /\ DB (snd (RedirectURL c now w)) = DB (snd (RedirectURL c now w0))
        /\ goroutines (snd (RedirectURL c now w)) = goroutines (snd (RedirectURL c now w0))
        /\ RedisClient (snd (RedirectURL c now w)) = None)
  /\ (forall c now,
        fst (GetURLStats c now w) = fst (GetURLStats c now w0)
        /\ DB (snd (GetURLStats c now w)) = DB (snd (GetURLStats c now w0))
        /\ RedisClient (snd (GetURLStats c now w)) = None)
  /\ (forall now t,
        DB (snd (click_accounting now t w)) = DB (snd (click_accounting now t w0))
        /\ RedisClient (snd (click_accounting now t w)) = None)
  /\ (forall now,
        HealthCheck now w = (fst (HealthCheck now (with_silent_cache db gs)), w)
        /\ (probe_database db = true ->
            response_code (fst (HealthCheck now w)) = StatusOK
            /\ health_status (fst (HealthCheck now w)) = Some "degraded"))
  /\ (forall c now rnd request,
        ShouldBindJSON c = inr request ->
        isValidURL (ShortenRequest.URL request) = true ->
        ShortenURL c now rnd w
        = match Database.First
                  (Database.where_original_url (ShortenRequest.URL request)) db with
          | inr existingURL =>
              (JSON StatusOK (ShortenBody (shorten_response c existingURL)), w)
          | inl _ =>
              match Utils.GenerateShortCode rnd with
              | None => (Recovered StatusInternalServerError, w)
              | Some shortCode =>
                  match Database.Create now (new_record now request shortCode) db with
                  | (inl _, db') =>
                      (JSON StatusInternalServerError
                            (ErrorBody "Failed to create short URL"),
                       without_cache db' gs)
                  | (inr saved, db') =>
                      (JSON StatusCreated (ShortenBody (shorten_response c saved)),
                       without_cache db' gs)
                  end
              end
          end)
  /\ (forall c now,
        RedirectURL c now w
        = match Database.First (Database.where_short_code (Param_shortCode c)) db with
          | inl _ => (JSON StatusNotFound (ErrorBody "Short URL not found"), w)
          | inr dbURL =>
              if is_expired now dbURL
              then (JSON StatusGone (ErrorBody "Short URL has expired"), w)
              else (Redirect StatusMovedPermanently (URL.OriginalURL dbURL),
                    without_cache db
                      (gs ++ {| task_shortCode := Param_shortCode c;
                                task_urlRecord := dbURL |} :: nil)%list)
          end)
  /\ (forall c now,
        GetURLStats c now w
        = match Database.First (Database.where_short_code (Param_shortCode c)) db with
          | inl _ => (JSON StatusNotFound (ErrorBody "Short URL not found"), w)
          | inr urlRecord =>
              (JSON StatusOK (StatsBody (stats_of urlRecord (URL.ClickCount urlRecord))), w)
          end)
  /\ (forall now t,
        snd (click_accounting now t w)
        = without_cache
            (snd (Database.Update_click_count now (task_urlRecord t)
                    (wrap64 (URL.ClickCount (task_urlRecord t) + 1)) db)) gs)
  /\ (forall now,
        HealthCheck now w
        = (JSON (if probe_database db then StatusOK else StatusServiceUnavailable)
                (HealthBody {| status := if probe_database db then "degraded"
                                         else "unhealthy";
                               timestamp := now; service := "url-shortener";
                               database_healthy := probe_database db;
                               cache_healthy := false |}), w)
        /\ response_code (fst (HealthCheck now w))
           = response_code (fst (HealthCheck now w0))).
Proof.
  intros w w0.
  split; [|split; [|split; [|split; [|split; [|split; [|split; [|split; [|split;
    [|split; [|split]]]]]]]]]].
  - intros now key. repeat split.
  - intros now key u s code. repeat split.
  - intros c now rnd.
    destruct (ShortenURL_cases c now rnd w) as [[msg Hw]|(request & Hb & Hv & Hw)].
    + destruct (ShouldBindJSON c) as [err|request] eqn:Hb.
      * rewrite !(ShortenURL_unbound c err) by assumption. now repeat split.
      * destruct (isValidURL (ShortenRequest.URL request)) eqn:Hv.
        -- rewrite !(ShortenURL_eq c request) by assumption.
           apply ShortenURL_paths_without.
        -- rewrite !(ShortenURL_invalid c request) by assumption. now repeat split.
    + rewrite !(ShortenURL_eq c request) by assumption. apply ShortenURL_paths_without.
  - intros c now. rewrite !RedirectURL_eq. apply RedirectURL_paths_without.
  - intros c now. rewrite !GetURLStats_handler_eq. apply GetURLStats_paths_without.
  - intros now t. rewrite !click_accounting_eq, !click_accounting_effect_DB.
    split; reflexivity.
  - intros now. rewrite !HealthCheck_eq. cbn [fst snd].
    change (probe_database (DB w)) with (probe_database db).
    change (probe_database (DB (with_silent_cache db gs))) with (probe_database db).
    split; [reflexivity|]. intros Hp. rewrite Hp. split; reflexivity.
  - intros c now rnd request Hb Hv. rewrite (ShortenURL_eq c request) by assumption.
    apply ShortenURL_paths_without_eq.
  - intros c now. rewrite RedirectURL_eq. apply RedirectURL_paths_without_eq.
  - intros c now. rewrite GetURLStats_handler_eq. apply GetURLStats_paths_without_eq.
  - intros now t. rewrite click_accounting_eq. reflexivity.
  - intros now. rewrite !HealthCheck_eq. cbn [fst snd].
    change (probe_database (DB w)) with (probe_database db).
    change (probe_database (DB w0)) with (probe_database db).
    destruct (probe_database db); split; reflexivity.
Qed.

Lemma cache_unavailable_degrades_gracefully_witness :
  probe_database empty_db = true
  /\ response_code (fst (HealthCheck 0 (without_cache empty_db nil))) = StatusOK
  /\ health_status (fst (HealthCheck 0 (without_cache empty_db nil))) = Some "degraded".
Proof.
  split; [reflexivity|].
  destruct (cache_unavailable_degrades_gracefully empty_db nil)
    as (_ & _ & _ & _ & _ & _ & H & _).
  exact (proj2 (H 0) eq_refl).
Defined.

(** ** Create: a colliding short code *)

(** Whatever makes the insert fail, [ShortenURL] gives the same answer. *)
Lemma ShortenURL_insert_failure (c : Context) (request : ShortenRequest.t) (now : Time)
      (rnd : Utils.RandReader) (w : World) (shortCode : string)
      (e0 e : Database.Error) (db' : Database.DB) :
  ShouldBindJSON c = inr request ->
  isValidURL (ShortenRequest.URL request) = true ->
  cached_mapping_for now (ShortenRequest.URL request) w = None ->
  Database.First (Database.where_original_url (ShortenRequest.URL request)) (DB w) = inl e0 ->
  Utils.GenerateShortCode rnd = Some shortCode ->
  Database.Create now (new_record now request shortCode) (DB w) = (inl e, db') ->
  ShortenURL c now rnd w
  = (JSON StatusInternalServerError (ErrorBody "Failed to create short URL"), with_db w db').
Proof.
  intros Hb Hv Hc HF Hg HC. rewrite (ShortenURL_eq c request) by assumption.
  unfold ShortenURL_paths. now rewrite Hc, HF, Hg, HC.
Qed.

(** C6 (amended).  When Create inserts a newly generated short code that an
    existing row already carries, the unique index makes the insert fail and
    the table stays as it was; Create does not retry and answers 500 "Failed
    to create short URL".  That answer differs from the success answers and
    from the 400 of an invalid input, but it is the answer Create gives for
    every failure of the insert: the collision cannot be told from another
    store failure. *)
Theorem ShortenURL_collision (c : Context) (request : ShortenRequest.t) (now : Time)
        (rnd : Utils.RandReader) (w : World) (shortCode : string) (e0 : Database.Error) :
  ShouldBindJSON c = inr request ->
  isValidURL (ShortenRequest.URL request) = true ->
  cached_mapping_for now (ShortenRequest.URL request) w = None ->
  Database.First (Database.where_original_url (ShortenRequest.URL request)) (DB w) = inl e0 ->
  Database.online (DB w) = true ->
  Utils.GenerateShortCode rnd = Some shortCode ->
  In shortCode (map URL.ShortCode (Database.rows (DB w))) ->
  fst (Database.Create now (new_record now request shortCode) (DB w))
  = inl Database.ErrUniqueViolation
  /\ fst (ShortenURL c now rnd w)
     = JSON StatusInternalServerError (ErrorBody "Failed to create short URL")
  /\ Database.rows (DB (snd (ShortenURL c now rnd w))) = Database.rows (DB w)
  /\ cache_data (snd (ShortenURL c now rnd w)) = cache_data w
  /\ (forall c2 request2 now2 rnd2 w2 shortCode2 e2 e db2,
        ShouldBindJSON c2 = inr request2 ->
        isValidURL (ShortenRequest.URL request2) = true ->
        cached_mapping_for now2 (ShortenRequest.URL request2) w2 = None ->
        Database.First (Database.where_original_url (ShortenRequest.URL request2)) (DB w2)
        = inl e2 ->
        Utils.GenerateShortCode rnd2 = Some shortCode2 ->
        Database.Create now2 (new_record now2 request2 shortCode2) (DB w2) = (inl e, db2) ->
        fst (ShortenURL c2 now2 rnd2 w2) = fst (ShortenURL c now rnd w)).
Proof.
  intros Hb Hv Hc HF Ho Hg Hin.
  pose proof (Create_collision now (new_record now request shortCode) (DB w) Ho Hin) as HC.
  rewrite (ShortenURL_insert_failure c request now rnd w shortCode e0 _ _ Hb Hv Hc HF Hg HC).
  rewrite HC. cbn [fst snd]. repeat split.
  intros c2 request2 now2 rnd2 w2 shortCode2 e2 e db2 Hb2 Hv2 Hc2 HF2 Hg2 HC2.
  now rewrite (ShortenURL_insert_failure c2 request2 now2 rnd2 w2 shortCode2 e2 e db2).
Qed.

Lemma ShortenURL_collision_witness :
  let c := shorten_request false "sho.rt" "https://b.example/y" 0 in
  fst (ShortenURL c 5 sample_rnd sample_world)
  = JSON StatusInternalServerError (ErrorBody "Failed to create short URL")
  /\ Database.rows (DB (snd (ShortenURL c 5 sample_rnd sample_world)))
     = Database.rows (DB sample_world).
Proof.
  intros c.
  assert (H := ShortenURL_collision c
                 {| ShortenRequest.URL := "https://b.example/y";
                    ShortenRequest.ExpiresIn := 0 |}
                 5 sample_rnd sample_world "ahovCJ" Database.ErrRecordNotFound).
  destruct H as (_ & Hr & Hrows & _); try (vm_compute; reflexivity).
  - rewrite sample_world_rows. left. reflexivity.
  - split; [exact Hr | exact Hrows].
Defined.

(** The claim as stated fails: a collision and a store that does not answer
    give the caller the same response, though the store reports two
    different errors. *)
Lemma ShortenURL_collision_indistinguishable :
  let c := shorten_request false "sho.rt" "https://b.example/y" 0 in
  let request := {| ShortenRequest.URL := "https://b.example/y";
                    ShortenRequest.ExpiresIn := 0 |} in
  let down := set_store_online false sample_world in
  fst (Database.Create 5 (new_record 5 request "ahovCJ") (DB sample_world))
  = inl Database.ErrUniqueViolation
  /\ fst (Database.Create 5 (new_record 5 request "ahovCJ") (DB down))
     = inl Database.ErrConnection
  /\ fst (ShortenURL c 5 sample_rnd sample_world) = fst (ShortenURL c 5 sample_rnd down).
Proof. vm_compute. repeat split. Qed.

(** ** Create, then Redirect *)

Lemma is_expired_eq (now : Time) (u : URL.t) :
  is_expired now u = expired_at now (URL.ExpiresAt u).
Proof. reflexivity. Qed.

Lemma cached_mapping_for_Some (now : Time) (url : string) (w : World) (u : URL.t) :
  cached_mapping_for now url w = Some u ->
  exists shortCode,
    cache_get now (original_key url) w = inr (Redis.VString shortCode)
    /\ cache_get now (mapping_key shortCode) w = inr (Redis.VURL u).
Proof.
  unfold cached_mapping_for.
  destruct (cache_get now (original_key url) w) as [e|[x|x|s|x]]; try discriminate.
  destruct (cache_get now (mapping_key s) w) as [e|[x|x|x|x]] eqn:Hm; try discriminate.
  intros [= <-]. exists s. split; [reflexivity | exact Hm].
Qed.


Lemma cache_get_mapping_put (now : Time) (u : URL.t) (w : World) :
  cache_up w = true -> URL.json_Marshal_ok u = true ->
  cache_get now (mapping_key (URL.ShortCode u)) (cache_put now u w) = inr (Redis.VURL u).
Proof.
  intros Hup Hm. unfold cache_put, cache_mapping. rewrite Hm.
  rewrite cache_get_set_ne by (apply not_eq_sym, mapping_original_key).
  apply cache_get_set_eq; [exact Hup|]. pose proof DefaultCacheTTL_pos. lia.
Qed.

Lemma cache_get_original_put (now : Time) (u : URL.t) (w : World) :
  cache_up w = true ->
  cache_get now (original_key (URL.OriginalURL u)) (cache_put now u w)
  = inr (Redis.VString (URL.ShortCode u)).
Proof.
  intros Hup. unfold cache_put.
  apply cache_get_set_eq; [|pose proof DefaultCacheTTL_pos; lia].
  now rewrite cache_up_mapping.
Qed.

(** In a coherent world whose store answers, the answer to a redirect on
    the short code of a row follows from the row, cached or not. *)
Lemma RedirectURL_paths_by_row (code : string) (now : Time) (w : World) (r : URL.t) :
  coherent w -> Database.online (DB w) = true ->
  In r (Database.rows (DB w)) -> URL.ShortCode r = code ->
  fst (RedirectURL_paths code now w)
  = redirect_answer now (URL.ExpiresAt r) (URL.OriginalURL r).
Proof.
  intros Hc Ho Hin Hcode. unfold RedirectURL_paths.
  assert (Hdb : fst
    match Database.First (Database.where_short_code code) (DB w) with
    | inl _ => (JSON StatusNotFound (ErrorBody "Short URL not found"), w)
    | inr dbURL => RedirectURL_finish code now dbURL (cache_mapping now code dbURL w)
    end = redirect_answer now (URL.ExpiresAt r) (URL.OriginalURL r)).
  { rewrite <- Hcode. rewrite First_short_code by (assumption || apply Hc).
    unfold RedirectURL_finish, redirect_answer. rewrite is_expired_eq.
    destruct (expired_at now (URL.ExpiresAt r)); reflexivity. }
  destruct (cache_get now (mapping_key code) w) as [e|[u|s|s|n]] eqn:Hg; try exact Hdb.
  destruct (coherent_mapping_hit _ _ _ _ Hc Hg) as (Hu & r' & Hin' & Hm).
  assert (r' = r).
  { destruct Hc as [(Hnd & _) _]. eapply NoDup_map_eq; [exact Hnd | exact Hin' | exact Hin |].
    destruct Hm as (_ & _ & _ & _ & Hcr & _). congruence. }
  subst r'. destruct Hm as (_ & _ & _ & Hurl & _ & Hexp).
  unfold RedirectURL_finish, redirect_answer. rewrite is_expired_eq, Hexp, Hurl.
  destruct (expired_at now (URL.ExpiresAt r)); reflexivity.
Qed.




(** A mapping can be expired from the moment it is created: with
    [expires_in = 9223372036854775807] the date wraps around to one day
    before [now]; Create answers 201 with that expiry and the Redirect that
    follows answers 410. *)
Example Create_with_wrapped_expiry_then_Redirect :
  let now := 1700000000 * Second in
  exists r w1,
    ShortenURL (shorten_request false "sho.rt" "https://a.example/x" MaxInt64) now
               sample_rnd (init_world true)
    = (JSON StatusCreated (ShortenBody r), w1)
    /\ ShortenResponse.ExpiresAt r = Some (now - Day)
    /\ fst (RedirectURL (code_request (ShortenResponse.ShortCode r)) now w1)
       = JSON StatusGone (ErrorBody "Short URL has expired").
Proof.
  intros now. eexists. eexists. split; [vm_compute; reflexivity|].
  split; vm_compute; reflexivity.
Qed.

(** ** Create twice *)

Lemma find_app_none {A} (f : A -> bool) (l l' : list A) :
  find f l = None -> find f (l ++ l') = find f l'.
Proof.
  induction l as [|a l IH]; simpl; [reflexivity|].
  destruct (f a); [discriminate | exact IH].
Qed.

Lemma cached_mapping_for_ext (now now2 : Time) (url : string) (w : World) :
  (forall key, cache_get now2 key w = cache_get now key w) ->
  cached_mapping_for now2 url w = cached_mapping_for now url w.
Proof.
  intros H. unfold cached_mapping_for. rewrite H.
  destruct (cache_get now (original_key url) w) as [e|[x|x|s|x]]; try reflexivity.
  now rewrite H.
Qed.

(** The second of two calls, for a row the first call answered with. *)
Lemma ShortenURL_paths_again (c : Context) (request : ShortenRequest.t) (now now2 : Time)
      (rnd' : Utils.RandReader) (row : URL.t) (w' : World) :
  coherent (cache_put now row w') ->
  In row (Database.rows (DB w')) ->
  URL.OriginalURL row = ShortenRequest.URL request ->
  Database.First (Database.where_original_url (ShortenRequest.URL request)) (DB w')
  = inr row ->
  (forall key, cache_get now2 key (cache_put now row w')
               = cache_get now key (cache_put now row w')) ->
  let r := ShortenURL_paths c request now2 rnd' (cache_put now row w') in
  fst r = JSON StatusOK (ShortenBody (shorten_response c row))
  /\ DB (snd r) = DB w'.
Proof.
  intros Hc1 Hin Hurl HF Hext. cbv zeta. unfold ShortenURL_paths.
  rewrite (cached_mapping_for_ext now now2) by exact Hext.
  destruct (cached_mapping_for now _ (cache_put now row w')) as [u|] eqn:Hcm.
  - cbn [fst snd]. rewrite DB_cache_put. split; [|reflexivity].
    apply cached_mapping_for_Some in Hcm as (s & Ho & Hm).
    assert (Hup : cache_up w' = true).
    { apply cache_get_inr in Ho as [Hup _]. now rewrite cache_up_put in Hup. }
    rewrite <- Hurl, cache_get_original_put in Ho by exact Hup. injection Ho as <-.
    destruct (coherent_mapping_hit _ _ _ _ Hc1 Hm) as (Hs & r1 & Hin1 & Hm1).
    rewrite DB_cache_put in Hin1.
    assert (r1 = row).
    { destruct Hc1 as [(Hnd & _) _]. rewrite DB_cache_put in Hnd.
      eapply NoDup_map_eq; [exact Hnd | exact Hin1 | exact Hin |].
      destruct Hm1 as (_ & _ & _ & _ & Hsc & _). congruence. }
    subst r1. destruct Hm1 as (_ & _ & _ & Hu & _ & Hexp).
    unfold shorten_response. now rewrite Hs, Hu, Hexp.
  - rewrite DB_cache_put, HF. cbn [fst snd]. rewrite !DB_cache_put. split; reflexivity.
Qed.

(** C3.  In a coherent world (every world the service reaches), when Create
    answers with a mapping, the same Create repeated at once (no cache entry
    expires in between) answers 200 ("already exists") with the same body,
    hence the same short_code, and leaves the durable store as the first
    call left it: no second row.  This holds whether or not the cache
    answers and whether or not the mapping could be written to it. *)
Theorem Create_twice (c : Context) (now now2 : Time) (rnd rnd' : Utils.RandReader)
        (w w1 : World) (code : Z) (r : ShortenResponse.t) :
  coherent w ->
  ShortenURL c now rnd w = (JSON code (ShortenBody r), w1) ->
  (forall key, cache_get now2 key w1 = cache_get now key w1) ->
  fst (ShortenURL c now2 rnd' w1) = JSON StatusOK (ShortenBody r)
  /\ DB (snd (ShortenURL c now2 rnd' w1)) = DB w1.
Proof.
  intros Hc HS Hext.
  assert (Hc1 : coherent w1).
  { replace w1 with (snd (ShortenURL c now rnd w)) by now rewrite HS.
    now apply ShortenURL_coherent. }
  destruct (ShortenURL_cases c now rnd w) as [[msg Hw]|(request & Hb & Hv & Hw)];
    [rewrite Hw in HS; discriminate HS|].
  rewrite Hw in HS. rewrite (ShortenURL_eq c request) by assumption.
  unfold ShortenURL_paths in HS.
  destruct (cached_mapping_for now _ w) as [u|] eqn:Hcm.
  - (* the first call answered from the cache: so does the second *)
    injection HS as <- <- <-. unfold ShortenURL_paths.
    rewrite (cached_mapping_for_ext now now2) by exact Hext.
    rewrite Hcm. split; reflexivity.
  - destruct (Database.First _ (DB w)) as [e|existingURL] eqn:HF.
    + (* the first call inserted a row *)
      destruct (Utils.GenerateShortCode rnd) as [shortCode|]; [|discriminate HS].
      destruct (Database.Create now _ (DB w)) as [[e'|saved] db'] eqn:HC;
        [discriminate HS|].
      injection HS as <- <- <-.
      apply Create_inr in HC as (Ho & _ & Hsaved & ->).
      assert (Hurl : URL.OriginalURL saved = ShortenRequest.URL request)
        by (rewrite Hsaved; reflexivity).
      rewrite DB_cache_put.
      apply ShortenURL_paths_again; try assumption.
      * simpl. apply in_app_iff. right. now left.
      * unfold Database.First in *. simpl. rewrite Ho in *. simpl in *.
        destruct (find _ (Database.rows (DB w))) eqn:Hf; [discriminate HF|].
        rewrite find_app_none by exact Hf. simpl.
        replace (Database.not_deleted saved) with true by (rewrite Hsaved; reflexivity).
        replace (Database.where_original_url (ShortenRequest.URL request) saved)
          with true; [reflexivity|].
        symmetry. now apply where_original_url_true.
    + (* the first call found the row in the store *)
      injection HS as <- <- <-.
      pose proof HF as HF'. apply First_inr in HF' as (Hin & Hurl & _).
      apply where_original_url_true in Hurl.
      rewrite DB_cache_put. now apply ShortenURL_paths_again.
Qed.

Lemma Create_twice_witness :
  let c := shorten_request false "sho.rt" "https://a.example/x" 1 in
  exists r,
    fst (ShortenURL c 0 sample_rnd (init_world true)) = JSON StatusCreated (ShortenBody r)
    /\ fst (ShortenURL c 0 sample_rnd sample_world) = JSON StatusOK (ShortenBody r)
    /\ DB (snd (ShortenURL c 0 sample_rnd sample_world)) = DB sample_world.
Proof.
  intros c. eexists. split; [vm_compute; reflexivity|].
  eapply (Create_twice c 0 0 sample_rnd sample_rnd (init_world true) sample_world).
  - apply coherent_init.
  - vm_compute. reflexivity.
  - reflexivity.
Defined.

(** ** Counting redirects *)

Lemma wrap64_succ (k : Z) : 0 <= k < MaxInt64 -> wrap64 (k + 1) = k + 1.
Proof.
  unfold wrap64, MaxInt64. intros H.
  change (2 ^ 63) with 9223372036854775808 in *.
  change (2 ^ 64) with 18446744073709551616.
  rewrite Z.mod_small; lia.
Qed.

Lemma goroutines_click_accounting_effect (now : Time) (t : ClickTask) (w : World) :
  goroutines (click_accounting_effect now t w) = goroutines w.
Proof.
  unfold click_accounting_effect, cache_del. cbv zeta.
  rewrite !goroutines_cache_update. simpl. apply goroutines_cache_incr.
Qed.

Lemma run_goroutines_single (now : Time) (t : ClickTask) (w : World) :
  goroutines w = nil ->
  snd (run_goroutines now (spawn t w)) = click_accounting_effect now t w.
Proof.
  intros Hnil. unfold run_goroutines, spawn. cbn [snd goroutines DB RedisClient].
  rewrite Hnil. simpl. rewrite click_accounting_eq. f_equal.
  rewrite <- Hnil. apply world_eta.
Qed.

Lemma coherent_no_counter (now : Time) (key : string) (n : Z) (w : World) :
  coherent w -> cache_get now key w <> inr (Redis.VInt n).
Proof.
  intros [_ Hc] Hg. apply cache_get_inr in Hg as (_ & e & He & _ & Hv).
  pose proof (Hc _ _ He) as Hok. unfold entry_ok in Hok. now rewrite Hv in Hok.
Qed.

(** The row of a short code, unique in a coherent store. *)
Lemma counted_row_unique (w : World) (r1 r2 : URL.t) :
  coherent w -> In r1 (Database.rows (DB w)) -> In r2 (Database.rows (DB w)) ->
  URL.ShortCode r1 = URL.ShortCode r2 -> r1 = r2.
Proof. intros [(Hnd & _) _] H1 H2 Hc. eapply NoDup_map_eq; eauto. Qed.

Lemma Update_rows_online (now : Time) (u : URL.t) (v : Z) (db : Database.DB) :
  Database.online db = true -> URL.ID u <> 0 ->
  Database.rows (snd (Database.Update_click_count now u v db))
  = map (Database.set_click_count now (URL.ID u) v) (Database.rows db)
  /\ Database.online (snd (Database.Update_click_count now u v db)) = true.
Proof.
  intros Ho Hid. unfold Database.Update_click_count. rewrite Ho. simpl.
  destruct (Z.eqb_spec (URL.ID u) 0); [contradiction|]. simpl. auto.
Qed.

Lemma cache_data_put (now : Time) (u : URL.t) (w : World) :
  cache_data (cache_put now u w)
  = if cache_up w
    then <[original_key (URL.OriginalURL u) :=
             {| Redis.value := Redis.VString (URL.ShortCode u);
                Redis.expire_at := Some (now + Cache.DefaultCacheTTL) |}]>
         (if URL.json_Marshal_ok u
          then <[mapping_key (URL.ShortCode u) :=
                   {| Redis.value := Redis.VURL u;
                      Redis.expire_at := Some (now + Cache.DefaultCacheTTL) |}]>
               (cache_data w)
          else cache_data w)
    else cache_data w.
Proof.
  unfold cache_put, cache_mapping, cache_set.
  destruct (URL.json_Marshal_ok u);
    rewrite !cache_data_update, ?cache_up_update; destruct (cache_up w); reflexivity.
Qed.

(** Right after its creation a short code counts no click. *)
Lemma counted_created (c : Context) (now : Time) (rnd : Utils.RandReader)
      (w w1 : World) (r : ShortenResponse.t) :
  coherent w -> goroutines w = nil ->
  ShortenURL c now rnd w = (JSON StatusCreated (ShortenBody r), w1) ->
  counted (ShortenResponse.ShortCode r) (ShortenResponse.ExpiresAt r) 0 w1.
Proof.
  intros Hc Hnil HS.
  assert (Hc1 : coherent w1).
  { replace w1 with (snd (ShortenURL c now rnd w)) by now rewrite HS.
    now apply ShortenURL_coherent. }
  destruct (ShortenURL_cases c now rnd w) as [[msg Hw]|(request & Hb & Hv & Hw)];
    [rewrite Hw in HS; discriminate HS|].
  rewrite Hw in HS. unfold ShortenURL_paths in HS.
  destruct (cached_mapping_for now _ w) as [u|]; [discriminate HS|].
  destruct (Database.First _ (DB w)) as [e|existingURL]; [|discriminate HS].
  destruct (Utils.GenerateShortCode rnd) as [shortCode|]; [|discriminate HS].
  destruct (Database.Create now _ (DB w)) as [[e'|saved] db'] eqn:HC; [discriminate HS|].
  injection HS as <- <-. apply Create_inr in HC as (Ho & Hfresh & Hsaved & ->).
  cbn [ShortenResponse.ShortCode ShortenResponse.ExpiresAt shorten_response].
  unfold counted. split; [exact Hc1|].
  rewrite goroutines_cache_put, DB_cache_put, cache_up_put, cache_data_put.
  cbn [DB goroutines with_db]. split; [exact Hnil|]. split; [exact Ho|]. split.
  - exists saved. split; [simpl; apply in_app_iff; right; now left|].
    repeat split. rewrite Hsaved. reflexivity.
  - change (cache_up (with_db w ?db)) with (cache_up w).
    change (cache_data (with_db w ?db)) with (cache_data w).
    intros Hup. rewrite Hup. split.
    + intros en u He Hval.
      rewrite lookup_insert_ne in He by (apply not_eq_sym, mapping_original_key).
      destruct (URL.json_Marshal_ok saved).
      * rewrite lookup_insert_eq in He. injection He as <-. simpl in Hval.
        injection Hval as <-. rewrite Hsaved. reflexivity.
      * (* nothing was written: the cache held no mapping of the new code *)
        destruct Hc as [_ Hcache]. pose proof (Hcache _ _ He) as Hok.
        unfold entry_ok in Hok. rewrite Hval in Hok.
        destruct Hok as [Hkey (r0 & Hin0 & Hm0)].
        apply mapping_key_inj in Hkey. exfalso. apply Hfresh.
        apply in_map_iff. exists r0. split; [|exact Hin0].
        destruct Hm0 as (_ & _ & _ & _ & Hsc & _).
        rewrite <- Hsc, <- Hkey, Hsaved. reflexivity.
    + intros en s He Hval.
      rewrite lookup_insert_ne in He by (apply not_eq_sym, stats_original_key).
      assert (He' : cache_data w !! stats_key (URL.ShortCode saved) = Some en).
      { destruct (URL.json_Marshal_ok saved); [|exact He].
        now rewrite lookup_insert_ne in He by (apply mapping_stats_key). }
      clear He. rename He' into He.
      destruct Hc as [_ Hcache]. pose proof (Hcache _ _ He) as Hok.
      unfold entry_ok in Hok. rewrite Hval in Hok.
      destruct Hok as [Hkey (r0 & Hin0 & Hs0)].
      apply stats_key_inj in Hkey. exfalso. apply Hfresh.
      apply in_map_iff. exists r0. split; [|exact Hin0].
      rewrite Hs0, <- Hkey, Hsaved. reflexivity.
Qed.

(** The count of one short code [shortCode], whose mapping expires at [x],
    through a sequence of calls. *)
Section Counting.

Variable shortCode : string.
Variable x : option Time.

(** What the goroutine of a redirect does to the count. *)
Lemma counted_click_accounting (k : Z) (now : Time) (u : URL.t) (w : World)
      (row : URL.t) :
  coherent w -> goroutines w = nil -> Database.online (DB w) = true ->
  In row (Database.rows (DB w)) -> URL.ShortCode row = shortCode ->
  URL.ClickCount row = k -> URL.ExpiresAt row = x ->
  URL.ID u = URL.ID row -> URL.ClickCount u = k ->
  0 <= k < MaxInt64 ->
  counted shortCode x (k + 1)
    (click_accounting_effect now {| task_shortCode := shortCode; task_urlRecord := u |} w).
Proof.
  intros Hc Hnil Ho Hin Hcode Hk Hx Hid Hku Hrange.
  set (t := {| task_shortCode := shortCode; task_urlRecord := u |}).
  assert (Hrow : 0 < URL.ID row /\ URL.DeletedAt row = None).
  { destruct Hc as [(_ & Hall & _) _]. rewrite List.Forall_forall in Hall.
    destruct (Hall row Hin) as [Hd [Hp _]]. auto. }
  destruct Hrow as [Hidpos Hdel].
  unfold counted. split; [now apply click_accounting_coherent|].
  split; [now rewrite goroutines_click_accounting_effect|].
  rewrite click_accounting_effect_DB. cbn [task_urlRecord t].
  destruct (Update_rows_online now u (wrap64 (URL.ClickCount u + 1)) (DB w) Ho)
    as [Hrows Ho']; [lia|].
  split; [exact Ho'|]. split.
  - rewrite Hrows.
    exists (Database.set_click_count now (URL.ID u) (wrap64 (URL.ClickCount u + 1)) row).
    split; [now apply in_map|].
    unfold Database.set_click_count, Database.not_deleted.
    rewrite Hid, Z.eqb_refl, Hdel. simpl.
    repeat split; try assumption. rewrite Hku. now apply wrap64_succ.
  - intros Hup. rewrite click_accounting_effect_up in Hup.
    split; intros e v He; rewrite click_accounting_effect_data, Hup in He;
      cbn [task_shortCode t] in He;
      (case_decide as Hd; [discriminate He|]); exfalso; apply Hd; auto.
Qed.

Lemma counted_redirect (k : Z) (t t' : Time) (w : World) :
  counted shortCode x k w -> expired_at t x = false -> 0 <= k < MaxInt64 ->
  counted shortCode x (k + 1) (sequential_call shortCode w (CallRedirect t t')).
Proof.
  intros (Hc & Hnil & Ho & (row & Hin & Hcode & Hk & Hx) & Hcache) Hnx Hrange.
  unfold sequential_call. rewrite RedirectURL_eq. cbn [Param_shortCode code_request].
  unfold RedirectURL_paths.
  assert (Hdb :
    counted shortCode x (k + 1)
      (snd (run_goroutines t'
         (snd match Database.First (Database.where_short_code shortCode) (DB w) with
              | inl _ => (JSON StatusNotFound (ErrorBody "Short URL not found"), w)
              | inr dbURL =>
                  RedirectURL_finish shortCode t dbURL
                    (cache_mapping t shortCode dbURL w)
              end)))).
  { assert (HF : Database.First (Database.where_short_code shortCode) (DB w) = inr row)
      by (rewrite <- Hcode; apply First_short_code; assumption || apply Hc).
    rewrite HF. unfold RedirectURL_finish. rewrite is_expired_eq, Hx, Hnx. cbn [snd].
    rewrite run_goroutines_single by (now rewrite goroutines_cache_mapping).
    apply counted_click_accounting with (row := row); try assumption;
      rewrite ?goroutines_cache_mapping, ?DB_cache_mapping;
      try assumption; try reflexivity.
    now apply coherent_cache_mapping. }
  destruct (cache_get t (mapping_key shortCode) w) as [e|[u|s|s|n]] eqn:Hg;
    try exact Hdb.
  destruct (coherent_mapping_hit _ _ _ _ Hc Hg) as (Hs & r1 & Hin1 & Hm1).
  assert (r1 = row).
  { apply (counted_row_unique w); try assumption.
    destruct Hm1 as (_ & _ & _ & _ & Hsc & _). congruence. }
  subst r1. destruct Hm1 as (Hid & _ & _ & _ & _ & Hexp).
  apply cache_get_inr in Hg as (Hup & e & He & _ & Hv).
  destruct (Hcache Hup) as [Hmap _]. pose proof (Hmap e u He Hv) as Hku.
  unfold RedirectURL_finish. rewrite is_expired_eq, Hexp, Hx, Hnx. cbn [snd].
  rewrite run_goroutines_single by exact Hnil.
  now apply counted_click_accounting with (row := row).
Qed.

Lemma counted_stats (k : Z) (t : Time) (w : World) :
  counted shortCode x k w ->
  (exists s, fst (GetURLStats (code_request shortCode) t w) = JSON StatusOK (StatsBody s)
             /\ StatsResponse.ClickCount s = k)
  /\ counted shortCode x k (sequential_call shortCode w (CallStats t)).
Proof.
  intros Hcounted. pose proof Hcounted as Hcounted'.
  destruct Hcounted' as (Hc & Hnil & Ho & (row & Hin & Hcode & Hk & Hx) & Hcache).
  unfold sequential_call. rewrite GetURLStats_handler_eq.
  cbn [Param_shortCode code_request]. unfold GetURLStats_paths.
  assert (Hdb :
    let res :=
      match Database.First (Database.where_short_code shortCode) (DB w) with
      | inl _ => (JSON StatusNotFound (ErrorBody "Short URL not found"), w)
      | inr urlRecord =>
          let clickCount :=
            match cache_get t (clicks_key shortCode) w with
            | inr (Redis.VInt n) => n
            | _ => URL.ClickCount urlRecord
            end in
          (JSON StatusOK (StatsBody (stats_of urlRecord clickCount)),
           cache_stats t shortCode (stats_of urlRecord clickCount) w)
      end in
    (exists s, fst res = JSON StatusOK (StatsBody s) /\ StatsResponse.ClickCount s = k)
    /\ counted shortCode x k (snd res)).
  { cbv zeta.
    assert (HF : Database.First (Database.where_short_code shortCode) (DB w) = inr row)
      by (rewrite <- Hcode; apply First_short_code; assumption || apply Hc).
    rewrite HF.
    assert (Hn : match cache_get t (clicks_key shortCode) w with
                 | inr (Redis.VInt n) => n
                 | _ => URL.ClickCount row
                 end = k).
    { destruct (cache_get t (clicks_key shortCode) w) as [e|[u|s|s|n]] eqn:Hg;
        try exact Hk.
      now destruct (coherent_no_counter _ _ _ _ Hc Hg). }
    rewrite Hn. cbn [fst snd]. split; [eexists; split; reflexivity|].
    unfold cache_stats. destruct (StatsResponse.json_Marshal_ok _); [|exact Hcounted].
    unfold counted, cache_set.
    rewrite goroutines_cache_update, DB_cache_update, cache_up_update, cache_data_update.
    split.
    { apply coherent_cache_set; [exact Hc|]. unfold entry_ok. simpl.
      split; [now rewrite Hcode|]. exists row. split; [exact Hin | reflexivity]. }
    split; [exact Hnil|]. split; [exact Ho|]. split; [now exists row|].
    intros Hup. rewrite Hup. destruct (Hcache Hup) as [Hmap Hst]. split.
    - intros e u He. rewrite lookup_insert_ne in He by (apply not_eq_sym, mapping_stats_key).
      now apply Hmap.
    - intros e s He Hv. rewrite lookup_insert_eq in He. injection He as <-.
      simpl in Hv. injection Hv as <-. reflexivity. }
  destruct (cache_get t (stats_key shortCode) w) as [e|[u|s|s'|n]] eqn:Hg;
    try exact Hdb.
  cbn [fst snd]. split; [|exact Hcounted].
  exists s. split; [reflexivity|].
  apply cache_get_inr in Hg as (Hup & e & He & _ & Hv).
  destruct (Hcache Hup) as [_ Hst]. now apply (Hst e s).
Qed.

Lemma counted_calls (calls : list Call) :
  forall (k : Z) (w : World),
    counted shortCode x k w -> List.Forall (in_time x) calls ->
    0 <= k -> k + Z.of_nat (redirects_in calls) <= MaxInt64 ->
    counted shortCode x (k + Z.of_nat (redirects_in calls))
            (sequential_calls shortCode calls w).
Proof.
  induction calls as [|call calls IH]; intros k w Hcnt Hall Hk Hmax.
  - simpl. now rewrite Z.add_0_r.
  - inversion Hall as [|? ? Hcall Hrest]; subst.
    destruct call as [t t'|t].
    + change (redirects_in (CallRedirect t t' :: calls)) with (S (redirects_in calls)) in *.
      change (sequential_calls shortCode (CallRedirect t t' :: calls) w)
        with (sequential_calls shortCode calls
                (sequential_call shortCode w (CallRedirect t t'))).
      rewrite Nat2Z.inj_succ in *.
      replace (k + Z.succ (Z.of_nat (redirects_in calls)))
        with ((k + 1) + Z.of_nat (redirects_in calls)) by lia.
      apply IH; [|exact Hrest|lia|lia].
      apply (counted_redirect k t t' w); [exact Hcnt|exact Hcall|lia].
    + change (redirects_in (CallStats t :: calls)) with (redirects_in calls) in *.
      change (sequential_calls shortCode (CallStats t :: calls) w)
        with (sequential_calls shortCode calls (sequential_call shortCode w (CallStats t))).
      apply IH; try assumption.
      exact (proj2 (counted_stats k t w Hcnt)).
Qed.

End Counting.

(** C2.  Create a short code in a coherent world with no goroutine pending;
    then let any number of calls on that code follow one another, each
    redirect (made before the mapping expires) with its goroutine completing
    before the next call, statistics requests in between as one likes.  A
    GetStats that follows reports a click count equal to the number of
    redirects: the count at creation, 0, plus N.  (In such a run every
    redirect invalidates the cached statistics, so none is stale.) *)
Theorem GetStats_counts_sequential_redirects
        (c : Context) (now : Time) (rnd : Utils.RandReader) (w w1 : World)
        (r : ShortenResponse.t) (calls : list Call) (t : Time) :
  coherent w -> goroutines w = nil ->
  ShortenURL c now rnd w = (JSON StatusCreated (ShortenBody r), w1) ->
  List.Forall (in_time (ShortenResponse.ExpiresAt r)) calls ->
  Z.of_nat (redirects_in calls) <= MaxInt64 ->
  exists stats,
    fst (GetURLStats (code_request (ShortenResponse.ShortCode r)) t
           (sequential_calls (ShortenResponse.ShortCode r) calls w1))
    = JSON StatusOK (StatsBody stats)
    /\ StatsResponse.ClickCount stats = 0 + Z.of_nat (redirects_in calls).
Proof.
  intros Hc Hnil HS Hall Hmax.
  pose proof (counted_created c now rnd w w1 r Hc Hnil HS) as H0.
  pose proof (counted_calls _ _ calls 0 w1 H0 Hall (Z.le_refl 0) Hmax) as HN.
  exact (proj1 (counted_stats _ _ _ t _ HN)).
Qed.

Lemma sample_world_created :
  ShortenURL (shorten_request false "sho.rt" "https://a.example/x" 1) 0 sample_rnd
             (init_world true)
  = (JSON StatusCreated (ShortenBody sample_response), sample_world).
Proof. vm_compute. reflexivity. Qed.

Example sample_calls_stats :
  fst (GetURLStats (code_request "ahovCJ") 30 (sequential_calls "ahovCJ" sample_calls
                                                                sample_world))
  = JSON StatusOK (StatsBody
      {| StatsResponse.OriginalURL := "https://a.example/x";
         StatsResponse.ShortCode := "ahovCJ";
         StatsResponse.ClickCount := 2;
         StatsResponse.CreatedAt := 0;
         StatsResponse.ExpiresAt := Some Day |}).
Proof. vm_compute. reflexivity. Qed.

Lemma GetStats_counts_sequential_redirects_witness :
  exists stats,
    fst (GetURLStats (code_request "ahovCJ") 30
           (sequential_calls "ahovCJ" sample_calls sample_world))
    = JSON StatusOK (StatsBody stats)
    /\ StatsResponse.ClickCount stats = 0 + 2.
Proof.
  apply (GetStats_counts_sequential_redirects
           (shorten_request false "sho.rt" "https://a.example/x" 1) 0 sample_rnd
           (init_world true) sample_world sample_response sample_calls 30).
  - apply coherent_init.
  - reflexivity.
  - exact sample_world_created.
  - repeat constructor.
  - vm_compute. discriminate.
Defined.

(** * Further properties of the cache layer and the handlers *)

(** ** Round trips through the cache *)

Lemma cache_get_set_expired (now now' : Time) (key : string) (v : Redis.Value)
      (ttl : Duration) (w : World) :
  cache_up w = true -> now + ttl <= now' ->
  cache_get now' key (cache_set now key v ttl w) = inl Redis.Nil.
Proof.
  intros Hup Hle. destruct w as [db [[d []]|] gs]; try discriminate Hup.
  unfold cache_get, cache_set, cache_update, usable, Redis.Get, Redis.live. simpl.
  rewrite lookup_insert_eq. unfold Redis.expired. simpl.
  destruct (Z.leb_spec (now + ttl) now'); [reflexivity | lia].
Qed.






(** X2.  The original-URL index is keyed by [hashString] alone: after
    [CacheOriginalURLMapping] for a URL, [GetShortCodeForOriginalURL] returns
    the stored short code for every URL with the same hash (for 24 hours),
    and is unchanged for every URL with another hash. *)
Theorem original_index_keyed_by_hash (t t' : Time) (u u' code : string) (w : World) :
  cache_up w = true ->
  let w1 := snd (Cache.CacheOriginalURLMapping t u code w) in
  (Cache.hashString u' = Cache.hashString u ->
   (t' < t + Cache.DefaultCacheTTL ->
    Cache.GetShortCodeForOriginalURL t' u' w1 = (inr code, w1))
   /\ (t + Cache.DefaultCacheTTL <= t' ->
       Cache.GetShortCodeForOriginalURL t' u' w1 = (inl Redis.Nil, w1)))
  /\ (Cache.hashString u' <> Cache.hashString u ->
      fst (Cache.GetShortCodeForOriginalURL t' u' w1)
      = fst (Cache.GetShortCodeForOriginalURL t' u' w)).
Proof.
  intros Hup w1. subst w1. rewrite CacheOriginalURLMapping_eq. split.
  - intros Hh. assert (Hk : original_key u' = original_key u)
      by (unfold original_key; now rewrite Hh).
    rewrite !GetShortCodeForOriginalURL_eq, Hk. split; intros Ht.
    + now rewrite cache_get_set_eq.
    + now rewrite cache_get_set_expired.
  - intros Hh. rewrite !GetShortCodeForOriginalURL_eq. cbn [fst].
    rewrite cache_get_set_ne; [reflexivity|].
    intros Hk. apply Hh. symmetry. now apply original_key_inj.
Qed.

Lemma original_index_keyed_by_hash_witness :
  let w1 := snd (Cache.CacheOriginalURLMapping 0 "http://h/Aa" "abc123" (init_world true)) in
  Cache.GetShortCodeForOriginalURL 5 "http://h/BB" w1 = (inr "abc123", w1).
Proof.
  intros w1.
  apply (original_index_keyed_by_hash 0 5 "http://h/Aa" "http://h/BB" "abc123"
           (init_world true) eq_refl).
  - vm_compute. reflexivity.
  - reflexivity.
Defined.

(** ** The click counter *)

Lemma clicks_key_inj (a b : string) : clicks_key a = clicks_key b -> a = b.
Proof. rewrite !clicks_key_eq. apply append_inj_r. Qed.

(** X3.  [IncrementClickCount] with a usable cache: a counter that is absent
    is created at 1 and never expires; a counter at [n] goes to [n + 1]; at
    the largest [int64] the increment fails and changes nothing. *)
Theorem click_counter (t : Time) (code : string) (w : World) :
  cache_up w = true ->
  let w1 := snd (Cache.IncrementClickCount t code w) in
  (fst (Cache.GetClickCount t code w) = inl Redis.Nil ->
   fst (Cache.IncrementClickCount t code w) = None
   /\ forall t', Cache.GetClickCount t' code w1 = (inr 1, w1))
  /\ (forall n, fst (Cache.GetClickCount t code w) = inr n -> n <> MaxInt64 ->
        fst (Cache.IncrementClickCount t code w) = None
        /\ Cache.GetClickCount t code w1 = (inr (n + 1), w1))
  /\ (fst (Cache.GetClickCount t code w) = inr MaxInt64 ->
      Cache.IncrementClickCount t code w = (Some Redis.ErrOverflow, w)).
Proof.
  intros Hup w1. subst w1.
  destruct w as [db [[d []]|] gs]; try discriminate Hup. clear Hup.
  unfold Cache.IncrementClickCount, Cache.GetClickCount, Cache.with_client, set_client,
    Redis.Incr, Redis.Get, Redis.live, Redis.with_data.
  cbn [RedisClient Redis.online Redis.data negb fst snd DB goroutines].
  change (Sprintf_s Cache.ClicksKey code) with (clicks_key code).
  destruct (d !! clicks_key code) as [e|] eqn:He.
  - destruct (Redis.expired t e) eqn:Hx.
    + split; [|split; [discriminate | discriminate]].
      intros _. cbn [fst snd]. split; [reflexivity|]. intros t'.
      cbn [RedisClient Redis.online Redis.data negb fst snd].
      rewrite lookup_insert_eq. reflexivity.
    + destruct (Redis.value e) as [u|s|s|n] eqn:Hv; cbn [fst snd];
        try (split; [discriminate | split; [discriminate | discriminate]]).
      split; [discriminate|]. split.
      * intros n' [= <-] Hmax. destruct (Z.eqb_spec n MaxInt64); [contradiction|].
        cbn [fst snd RedisClient Redis.online Redis.data negb].
        split; [reflexivity|]. rewrite lookup_insert_eq.
        unfold Redis.expired in *. cbn [Redis.expire_at Redis.value]. rewrite Hx.
        reflexivity.
      * intros [= ->]. rewrite Z.eqb_refl. reflexivity.
  - split; [|split; [discriminate | discriminate]].
    intros _. cbn [fst snd]. split; [reflexivity|]. intros t'.
    cbn [RedisClient Redis.online Redis.data negb fst snd].
    rewrite lookup_insert_eq. reflexivity.
Qed.

Lemma click_counter_witness :
  let w1 := snd (Cache.IncrementClickCount 0 "abc123" (init_world true)) in
  Cache.GetClickCount (1000 * Day) "abc123" w1 = (inr 1, w1)
  /\ fst (Cache.GetClickCount 7 "abc123" (snd (Cache.IncrementClickCount 7 "abc123" w1)))
     = inr 2.
Proof.
  intros w1.
  destruct (click_counter 0 "abc123" (init_world true) eq_refl) as (H0 & _).
  destruct H0 as [_ H0]; [vm_compute; reflexivity|].
  fold w1 in H0. split; [apply H0|].
  destruct (click_counter 7 "abc123" w1 eq_refl) as (_ & H1 & _).
  destruct (H1 1) as [_ H2].
  - rewrite (H0 7). reflexivity.
  - discriminate.
  - rewrite H2. reflexivity.
Defined.

(** ** Invalidation *)

Lemma cache_get_del_eq (t : Time) (key : string) (w : World) :
  is_miss (cache_get t key (cache_del key w)) = true.
Proof.
  destruct w as [db [[d []]|] gs];
    unfold cache_get, cache_del, cache_update, usable, Redis.Get, Redis.live; simpl;
    try reflexivity.
  now rewrite lookup_delete_eq.
Qed.

Lemma cache_get_del_ne (t : Time) (key key' : string) (w : World) :
  key <> key' -> cache_get t key' (cache_del key w) = cache_get t key' w.
Proof.
  intros Hne. apply cache_get_update_ne. intros d. now apply lookup_delete_ne.
Qed.

Lemma is_miss_decode {A} (r : Redis.Error + Redis.Value)
      (decode : Redis.Value -> Redis.Error + A) :
  is_miss r = true ->
  is_miss (match r with inl e => inl e | inr v => decode v end) = true.
Proof. destruct r; [reflexivity | discriminate]. Qed.

(** X4.  After [InvalidateCache] for a short code, its mapping, its
    statistics and its click counter are misses at every time; the
    original-URL index and the entries of every other short code read as
    before; the store and the goroutines are untouched; invalidating again
    changes nothing.  This holds with or without a usable cache. *)
Theorem InvalidateCache_effect (code : string) (w : World) :
  let w1 := snd (Cache.InvalidateCache code w) in
  (forall t,
     is_miss (fst (Cache.GetURLMapping t code w1)) = true
     /\ is_miss (fst (Cache.GetURLStats t code w1)) = true
     /\ is_miss (fst (Cache.GetClickCount t code w1)) = true)
  /\ (forall t u,
        fst (Cache.GetShortCodeForOriginalURL t u w1)
        = fst (Cache.GetShortCodeForOriginalURL t u w))
  /\ (forall t code', code' <> code ->
        fst (Cache.GetURLMapping t code' w1) = fst (Cache.GetURLMapping t code' w)
        /\ fst (Cache.GetURLStats t code' w1) = fst (Cache.GetURLStats t code' w)
        /\ fst (Cache.GetClickCount t code' w1) = fst (Cache.GetClickCount t code' w))
  /\ Cache.InvalidateCache code w1 = (tt, w1)
  /\ DB w1 = DB w
  /\ goroutines w1 = goroutines w.
Proof.
  intros w1. subst w1. rewrite InvalidateCache_eq.
  split; [|split; [|split; [|split; [|split]]]].
  - intros t. rewrite GetURLMapping_eq, GetURLStats_eq, GetClickCount_eq. cbn [fst].
    repeat split.
    + rewrite !cache_get_del_ne
        by (apply not_eq_sym; first [apply mapping_clicks_key | apply mapping_stats_key]).
      pose proof (cache_get_del_eq t (mapping_key code) w) as H.
      destruct (cache_get t _ _); [reflexivity | discriminate H].
    + rewrite cache_get_del_ne by (apply not_eq_sym, stats_clicks_key).
      pose proof (cache_get_del_eq t (stats_key code) (cache_del (mapping_key code) w)) as H.
      destruct (cache_get t _ _); [reflexivity | discriminate H].
    + pose proof (cache_get_del_eq t (clicks_key code)
                    (cache_del (stats_key code) (cache_del (mapping_key code) w))) as H.
      destruct (cache_get t _ _); [reflexivity | discriminate H].
  - intros t u. rewrite !GetShortCodeForOriginalURL_eq. cbn [fst].
    rewrite !cache_get_del_ne;
      [reflexivity | apply mapping_original_key | apply stats_original_key
       | apply clicks_original_key].
  - intros t code' Hne.
    rewrite !GetURLMapping_eq, !GetURLStats_eq, !GetClickCount_eq. cbn [fst].
    assert (Hm : mapping_key code <> mapping_key code')
      by (intros H; apply Hne; symmetry; now apply mapping_key_inj).
    assert (Hs : stats_key code <> stats_key code')
      by (intros H; apply Hne; symmetry; now apply stats_key_inj).
    assert (Hc : clicks_key code <> clicks_key code')
      by (intros H; apply Hne; symmetry; now apply clicks_key_inj).
    repeat split.
    + rewrite !cache_get_del_ne;
        [reflexivity | exact Hm | apply not_eq_sym, mapping_stats_key
         | apply not_eq_sym, mapping_clicks_key].
    + rewrite !cache_get_del_ne;
        [reflexivity | apply mapping_stats_key | exact Hs
         | apply not_eq_sym, stats_clicks_key].
    + rewrite !cache_get_del_ne;
        [reflexivity | apply mapping_clicks_key | apply stats_clicks_key | exact Hc].
  - destruct w as [db [[d []]|] gs]; try reflexivity.
    unfold Cache.InvalidateCache, Cache.with_client, cache_del, cache_update, usable,
      set_client, Redis.Del, Redis.with_data. simpl. fold_keys.
    f_equal. f_equal. f_equal. f_equal.
    apply map_eq. intros i. rewrite !lookup_delete.
    repeat case_decide; try reflexivity; contradiction.
  - unfold cache_del. now rewrite !DB_cache_update.
  - unfold cache_del. now rewrite !goroutines_cache_update.
Qed.

Lemma InvalidateCache_effect_witness :
  let w1 := snd (Cache.InvalidateCache "ahovCJ" sample_world) in
  is_miss (fst (Cache.GetURLMapping 5 "ahovCJ" sample_world)) = false
  /\ is_miss (fst (Cache.GetURLMapping 5 "ahovCJ" w1)) = true
  /\ fst (Cache.GetURLMapping 5 "other1" w1) = fst (Cache.GetURLMapping 5 "other1" sample_world).
Proof.
  intros w1. split; [vm_compute; reflexivity|].
  destruct (InvalidateCache_effect "ahovCJ" sample_world) as (H1 & _ & H3 & _).
  split; [apply (H1 5) | apply (H3 5 "other1"); discriminate].
Defined.

(** ** [hashString] *)

Lemma hashString_hash32 (s : string) : Cache.hashString s = Cache.Sprintf_x (hash32 s).
Proof. reflexivity. Qed.

Lemma hash_step_range (h c : Z) : 0 <= Cache.hash_step h c < 2 ^ 32.
Proof. unfold Cache.hash_step. apply Z.mod_pos_bound. reflexivity. Qed.

Lemma fold_hash_range (l : list Z) (h : Z) :
  0 <= h < 2 ^ 32 -> 0 <= fold_left Cache.hash_step l h < 2 ^ 32.
Proof.
  revert h. induction l as [|c l IH]; intros h Hh; simpl; [exact Hh|].
  apply IH, hash_step_range.
Qed.

Lemma hash32_range (s : string) : 0 <= hash32 s < 2 ^ 32.
Proof. apply fold_hash_range. split; [lia | reflexivity]. Qed.

Lemma hex_digit_round_trip (d : Z) :
  0 <= d < 16 ->
  hex_digit_value (Cache.hex_digit d) = d /\ is_lower_hex (Cache.hex_digit d) = true.
Proof.
  intros H.
  assert (Hd : d = 0 \/ d = 1 \/ d = 2 \/ d = 3 \/ d = 4 \/ d = 5 \/ d = 6 \/ d = 7 \/
               d = 8 \/ d = 9 \/ d = 10 \/ d = 11 \/ d = 12 \/ d = 13 \/ d = 14 \/ d = 15)
    by lia.
  repeat (destruct Hd as [->|Hd]; [split; reflexivity|]). subst d. split; reflexivity.
Qed.

(** The numeral [hex_digits] puts in front of [acc]: read back, it is [n]
    shifted in after whatever was read before. *)
Lemma hex_digits_spec (fuel : nat) :
  forall (n : Z) (acc : string),
    0 <= n < 16 ^ Z.of_nat fuel -> (0 < fuel)%nat ->
    exists k : Z,
      0 < k <= Z.of_nat fuel
      /\ Z.of_nat (String.length (Cache.hex_digits fuel n acc))
         = k + Z.of_nat (String.length acc)
      /\ (forallb is_lower_hex (chars acc) = true ->
          forallb is_lower_hex (chars (Cache.hex_digits fuel n acc)) = true)
      /\ forall v,
           fold_left (fun v c => v * 16 + hex_digit_value c)
                     (chars (Cache.hex_digits fuel n acc)) v
           = fold_left (fun v c => v * 16 + hex_digit_value c) (chars acc)
                       (v * 16 ^ k + n).
Proof.
  induction fuel as [|fuel IH]; intros n acc Hn Hfuel; [lia|].
  assert (Hmod : 0 <= n mod 16 < 16) by (apply Z.mod_pos_bound; lia).
  destruct (hex_digit_round_trip _ Hmod) as [Hval Hhex].
  simpl Cache.hex_digits. destruct (Z.eqb_spec (n / 16) 0) as [Hq|Hq].
  - exists 1. split; [lia|]. split; [simpl String.length; lia|]. split.
    + intros Hacc. simpl. now rewrite Hhex.
    + intros v. simpl. rewrite Hval, Z.pow_1_r.
      pose proof (Z.div_mod n 16) as Hdm. f_equal; lia.
  - assert (Hdiv : 0 < n / 16) by (pose proof (Z.div_pos n 16); lia).
    assert (Hfuel' : (0 < fuel)%nat).
    { destruct fuel; [|lia]. simpl in Hn.
      assert (n / 16 = 0) by (apply Z.div_small; lia). lia. }
    assert (Hn' : 0 <= n / 16 < 16 ^ Z.of_nat fuel).
    { split; [lia|]. apply Z.div_lt_upper_bound; [lia|].
      rewrite Nat2Z.inj_succ, Z.pow_succ_r in Hn by lia. lia. }
    destruct (IH (n / 16) (String (Cache.hex_digit (n mod 16)) acc) Hn' Hfuel')
      as (k & Hk & Hlen & Hall & Hfold).
    exists (k + 1). split; [lia|]. split; [rewrite Hlen; simpl String.length; lia|]. split.
    + intros Hacc. apply Hall. simpl. now rewrite Hhex.
    + intros v. rewrite Hfold. simpl. rewrite Hval. f_equal.
      rewrite Z.pow_add_r, Z.pow_1_r by lia.
      pose proof (Z.div_mod n 16) as Hdm. lia.
Qed.

Lemma Sprintf_x_round_trip (n : Z) :
  0 <= n < 2 ^ 32 ->
  hex_value (Cache.Sprintf_x n) = n
  /\ (1 <= String.length (Cache.Sprintf_x n) <= 8)%nat
  /\ forallb is_lower_hex (chars (Cache.Sprintf_x n)) = true.
Proof.
  intros Hn. unfold Cache.Sprintf_x, hex_value.
  destruct (hex_digits_spec 8 n EmptyString) as (k & Hk & Hlen & Hall & Hfold);
    [exact Hn | lia |].
  change (String.length EmptyString) with 0%nat in Hlen.
  split; [rewrite Hfold; simpl; lia|]. split; [lia | now apply Hall].
Qed.

(** X5.  [hashString] returns the 32-bit hash as a hexadecimal numeral: 1 to
    8 characters, all in [[0-9a-f]], which read back give the hash.  Hence
    two URLs share a cache key exactly when their 32-bit hashes are equal. *)
Theorem hashString_format (a b : string) :
  0 <= hash32 a < 2 ^ 32
  /\ hex_value (Cache.hashString a) = hash32 a
  /\ (1 <= String.length (Cache.hashString a) <= 8)%nat
  /\ forallb is_lower_hex (chars (Cache.hashString a)) = true
  /\ (original_key a = original_key b <-> hash32 a = hash32 b).
Proof.
  pose proof (hash32_range a) as Ha. pose proof (hash32_range b) as Hb.
  destruct (Sprintf_x_round_trip _ Ha) as (Hv & Hl & Hx).
  destruct (Sprintf_x_round_trip _ Hb) as (Hvb & _).
  rewrite !hashString_hash32. repeat split; try assumption; try lia.
  - intros Hk. apply original_key_inj in Hk. rewrite !hashString_hash32 in Hk.
    rewrite <- Hv, <- Hvb. now rewrite Hk.
  - intros Hh. unfold original_key. rewrite !hashString_hash32. now rewrite Hh.
Qed.

Lemma hashString_eq_iff (a b : string) :
  Cache.hashString a = Cache.hashString b <-> hash32 a = hash32 b.
Proof.
  rewrite !hashString_hash32. split; intros H; [|now rewrite H].
  destruct (Sprintf_x_round_trip _ (hash32_range a)) as (Ha & _).
  destruct (Sprintf_x_round_trip _ (hash32_range b)) as (Hb & _).
  rewrite <- Ha, <- Hb. now rewrite H.
Qed.

Lemma runes_ascii_app (a s : string) :
  is_ascii a = true ->
  Cache.runes (String.append a s) = app (map byte_val (chars a)) (Cache.runes s).
Proof.
  induction a as [|c a IH]; intros Ha; [reflexivity|].
  unfold is_ascii in Ha. simpl in Ha. apply andb_true_iff in Ha as [Hc Ha].
  change (String.append (String c a) s) with (String c (String.append a s)).
  change (app (map byte_val (chars (String c a))) (Cache.runes s))
    with (byte_val c :: app (map byte_val (chars a)) (Cache.runes s)).
  rewrite <- (IH Ha). simpl Cache.runes. now rewrite Hc.
Qed.

(** Hashing [l] from [h] is hashing it from [0], plus [h] times [31] to the
    length of [l], modulo [2^32]. *)
Lemma fold_hash_shift (l : list Z) :
  forall h : Z, exists k : Z,
    fold_left Cache.hash_step l h
    = h * 31 ^ Z.of_nat (length l) + fold_left Cache.hash_step l 0 + k * 2 ^ 32.
Proof.
  induction l as [|c l IH]; intros h.
  - exists 0. simpl. lia.
  - destruct (IH (Cache.hash_step h c)) as [k3 H3].
    destruct (IH (Cache.hash_step 0 c)) as [k4 H4].
    simpl fold_left. rewrite H3, H4.
    change (length (c :: l)) with (S (length l)).
    rewrite Nat2Z.inj_succ, Z.pow_succ_r by lia.
    generalize (31 ^ Z.of_nat (length l)) as P.
    generalize (fold_left Cache.hash_step l 0) as X. intros X P.
    unfold Cache.hash_step.
    pose proof (Z.div_mod (h * 31 + c) (2 ^ 32)) as H1.
    pose proof (Z.div_mod (0 * 31 + c) (2 ^ 32)) as H2.
    set (q1 := (h * 31 + c) / 2 ^ 32) in *. set (q2 := (0 * 31 + c) / 2 ^ 32) in *.
    set (r1 := (h * 31 + c) mod 2 ^ 32) in *. set (r2 := (0 * 31 + c) mod 2 ^ 32) in *.
    set (M := 2 ^ 32) in *.
    assert (E1 : r1 = h * 31 + c - M * q1) by (assert (M <> 0) by (subst M; lia); lia).
    assert (E2 : r2 = c - M * q2) by (assert (M <> 0) by (subst M; lia); lia).
    exists (k3 - k4 - q1 * P + q2 * P). rewrite E1, E2. ring.
Qed.

Lemma fold_hash_collision (a b : list Z) (h : Z) :
  length a = length b ->
  fold_left Cache.hash_step a 0 = fold_left Cache.hash_step b 0 ->
  0 <= h < 2 ^ 32 ->
  fold_left Cache.hash_step a h = fold_left Cache.hash_step b h.
Proof.
  intros Hlen H0 Hh.
  destruct (fold_hash_shift a h) as [ka Ha]. destruct (fold_hash_shift b h) as [kb Hb].
  pose proof (fold_hash_range a h Hh) as Ra. pose proof (fold_hash_range b h Hh) as Rb.
  rewrite Hlen, H0 in Ha. lia.
Qed.

(** X6.  Collisions of [hashString] spread: when two ASCII strings of the
    same length have the same hash, putting them between the same ASCII
    prefix and the same suffix gives two strings with the same hash, hence
    with the same key in the index by original URL. *)
Theorem hashString_collisions_spread (p a b s : string) :
  is_ascii p = true -> is_ascii a = true -> is_ascii b = true ->
  String.length a = String.length b ->
  Cache.hashString a = Cache.hashString b ->
  original_key (String.append p (String.append a s))
  = original_key (String.append p (String.append b s)).
Proof.
  intros Hp Ha Hb Hlen Hh. apply hashString_eq_iff in Hh.
  assert (E : Cache.hashString (String.append p (String.append a s))
              = Cache.hashString (String.append p (String.append b s)));
    [|unfold original_key; now rewrite E].
  apply hashString_eq_iff. unfold hash32 in *.
  rewrite (runes_ascii_app p _ Hp), (runes_ascii_app p _ Hp).
  rewrite (runes_ascii_app a s Ha), (runes_ascii_app b s Hb).
  rewrite !fold_left_app.
  rewrite <- (append_nil_r a), <- (append_nil_r b) in Hh.
  rewrite (runes_ascii_app a EmptyString Ha), (runes_ascii_app b EmptyString Hb) in Hh.
  change (Cache.runes EmptyString) with (@nil Z) in Hh. rewrite !app_nil_r in Hh.
  apply (f_equal (fold_left Cache.hash_step (Cache.runes s))).
  apply fold_hash_collision; [| exact Hh |].
  - rewrite !length_map. unfold chars.
    rewrite <- (string_of_list_ascii_of_string a) in Hlen at 1.
    rewrite <- (string_of_list_ascii_of_string b) in Hlen at 1.
    revert Hlen. generalize (list_ascii_of_string a) (list_ascii_of_string b).
    induction l as [|x l IH]; intros [|y l']; simpl; intros H; try discriminate;
      [reflexivity | f_equal; apply IH; now injection H].
  - apply fold_hash_range. split; [lia | reflexivity].
Qed.

Lemma hashString_collisions_spread_witness :
  original_key "http://h/Aa?x=1" = original_key "http://h/BB?x=1".
Proof.
  apply (hashString_collisions_spread "http://h/" "Aa" "BB" "?x=1"); vm_compute; reflexivity.
Defined.

(** ** The code generator: draws and codes *)

Lemma get_inj_NoDup (s : string) :
  NoDup (chars s) ->
  forall (n m : nat) (c : ascii),
    String.get n s = Some c -> String.get m s = Some c -> n = m.
Proof.
  induction s as [|a s IH]; intros Hnd n m c Hn Hm; [discriminate|].
  change (chars (String a s)) with (a :: chars s) in Hnd.
  apply NoDup_cons in Hnd as [Hnotin Hnd].
  destruct n as [|n], m as [|m]; simpl in Hn, Hm.
  - reflexivity.
  - exfalso. apply Hnotin. apply list_elem_of_In. injection Hn as ->.
    eapply get_In; eassumption.
  - exfalso. apply Hnotin. apply list_elem_of_In. injection Hm as ->.
    eapply get_In; eassumption.
  - f_equal. eapply IH; eassumption.
Qed.

Lemma index_byte_charset_inj (z z' : Z) (c : ascii) :
  index_byte Utils.charset z = Some c -> index_byte Utils.charset z' = Some c -> z = z'.
Proof.
  unfold index_byte. destruct (Z.ltb_spec z 0); [discriminate|].
  destruct (Z.ltb_spec z' 0); [discriminate|]. intros Hz Hz'.
  pose proof (get_inj_NoDup _ charset_NoDup _ _ _ Hz Hz'). lia.
Qed.

Lemma fill_agree (rnd rnd' : Utils.RandReader) (n : nat) :
  forall (i : nat) (code code' : string),
    Utils.fill rnd i n = Some code -> Utils.fill rnd' i n = Some code' ->
    (code = code' <-> forall j : nat, (i <= j < i + n)%nat -> rnd j = rnd' j).
Proof.
  induction n as [|n IH]; intros i code code' H H'; simpl in H, H'.
  - injection H as <-. injection H' as <-. split; [intros _ j Hj; lia | reflexivity].
  - destruct (index_byte Utils.charset (rnd i)) as [c|] eqn:Hc; [|discriminate].
    destruct (Utils.fill rnd (S i) n) as [rest|] eqn:Hr; [|discriminate].
    destruct (index_byte Utils.charset (rnd' i)) as [c'|] eqn:Hc'; [|discriminate].
    destruct (Utils.fill rnd' (S i) n) as [rest'|] eqn:Hr'; [|discriminate].
    injection H as <-. injection H' as <-.
    pose proof (IH (S i) rest rest' Hr Hr') as [IH1 IH2]. split.
    + intros [= -> ->] j Hj. destruct (Nat.eq_dec j i) as [->|Hne].
      * eapply index_byte_charset_inj; eassumption.
      * apply IH1; [reflexivity | lia].
    + intros Hall. rewrite (Hall i) in Hc by lia.
      assert (c = c') by congruence. subst c'. f_equal.
      apply IH2. intros j Hj. apply Hall. lia.
Qed.

Lemma IndexByte_spec (s : string) (c : ascii) :
  In c (chars s) ->
  0 <= IndexByte s c < Z.of_nat (String.length s)
  /\ index_byte s (IndexByte s c) = Some c.
Proof.
  unfold index_byte. induction s as [|a s IH]; intros Hin; [destruct Hin|].
  simpl IndexByte. destruct (Ascii.eqb_spec a c) as [->|Hne].
  - split; [simpl String.length; lia | reflexivity].
  - destruct Hin as [Heq|Hin]; [contradiction|].
    destruct (IH Hin) as [Hr Hg]. destruct (Z.ltb_spec (IndexByte s c) 0); [lia|].
    split; [simpl String.length; lia|].
    destruct (Z.ltb_spec (IndexByte s c + 1) 0); [lia|].
    replace (Z.to_nat (IndexByte s c + 1)) with (S (Z.to_nat (IndexByte s c))) by lia.
    exact Hg.
Qed.

Lemma fill_draws_of (code : string) (n : nat) :
  forall (i : nat) (rest : string),
    String.length rest = n ->
    forallb is_alnum (chars rest) = true ->
    (forall j : nat, (j < n)%nat -> String.get (i + j) code = String.get j rest) ->
    Utils.fill (draws_of code) i n = Some rest.
Proof.
  induction n as [|n IH]; intros i rest Hlen Hall Hget.
  - destruct rest; [reflexivity | discriminate].
  - destruct rest as [|c rest]; [discriminate|].
    change (chars (String c rest)) with (c :: chars rest) in Hall.
    simpl in Hall. apply andb_true_iff in Hall as [Hc Hall].
    simpl Utils.fill. unfold draws_of at 1.
    pose proof (Hget 0%nat ltac:(lia)) as H0. rewrite Nat.add_0_r in H0.
    rewrite H0. simpl String.get.
    destruct (IndexByte_spec Utils.charset c) as [_ ->]; [now apply charset_is_alphabet|].
    rewrite (IH (S i) rest); [reflexivity | now injection Hlen | exact Hall |].
    intros j Hj. replace (S i + j)%nat with (i + S j)%nat by lia.
    rewrite (Hget (S j)) by lia. reflexivity.
Qed.

Lemma draws_of_contract (code : string) :
  forallb is_alnum (chars code) = true -> Utils.rand_contract (draws_of code).
Proof.
  intros Hall i _. unfold draws_of.
  destruct (String.get i code) as [c|] eqn:Hg; [|unfold Utils.charsetLength; simpl; lia].
  apply IndexByte_spec. apply charset_is_alphabet.
  apply get_In in Hg. rewrite forallb_forall in Hall. now apply Hall.
Qed.

(** X7.  For random sources that keep the promise of [rand.Int], two calls
    of [GenerateShortCode] return the same code exactly when their six draws
    are the same; and every string of six characters of [[A-Za-z0-9]] is the
    code of some such source. *)
Theorem GenerateShortCode_draws :
  (forall rnd rnd' : Utils.RandReader,
     Utils.rand_contract rnd -> Utils.rand_contract rnd' ->
     (Utils.GenerateShortCode rnd = Utils.GenerateShortCode rnd'
      <-> forall i : nat, (i < Utils.shortCodeLength)%nat -> rnd i = rnd' i))
  /\ (forall code : string,
        String.length code = Utils.shortCodeLength ->
        forallb is_alnum (chars code) = true ->
        Utils.rand_contract (draws_of code)
        /\ Utils.GenerateShortCode (draws_of code) = Some code).
Proof.
  split.
  - intros rnd rnd' H H'. unfold Utils.GenerateShortCode.
    destruct (fill_total rnd Utils.shortCodeLength 0) as [code Hc];
      [intros j Hj; apply H; lia|].
    destruct (fill_total rnd' Utils.shortCodeLength 0) as [code' Hc'];
      [intros j Hj; apply H'; lia|].
    rewrite Hc, Hc'. pose proof (fill_agree _ _ _ _ _ _ Hc Hc') as [H1 H2]. split.
    + intros [= ->] i Hi. apply H1; [reflexivity | lia].
    + intros Hall. f_equal. apply H2. intros j Hj. apply Hall. lia.
  - intros code Hlen Hall. split; [now apply draws_of_contract|].
    apply fill_draws_of; [exact Hlen | exact Hall | reflexivity].
Qed.

Lemma GenerateShortCode_draws_witness :
  Utils.rand_contract (draws_of "Zx9aB0")
  /\ Utils.GenerateShortCode (draws_of "Zx9aB0") = Some "Zx9aB0"
  /\ (Utils.GenerateShortCode (draws_of "Zx9aB0") = Utils.GenerateShortCode (draws_of "ahovCJ")
      <-> forall i : nat, (i < Utils.shortCodeLength)%nat ->
                          draws_of "Zx9aB0" i = draws_of "ahovCJ" i).
Proof.
  destruct GenerateShortCode_draws as [H1 H2].
  destruct (H2 "Zx9aB0" eq_refl eq_refl) as [Hc Hg].
  destruct (H2 "ahovCJ" eq_refl eq_refl) as [Hc' _].
  split; [exact Hc|]. split; [exact Hg|]. exact (H1 _ _ Hc Hc').
Defined.

(** ** A cache server that stopped answering *)

Lemma cache_set_down (now : Time) (key : string) (v : Redis.Value) (ttl : Duration)
      (w : World) :
  cache_up w = false -> cache_set now key v ttl w = w.
Proof. apply cache_update_down. Qed.

Lemma cache_del_down (key : string) (w : World) : cache_up w = false -> cache_del key w = w.
Proof. apply cache_update_down. Qed.

Lemma cached_mapping_for_down (now : Time) (url : string) (w : World) :
  cache_up w = false -> cached_mapping_for now url w = None.
Proof.
  intros H. unfold cached_mapping_for.
  destruct (cache_get_down now (original_key url) w H) as [e ->]. reflexivity.
Qed.

Lemma ShortenURL_paths_down (c : Context) (request : ShortenRequest.t) (now : Time)
      (rnd : Utils.RandReader) (w : World) :
  cache_up w = false ->
  let r := ShortenURL_paths c request now rnd w in
  agree_up_to_cache r (ShortenURL_paths c request now rnd
                         (without_cache (DB w) (goroutines w)))
  /\ RedisClient (snd r) = RedisClient w.
Proof.
  intros H. unfold ShortenURL_paths, agree_up_to_cache.
  rewrite !cached_mapping_for_down by (exact H || reflexivity).
  change (DB (without_cache (DB w) (goroutines w))) with (DB w).
  destruct (Database.First _ (DB w)) as [e|existingURL].
  - destruct (Utils.GenerateShortCode rnd) as [shortCode|]; [|now repeat split].
    destruct (Database.Create now _ (DB w)) as [[e'|saved] db']; cbn [fst snd].
    + now repeat split.
    + rewrite !cache_put_down by (exact H || reflexivity). now repeat split.
  - cbn [fst snd]. rewrite !cache_put_down by (exact H || reflexivity). now repeat split.
Qed.

Lemma RedirectURL_paths_down (code : string) (now : Time) (w : World) :
  cache_up w = false ->
  let r := RedirectURL_paths code now w in
  agree_up_to_cache r (RedirectURL_paths code now (without_cache (DB w) (goroutines w)))
  /\ RedisClient (snd r) = RedisClient w.
Proof.
  intros H. unfold RedirectURL_paths, RedirectURL_finish, agree_up_to_cache.
  destruct (cache_get_down now (mapping_key code) w H) as [e ->].
  rewrite cache_get_without.
  change (DB (without_cache (DB w) (goroutines w))) with (DB w).
  destruct (Database.First _ (DB w)) as [e'|dbURL]; [now repeat split|].
  rewrite cache_mapping_down by exact H. rewrite cache_mapping_down by reflexivity.
  destruct (is_expired now dbURL); now repeat split.
Qed.

Lemma GetURLStats_paths_down (code : string) (now : Time) (w : World) :
  cache_up w = false ->
  let r := GetURLStats_paths code now w in
  agree_up_to_cache r (GetURLStats_paths code now (without_cache (DB w) (goroutines w)))
  /\ RedisClient (snd r) = RedisClient w.
Proof.
  intros H. unfold GetURLStats_paths, agree_up_to_cache.
  destruct (cache_get_down now (stats_key code) w H) as [e ->].
  destruct (cache_get_down now (clicks_key code) w H) as [e2 ->].
  rewrite !cache_get_without.
  change (DB (without_cache (DB w) (goroutines w))) with (DB w).
  destruct (Database.First _ (DB w)) as [e'|urlRecord]; [now repeat split|].
  cbv zeta. rewrite cache_stats_down by exact H. rewrite cache_stats_down by reflexivity.
  now repeat split.
Qed.

Lemma click_accounting_effect_down (now : Time) (t : ClickTask) (w : World) :
  cache_up w = false ->
  click_accounting_effect now t w
  = with_db w (snd (Database.Update_click_count now (task_urlRecord t)
                      (wrap64 (URL.ClickCount (task_urlRecord t) + 1)) (DB w))).
Proof.
  intros H. unfold click_accounting_effect. cbv zeta.
  rewrite (cache_incr_down _ _ w H).
  set (w2 := with_db w _).
  assert (H2 : cache_up w2 = false) by exact H.
  now rewrite (cache_del_down _ w2 H2), (cache_del_down _ w2 H2), (cache_del_down _ w2 H2).
Qed.

(** X8.  When the cache server does not answer (or there is no client), the
    reads of the cache layer report a miss, its writes, the increment and the
    invalidation change nothing, and every handler and the goroutine of
    [RedirectURL] give the answer, the durable store and the goroutines they
    give without a client, leaving the client and what it holds as they
    were. *)
Theorem unreachable_cache_is_no_cache (w : World) :
  cache_up w = false ->
  let w0 := without_cache (DB w) (goroutines w) in
  (forall now key,
     is_miss (fst (Cache.GetURLMapping now key w)) = true
     /\ is_miss (fst (Cache.GetURLStats now key w)) = true
     /\ is_miss (fst (Cache.GetShortCodeForOriginalURL now key w)) = true
     /\ is_miss (fst (Cache.GetClickCount now key w)) = true)
  /\ (forall now key u s code,
        snd (Cache.CacheURLMapping now key u w) = w
        /\ snd (Cache.CacheURLStats now key s w) = w
        /\ snd (Cache.CacheOriginalURLMapping now key code w) = w
        /\ snd (Cache.IncrementClickCount now key w) = w
        /\ snd (Cache.InvalidateCache key w) = w)
  /\ (forall c now rnd,
        agree_up_to_cache (ShortenURL c now rnd w) (ShortenURL c now rnd w0)
        /\ RedisClient (snd (ShortenURL c now rnd w)) = RedisClient w)
  /\ (forall c now,
        agree_up_to_cache (RedirectURL c now w) (RedirectURL c now w0)
        /\ RedisClient (snd (RedirectURL c now w)) = RedisClient w)
  /\ (forall c now,
        agree_up_to_cache (GetURLStats c now w) (GetURLStats c now w0)
        /\ RedisClient (snd (GetURLStats c now w)) = RedisClient w)
  /\ (forall now t,
        agree_up_to_cache (click_accounting now t w) (click_accounting now t w0)
        /\ RedisClient (snd (click_accounting now t w)) = RedisClient w).
Proof.
  intros H w0. split; [|split; [|split; [|split; [|split]]]].
  - intros now key.
    rewrite GetURLMapping_eq, GetURLStats_eq, GetShortCodeForOriginalURL_eq,
      GetClickCount_eq. cbn [fst].
    destruct (cache_get_down now (mapping_key key) w H) as [e1 ->].
    destruct (cache_get_down now (stats_key key) w H) as [e2 ->].
    destruct (cache_get_down now (original_key key) w H) as [e3 ->].
    destruct (cache_get_down now (clicks_key key) w H) as [e4 ->].
    repeat split.
  - intros now key u s code.
    rewrite CacheURLMapping_eq, CacheURLStats_eq, CacheOriginalURLMapping_eq,
      IncrementClickCount_eq, InvalidateCache_eq.
    rewrite cache_mapping_down, cache_stats_down, cache_set_down by exact H.
    rewrite (cache_incr_down _ _ w H).
    rewrite !(cache_del_down _ w H). repeat split.
  - intros c now rnd.
    destruct (ShouldBindJSON c) as [err|request] eqn:Hb.
    + rewrite !(ShortenURL_unbound c err) by assumption. now repeat split.
    + destruct (isValidURL (ShortenRequest.URL request)) eqn:Hv.
      * rewrite !(ShortenURL_eq c request) by assumption.
        now apply ShortenURL_paths_down.
      * rewrite !(ShortenURL_invalid c request) by assumption. now repeat split.
  - intros c now. rewrite !RedirectURL_eq. now apply RedirectURL_paths_down.
  - intros c now. rewrite !GetURLStats_handler_eq. now apply GetURLStats_paths_down.
  - intros now t. unfold agree_up_to_cache.
    assert (Hu : forall w1 : World, click_accounting now t w1
                   = (tt, snd (click_accounting now t w1)))
      by (intros w1; destruct (click_accounting now t w1) as [[] w2]; reflexivity).
    rewrite (Hu w), (Hu w0). cbn [fst snd]. rewrite !click_accounting_eq.
    rewrite (click_accounting_effect_down _ _ w H).
    rewrite (click_accounting_effect_down _ _ w0 eq_refl). now repeat split.
Qed.

Lemma unreachable_cache_is_no_cache_witness :
  let w := set_cache_online false sample_world in
  cache_up w = false
  /\ agree_up_to_cache (RedirectURL (code_request "ahovCJ") 5 w)
       (RedirectURL (code_request "ahovCJ") 5 (without_cache (DB w) (goroutines w)))
  /\ RedisClient (snd (RedirectURL (code_request "ahovCJ") 5 w)) = RedisClient w.
Proof.
  intros w. split; [reflexivity|].
  destruct (unreachable_cache_is_no_cache w eq_refl) as (_ & _ & _ & H & _).
  exact (H (code_request "ahovCJ") 5).
Defined.

(** ** What [ShortenURL] does to the store *)

Lemma ShortenURL_paths_store (c : Context) (request : ShortenRequest.t) (now : Time)
      (rnd : Utils.RandReader) (w : World) :
  let r := fst (ShortenURL_paths c request now rnd w) in
  let w' := snd (ShortenURL_paths c request now rnd w) in
  goroutines w' = goroutines w
  /\ (response_code r = StatusOK \/ response_code r = StatusCreated
      \/ response_code r = StatusInternalServerError)
  /\ (response_code r <> StatusCreated -> Database.rows (DB w') = Database.rows (DB w))
  /\ (response_code r = StatusCreated ->
      exists code saved,
        Utils.GenerateShortCode rnd = Some code
        /\ Database.online (DB w) = true
        /\ ~ In code (map URL.ShortCode (Database.rows (DB w)))
        /\ new_row (DB w) request code saved
        /\ Database.rows (DB w') = (Database.rows (DB w) ++ saved :: nil)%list
        /\ r = JSON StatusCreated (ShortenBody (shorten_response c saved))).
Proof.
  unfold ShortenURL_paths.
  destruct (cached_mapping_for now (ShortenRequest.URL request) w) as [urlData|].
  { cbn [fst snd response_code]. split; [reflexivity|]. split; [now left|].
    split; [reflexivity | discriminate]. }
  destruct (Database.First _ (DB w)) as [e|existingURL] eqn:HF.
  2:{ cbn [fst snd response_code]. rewrite goroutines_cache_put, DB_cache_put.
      split; [reflexivity|]. split; [now left|]. split; [reflexivity | discriminate]. }
  destruct (Utils.GenerateShortCode rnd) as [shortCode|].
  2:{ cbn [fst snd response_code]. split; [reflexivity|]. split; [now right; right|].
      split; [reflexivity | discriminate]. }
  destruct (Database.Create now _ (DB w)) as [[e'|saved] db'] eqn:Hcr.
  - apply Create_inl in Hcr as (Hrows & _). cbn [fst snd response_code].
    split; [reflexivity|]. split; [now right; right|].
    split; [intros _; exact Hrows | discriminate].
  - apply Create_inr in Hcr as (Ho & Hnew & Hsaved & ->). cbn [fst snd response_code].
    rewrite goroutines_cache_put, DB_cache_put.
    split; [reflexivity|]. split; [now right; left|]. split; [intros Hc; now destruct Hc|].
    intros _. exists shortCode, saved.
    split; [reflexivity|]. split; [exact Ho|]. split; [exact Hnew|].
    split; [|split; reflexivity].
    rewrite Hsaved. unfold new_row, new_record. cbn.
    repeat split; try reflexivity.
    + destruct (Z.ltb_spec 0 (ShortenRequest.ExpiresIn request)); [discriminate | intros _; lia].
    + destruct (Z.ltb_spec 0 (ShortenRequest.ExpiresIn request)); [lia | reflexivity].
Qed.

(** X9.  [ShortenURL] answers 400, 200, 201 or 500 and starts no goroutine;
    a 400 changes nothing.  It adds a row exactly when it answers 201: then
    the store answered, no row carried the generated code, and the table is
    the old one followed by one row, which has the next primary key, the
    requested URL, the generated code, no click, and an expiry exactly when
    [expires_in] is positive; the answer describes that row.  With any other
    answer the rows are as they were. *)
Theorem ShortenURL_store_effect (c : Context) (now : Time) (rnd : Utils.RandReader)
        (w : World) :
  let r := fst (ShortenURL c now rnd w) in
  let w' := snd (ShortenURL c now rnd w) in
  goroutines w' = goroutines w
  /\ (response_code r = StatusBadRequest \/ response_code r = StatusOK
      \/ response_code r = StatusCreated \/ response_code r = StatusInternalServerError)
  /\ (response_code r = StatusBadRequest -> w' = w)
  /\ (response_code r <> StatusCreated -> Database.rows (DB w') = Database.rows (DB w))
  /\ (response_code r = StatusCreated ->
      exists request code saved,
        ShouldBindJSON c = inr request
        /\ isValidURL (ShortenRequest.URL request) = true
        /\ Utils.GenerateShortCode rnd = Some code
        /\ Database.online (DB w) = true
        /\ ~ In code (map URL.ShortCode (Database.rows (DB w)))
        /\ new_row (DB w) request code saved
        /\ Database.rows (DB w') = (Database.rows (DB w) ++ saved :: nil)%list
        /\ r = JSON StatusCreated (ShortenBody (shorten_response c saved))).
Proof.
  destruct (ShortenURL_cases c now rnd w) as [[msg ->]|(request & Hb & Hv & ->)].
  - cbn [fst snd response_code]. split; [reflexivity|]. split; [now left|].
    split; [reflexivity|]. split; [reflexivity | discriminate].
  - destruct (ShortenURL_paths_store c request now rnd w) as (Hg & Hcode & Hrows & Hnew).
    cbv zeta. split; [exact Hg|]. split; [tauto|]. split; [|split; [exact Hrows|]].
    + intros H400. exfalso. destruct Hcode as [H|[H|H]]; rewrite H in H400; discriminate.
    + intros H201. destruct (Hnew H201) as (code & saved & H).
      exists request, code, saved. tauto.
Qed.

Lemma ShortenURL_store_effect_witness :
  let c := shorten_request false "sho.rt" "https://a.example/x" 1 in
  response_code (fst (ShortenURL c 0 sample_rnd (init_world true))) = StatusCreated
  /\ exists saved,
       Database.rows (DB sample_world) = saved :: nil
       /\ URL.OriginalURL saved = "https://a.example/x"
       /\ URL.ShortCode saved = "ahovCJ"
       /\ URL.ExpiresAt saved <> None.
Proof.
  intros c. assert (H : response_code (fst (ShortenURL c 0 sample_rnd (init_world true)))
                        = StatusCreated) by (vm_compute; reflexivity).
  split; [exact H|].
  destruct (ShortenURL_store_effect c 0 sample_rnd (init_world true))
    as (_ & _ & _ & _ & Hnew).
  destruct (Hnew H) as (request & code & saved & Hb & _ & Hg & _ & _ & Hrow & Hrows & _).
  injection Hb as <-. vm_compute in Hg. injection Hg as <-.
  destruct Hrow as (_ & _ & Hurl & Hcode & _ & Hexp).
  exists saved. split; [exact Hrows|]. split; [exact Hurl|]. split; [exact Hcode|].
  intros Hnone. apply Hexp in Hnone. simpl in Hnone. lia.
Defined.

(** ** Rows are never removed or rewritten *)

Lemma extends_trans (a b c : list URL.t) : extends a b -> extends b c -> extends a c.
Proof.
  intros Hab Hbc r Hin. destruct (Hab r Hin) as (r1 & Hin1 & Hm1).
  destruct (Hbc r1 Hin1) as (r2 & Hin2 & Hm2). exists r2. split; [exact Hin2|].
  eapply mirrors_trans; eassumption.
Qed.

Lemma Forall2_mirrors_refl (rows : list URL.t) : Forall2 mirrors rows rows.
Proof. induction rows; constructor; [apply mirrors_refl | assumption]. Qed.

Lemma Forall2_mirrors_map (f : URL.t -> URL.t) (rows' rows : list URL.t) :
  (forall r, mirrors (f r) r) -> Forall2 mirrors rows' rows ->
  Forall2 mirrors (map f rows') rows.
Proof.
  intros Hf H. induction H as [|r' r l' l Hm _ IH]; simpl; constructor; [|exact IH].
  eapply mirrors_trans; [apply Hf | exact Hm].
Qed.

Lemma Forall2_mirrors_extends (rows' rows : list URL.t) :
  Forall2 mirrors rows' rows -> extends rows rows'.
Proof.
  intros H. induction H as [|r' r l' l Hm _ IH]; intros x Hin; [destruct Hin|].
  destruct Hin as [<-|Hin].
  - exists r'. split; [now left | now apply mirrors_sym].
  - destruct (IH x Hin) as (x' & Hin' & Hx). exists x'. split; [now right | exact Hx].
Qed.

Lemma RedirectURL_DB (c : Context) (now : Time) (w : World) :
  DB (snd (RedirectURL c now w)) = DB w.
Proof.
  rewrite RedirectURL_eq. unfold RedirectURL_paths, RedirectURL_finish.
  assert (Hdb : DB (snd
    match Database.First (Database.where_short_code (Param_shortCode c)) (DB w) with
    | inl _ => (JSON StatusNotFound (ErrorBody "Short URL not found"), w)
    | inr dbURL =>
        if is_expired now dbURL
        then (JSON StatusGone (ErrorBody "Short URL has expired"),
              cache_mapping now (Param_shortCode c) dbURL w)
        else (Redirect StatusMovedPermanently (URL.OriginalURL dbURL),
              spawn {| task_shortCode := Param_shortCode c; task_urlRecord := dbURL |}
                    (cache_mapping now (Param_shortCode c) dbURL w))
    end) = DB w).
  { destruct (Database.First _ (DB w)) as [e|dbURL]; [reflexivity|].
    destruct (is_expired now dbURL); cbn [snd]; unfold spawn; cbn [DB];
      apply DB_cache_mapping. }
  destruct (cache_get now _ w) as [e|[u|s|s|n]]; try exact Hdb.
  destruct (is_expired now u); reflexivity.
Qed.

Lemma GetURLStats_DB (c : Context) (now : Time) (w : World) :
  DB (snd (GetURLStats c now w)) = DB w.
Proof.
  rewrite GetURLStats_handler_eq. unfold GetURLStats_paths.
  assert (Hdb : DB (snd
    match Database.First (Database.where_short_code (Param_shortCode c)) (DB w) with
    | inl _ => (JSON StatusNotFound (ErrorBody "Short URL not found"), w)
    | inr urlRecord =>
        let clickCount :=
          match cache_get now (clicks_key (Param_shortCode c)) w with
          | inr (Redis.VInt n) => n
          | _ => URL.ClickCount urlRecord
          end in
        (JSON StatusOK (StatsBody (stats_of urlRecord clickCount)),
         cache_stats now (Param_shortCode c) (stats_of urlRecord clickCount) w)
    end) = DB w).
  { destruct (Database.First _ (DB w)) as [e|urlRecord]; [reflexivity|].
    cbv zeta. cbn [snd]. apply DB_cache_stats. }
  destruct (cache_get now (stats_key _) w) as [e|[u|s|s|n]]; try exact Hdb.
  reflexivity.
Qed.

Lemma ShortenURL_rows (c : Context) (now : Time) (rnd : Utils.RandReader) (w : World) :
  exists more,
    Database.rows (DB (snd (ShortenURL c now rnd w))) = (Database.rows (DB w) ++ more)%list
    /\ (length more <= 1)%nat.
Proof.
  destruct (ShortenURL_cases c now rnd w) as [[msg ->]|(request & Hb & Hv & ->)].
  - exists nil. cbn [snd]. rewrite app_nil_r. split; [reflexivity | simpl; lia].
  - destruct (ShortenURL_paths_store c request now rnd w) as (_ & _ & Hrows & Hnew).
    destruct (Z.eq_dec (response_code (fst (ShortenURL_paths c request now rnd w)))
                       StatusCreated) as [H201|Hne].
    + destruct (Hnew H201) as (code & saved & _ & _ & _ & _ & Hr & _).
      eexists. split; [exact Hr|].
      simpl. lia.
    + exists nil. rewrite app_nil_r. split; [now apply Hrows | simpl; lia].
Qed.

Lemma handler_step_rows (ev : Event) (w : World) :
  is_goroutines ev = false ->
  exists more,
    Database.rows (DB (step w ev)) = (Database.rows (DB w) ++ more)%list
    /\ (length more <= 1)%nat.
Proof.
  assert (Hsame : forall w', DB w' = DB w ->
            exists more, Database.rows (DB w') = (Database.rows (DB w) ++ more)%list
                         /\ (length more <= 1)%nat).
  { intros w' ->. exists nil. rewrite app_nil_r. split; [reflexivity | simpl; lia]. }
  destruct ev as [c now rnd|c now|c now|now|now|up|up]; simpl; intros Hev.
  - apply ShortenURL_rows.
  - apply Hsame, RedirectURL_DB.
  - apply Hsame, GetURLStats_DB.
  - apply Hsame. now rewrite HealthCheck_eq.
  - discriminate.
  - exists nil. rewrite app_nil_r. split; [reflexivity | simpl; lia].
  - now apply Hsame.
Qed.

Lemma run_goroutines_rows (now : Time) (w : World) :
  Forall2 mirrors (Database.rows (DB (snd (run_goroutines now w)))) (Database.rows (DB w)).
Proof.
  unfold run_goroutines. cbn [snd].
  assert (H0 : Forall2 mirrors
                 (Database.rows (DB {| DB := DB w; RedisClient := RedisClient w;
                                       goroutines := nil |}))
                 (Database.rows (DB w))) by apply Forall2_mirrors_refl.
  revert H0. generalize {| DB := DB w; RedisClient := RedisClient w; goroutines := nil |}.
  induction (goroutines w) as [|t ts IH]; intros w0 H0; simpl; [exact H0|].
  apply IH. rewrite click_accounting_eq, click_accounting_effect_DB.
  destruct (Update_rows now (task_urlRecord t)
              (wrap64 (URL.ClickCount (task_urlRecord t) + 1)) (DB w0))
    as (_ & _ & _ & [-> | (_ & _ & ->)]); [exact H0|].
  apply Forall2_mirrors_map; [apply set_click_count_mirrors | exact H0].
Qed.

Lemma step_extends (ev : Event) (w : World) :
  extends (Database.rows (DB w)) (Database.rows (DB (step w ev))).
Proof.
  destruct (is_goroutines ev) eqn:Hev.
  - destruct ev; try discriminate. apply Forall2_mirrors_extends, run_goroutines_rows.
  - destruct (handler_step_rows ev w Hev) as (more & -> & _). apply extends_app.
Qed.

Lemma run_extends (evs : list Event) (w : World) :
  extends (Database.rows (DB w)) (Database.rows (DB (run evs w))).
Proof.
  revert w. induction evs as [|ev evs IH]; intros w; simpl; [apply extends_refl|].
  eapply extends_trans; [apply step_extends | apply IH].
Qed.



(** ** Redirects go by the row *)

(** X11.  The cache never changes where a redirect goes: in a coherent
    world (every world the service reaches) whose store answers,
    [RedirectURL] on the short code of a row answers by that row, whether
    the mapping is cached or not: 410 when the row's expiry is strictly
    before now, else 301 to the row's URL. *)
Theorem RedirectURL_goes_by_the_row (c : Context) (now : Time) (w : World) (r : URL.t) :
  coherent w -> Database.online (DB w) = true ->
  In r (Database.rows (DB w)) -> URL.ShortCode r = Param_shortCode c ->
  fst (RedirectURL c now w) = redirect_answer now (URL.ExpiresAt r) (URL.OriginalURL r).
Proof. intros Hc Ho Hin Hcode. rewrite RedirectURL_eq. now apply RedirectURL_paths_by_row. Qed.

Lemma RedirectURL_goes_by_the_row_witness :
  fst (RedirectURL (code_request "ahovCJ") (Day + 1) sample_world)
  = JSON StatusGone (ErrorBody "Short URL has expired")
  /\ fst (RedirectURL (code_request "ahovCJ") Day sample_world)
     = Redirect StatusMovedPermanently "https://a.example/x".
Proof.
  pose (r := sample_row).
  assert (Hin : In r (Database.rows (DB sample_world))) by (vm_compute; left; reflexivity).
  split.
  - exact (RedirectURL_goes_by_the_row (code_request "ahovCJ") (Day + 1) sample_world r
             sample_world_coherent eq_refl Hin eq_refl).
  - exact (RedirectURL_goes_by_the_row (code_request "ahovCJ") Day sample_world r
             sample_world_coherent eq_refl Hin eq_refl).
Defined.

(** X12.  A link that was created keeps working: from a coherent world,
    once [ShortenURL] has answered 201, after any further run of requests,
    goroutines and outages, whenever the store answers, [RedirectURL] on the
    short code of that answer answers by the expiry of that answer: 301 to
    the requested URL, or 410 once that expiry is strictly in the past. *)
Theorem created_link_keeps_redirecting
        (c c' : Context) (now now2 : Time) (rnd : Utils.RandReader) (evs : list Event)
        (w w1 : World) (r : ShortenResponse.t) :
  coherent w ->
  ShortenURL c now rnd w = (JSON StatusCreated (ShortenBody r), w1) ->
  Database.online (DB (run evs w1)) = true ->
  Param_shortCode c' = ShortenResponse.ShortCode r ->
  (exists request, ShouldBindJSON c = inr request
                   /\ ShortenResponse.OriginalURL r = ShortenRequest.URL request)
  /\ fst (RedirectURL c' now2 (run evs w1))
     = redirect_answer now2 (ShortenResponse.ExpiresAt r) (ShortenResponse.OriginalURL r).
Proof.
  intros Hc HS Ho Hp.
  assert (Hc1 : coherent w1).
  { replace w1 with (snd (ShortenURL c now rnd w)) by now rewrite HS.
    now apply ShortenURL_coherent. }
  destruct (ShortenURL_cases c now rnd w) as [[msg Hs]|(request & Hb & Hv & Hs)];
    rewrite Hs in HS; [discriminate|].
  destruct (ShortenURL_paths_store c request now rnd w) as (_ & _ & _ & Hnew).
  rewrite HS in Hnew. cbn [fst snd] in Hnew.
  destruct (Hnew eq_refl) as (code & saved & _ & _ & _ & Hrow & Hrows & Hr).
  injection Hr as ->. destruct Hrow as (_ & _ & Hurl & _).
  cbn [shorten_response ShortenResponse.OriginalURL ShortenResponse.ExpiresAt
       ShortenResponse.ShortCode] in *.
  split; [exists request; split; [exact Hb | exact Hurl]|].
  destruct (run_extends evs w1 saved) as (r' & Hin & Hm).
  { rewrite Hrows. apply in_app_iff. right. now left. }
  destruct Hm as (_ & _ & _ & Hu & Hcode & Hexp).
  rewrite RedirectURL_eq, Hu, Hexp.
  apply RedirectURL_paths_by_row; [now apply run_coherent | exact Ho | exact Hin |].
  now rewrite <- Hcode.
Qed.

Lemma created_link_keeps_redirecting_witness :
  fst (RedirectURL (code_request "ahovCJ") (Day + 1)
         (run (EvRedirect (code_request "ahovCJ") 5 :: EvGoroutines 6
               :: EvCacheOnline false :: nil) sample_world))
  = JSON StatusGone (ErrorBody "Short URL has expired").
Proof.
  apply (created_link_keeps_redirecting
           (shorten_request false "sho.rt" "https://a.example/x" 1)
           (code_request "ahovCJ") 0 (Day + 1) sample_rnd
           (EvRedirect (code_request "ahovCJ") 5 :: EvGoroutines 6
            :: EvCacheOnline false :: nil)
           (init_world true) sample_world sample_response (coherent_init true)).
  - exact sample_world_created.
  - vm_compute. reflexivity.
  - reflexivity.
Defined.

(** ** Redirects whose goroutines run late *)

Lemma counted_pending_spawn (code : string) (x : option Time) (id k : Z) (u : URL.t)
      (w : World) :
  counted_pending code x id k w -> URL.ID u = id -> URL.ClickCount u = k ->
  counted_pending code x id k (spawn {| task_shortCode := code; task_urlRecord := u |} w).
Proof.
  intros (Hc & Ho & Hrow & Hgs & Hcache) Hid Hk.
  split; [exact Hc|]. split; [exact Ho|]. split; [exact Hrow|]. split; [|exact Hcache].
  unfold spawn. cbn [goroutines]. apply List.Forall_app. split; [exact Hgs|].
  constructor; [|constructor]. repeat split; assumption.
Qed.

Lemma counted_pending_cache_set (code : string) (x : option Time) (id k : Z) (t : Time)
      (row : URL.t) (w : World) :
  counted_pending code x id k w ->
  In row (Database.rows (DB w)) -> URL.ShortCode row = code -> URL.ClickCount row = k ->
  counted_pending code x id k
    (cache_mapping t code row w).
Proof.
  intros Hp Hin Hcode Hk. unfold cache_mapping.
  destruct (URL.json_Marshal_ok row); [|exact Hp].
  destruct Hp as (Hc & Ho & Hrow & Hgs & Hcache). unfold counted_pending.
  split.
  { apply coherent_cache_set; [exact Hc|]. unfold entry_ok. simpl.
    split; [now rewrite Hcode|]. exists row. split; [exact Hin | apply mirrors_refl]. }
  unfold cache_set. rewrite DB_cache_update, goroutines_cache_update, cache_up_update,
    cache_data_update.
  split; [exact Ho|]. split; [exact Hrow|]. split; [exact Hgs|].
  intros Hup. rewrite Hup. intros e u He Hv. rewrite lookup_insert_eq in He.
  injection He as <-. simpl in Hv. injection Hv as <-. exact Hk.
Qed.

Lemma counted_pending_redirect (code : string) (x : option Time) (id k : Z) (t : Time)
      (w : World) :
  counted_pending code x id k w -> expired_at t x = false ->
  counted_pending code x id k (snd (RedirectURL (code_request code) t w))
  /\ length (goroutines (snd (RedirectURL (code_request code) t w)))
     = S (length (goroutines w)).
Proof.
  intros Hp Hnx. pose proof Hp as Hp'.
  destruct Hp' as (Hc & Ho & (row & Hin & Hcode & Hid & Hk & Hx) & Hgs & Hcache).
  rewrite RedirectURL_eq. cbn [Param_shortCode code_request]. unfold RedirectURL_paths.
  assert (Hlen : forall (u : URL.t) (w1 : World),
            length (goroutines (spawn {| task_shortCode := code; task_urlRecord := u |} w1))
            = S (length (goroutines w1))).
  { intros u w1. unfold spawn. cbn [goroutines]. rewrite length_app. simpl. lia. }
  assert (Hdb :
    let w' :=
      snd match Database.First (Database.where_short_code code) (DB w) with
          | inl _ => (JSON StatusNotFound (ErrorBody "Short URL not found"), w)
          | inr dbURL =>
              RedirectURL_finish code t dbURL
                (cache_mapping t code dbURL w)
          end in
    counted_pending code x id k w' /\ length (goroutines w') = S (length (goroutines w))).
  { assert (HF : Database.First (Database.where_short_code code) (DB w) = inr row)
      by (rewrite <- Hcode; apply First_short_code; assumption || apply Hc).
    rewrite HF. unfold RedirectURL_finish. rewrite is_expired_eq, Hx, Hnx.
    cbn [snd]. split.
    - apply counted_pending_spawn; [|exact Hid | exact Hk].
      now apply counted_pending_cache_set.
    - rewrite Hlen. now rewrite goroutines_cache_mapping. }
  destruct (cache_get t (mapping_key code) w) as [e|[u|s|s|n]] eqn:Hg; try exact Hdb.
  destruct (coherent_mapping_hit _ _ _ _ Hc Hg) as (Hs & r1 & Hin1 & Hm1).
  assert (r1 = row).
  { apply (counted_row_unique w); try assumption.
    destruct Hm1 as (_ & _ & _ & _ & Hsc & _). congruence. }
  subst r1. destruct Hm1 as (Hidu & _ & _ & _ & _ & Hexp).
  apply cache_get_inr in Hg as (Hup & e & He & _ & Hv).
  pose proof (Hcache Hup e u He Hv) as Hku.
  unfold RedirectURL_finish. rewrite is_expired_eq, Hexp, Hx, Hnx. cbn [snd].
  split; [|apply Hlen]. apply counted_pending_spawn; [exact Hp | congruence | exact Hku].
Qed.

Lemma counted_pending_burst (code : string) (x : option Time) (id k : Z) (ts : list Time) :
  forall w : World,
    counted_pending code x id k w -> List.Forall (fun t => expired_at t x = false) ts ->
    counted_pending code x id k (burst code ts w)
    /\ length (goroutines (burst code ts w)) = (length (goroutines w) + length ts)%nat.
Proof.
  unfold burst. induction ts as [|t ts IH]; intros w Hp Hall; simpl.
  - split; [exact Hp | lia].
  - inversion Hall as [|? ? Ht Hrest]; subst.
    destruct (counted_pending_redirect code x id k t w Hp Ht) as [Hp1 Hlen1].
    destruct (IH _ Hp1 Hrest) as [Hp2 Hlen2]. split; [exact Hp2 | lia].
Qed.

(** One goroutine that captured the count [k]: whatever the row counted, it
    counts [k + 1] afterwards. *)
Lemma captured_click_accounting (code : string) (x : option Time) (id k : Z) (now : Time)
      (t : ClickTask) (w : World) (row : URL.t) :
  coherent w -> goroutines w = nil -> Database.online (DB w) = true ->
  In row (Database.rows (DB w)) -> URL.ShortCode row = code -> URL.ID row = id ->
  URL.ExpiresAt row = x -> captured code id k t -> 0 <= k < MaxInt64 ->
  counted code x (k + 1) (click_accounting_effect now t w)
  /\ exists row', In row' (Database.rows (DB (click_accounting_effect now t w)))
                  /\ URL.ShortCode row' = code /\ URL.ID row' = id
                  /\ URL.ExpiresAt row' = x.
Proof.
  intros Hc Hnil Ho Hin Hcode Hid Hx (Htc & Htid & Htk) Hrange.
  assert (Hrow : 0 < URL.ID row /\ URL.DeletedAt row = None).
  { destruct Hc as [(_ & Hall & _) _]. rewrite List.Forall_forall in Hall.
    destruct (Hall row Hin) as [Hd [Hp _]]. auto. }
  destruct Hrow as [Hidpos Hdel].
  destruct (Update_rows_online now (task_urlRecord t)
              (wrap64 (URL.ClickCount (task_urlRecord t) + 1)) (DB w) Ho)
    as [Hrows Ho']; [lia|].
  assert (Hnew : let row' := Database.set_click_count now (URL.ID (task_urlRecord t))
                               (wrap64 (URL.ClickCount (task_urlRecord t) + 1)) row in
                 In row' (Database.rows (DB (click_accounting_effect now t w)))
                 /\ URL.ShortCode row' = code /\ URL.ID row' = id
                 /\ URL.ClickCount row' = k + 1 /\ URL.ExpiresAt row' = x).
  { cbv zeta. rewrite click_accounting_effect_DB, Hrows. split; [now apply in_map|].
    unfold Database.set_click_count, Database.not_deleted.
    rewrite Htid, <- Hid, Z.eqb_refl, Hdel. simpl.
    repeat split; try assumption; try reflexivity. rewrite Htk. now apply wrap64_succ. }
  cbv zeta in Hnew. destruct Hnew as (Hin' & Hcode' & Hid' & Hk' & Hx').
  split; [|eexists; repeat split; eassumption].
  unfold counted. split; [now apply click_accounting_coherent|].
  split; [now rewrite goroutines_click_accounting_effect|].
  split; [rewrite click_accounting_effect_DB; exact Ho'|].
  split; [eexists; repeat split; eassumption|].
  intros Hup. rewrite click_accounting_effect_up in Hup.
  split; intros e v He; rewrite click_accounting_effect_data, Hup, Htc in He;
    (case_decide as Hd; [discriminate He|]); exfalso; apply Hd; auto.
Qed.

Lemma captured_goroutines (code : string) (x : option Time) (id k : Z) (now : Time)
      (ts : list ClickTask) :
  forall w : World,
    counted code x (k + 1) w ->
    (exists row, In row (Database.rows (DB w)) /\ URL.ShortCode row = code
                 /\ URL.ID row = id /\ URL.ExpiresAt row = x) ->
    List.Forall (captured code id k) ts -> 0 <= k < MaxInt64 ->
    counted code x (k + 1) (fold_left (fun w t => snd (click_accounting now t w)) ts w).
Proof.
  induction ts as [|t ts IH]; intros w Hcnt (row & Hin & Hcode & Hid & Hx) Hall Hrange;
    simpl; [exact Hcnt|].
  inversion Hall as [|? ? Ht Hrest]; subst.
  destruct Hcnt as (Hc & Hnil & Ho & _).
  rewrite click_accounting_eq.
  destruct (captured_click_accounting (URL.ShortCode row) (URL.ExpiresAt row) (URL.ID row)
              k now t w row Hc Hnil Ho Hin eq_refl eq_refl eq_refl Ht Hrange)
    as [Hcnt' Hrow'].
  now apply IH.
Qed.

(** X13.  Clicks are lost when goroutines run late.  Take a state that is
    [counted] for a short code at [k] clicks: the world is coherent, the
    store answers, the row of the code counts [k] clicks, no goroutine is
    pending, and whatever mapping or statistics a usable cache holds for the
    code carries that same count [k] (so it is not a stale copy).  From
    there any number [n >= 1] of redirects on that code (none after its
    expiry) followed by the run of their [n] goroutines leaves the row at
    [k + 1] clicks, not [k + n], in a state that is [counted] again: each
    goroutine writes the count it captured plus one.  The statistics then
    report [k + 1]. *)
Theorem late_goroutines_count_one_click
        (code : string) (x : option Time) (k : Z) (ts : list Time) (t' t'' : Time)
        (w : World) :
  counted code x k w -> ts <> nil ->
  List.Forall (fun t => expired_at t x = false) ts -> 0 <= k < MaxInt64 ->
  let w' := snd (run_goroutines t' (burst code ts w)) in
  length (goroutines (burst code ts w)) = length ts
  /\ counted code x (k + 1) w'
  /\ exists s, fst (GetURLStats (code_request code) t'' w') = JSON StatusOK (StatsBody s)
               /\ StatsResponse.ClickCount s = k + 1.
Proof.
  intros (Hc & Hnil & Ho & (row & Hin & Hcode & Hk & Hx) & Hcache) Hne Hall Hrange w'.
  assert (Hp : counted_pending code x (URL.ID row) k w).
  { split; [exact Hc|]. split; [exact Ho|]. split; [exists row; auto|].
    split; [rewrite Hnil; constructor|]. intros Hup. exact (proj1 (Hcache Hup)). }
  destruct (counted_pending_burst code x (URL.ID row) k ts w Hp Hall) as [Hb Hlen].
  rewrite Hnil in Hlen. simpl in Hlen.
  assert (Hgs : goroutines (burst code ts w) <> nil).
  { intros Hq. rewrite Hq in Hlen. destruct ts; [contradiction | discriminate]. }
  split; [exact Hlen|].
  assert (Hcnt : counted code x (k + 1) w'); [|split; [exact Hcnt|]].
  2:{ exact (proj1 (counted_stats code x (k + 1) t'' w' Hcnt)). }
  subst w'. unfold run_goroutines. cbn [snd].
  destruct Hb as (Hcb & Hob & (rowb & Hinb & Hcodeb & Hidb & Hkb & Hxb) & Hgsb & _).
  destruct (goroutines (burst code ts w)) as [|t ts'] eqn:Hq; [contradiction|].
  apply List.Forall_cons_iff in Hgsb as [Ht Hrest]. simpl fold_left.
  rewrite click_accounting_eq.
  set (w0 := {| DB := DB (burst code ts w); RedisClient := RedisClient (burst code ts w);
                goroutines := nil |}).
  destruct (captured_click_accounting code x (URL.ID row) k t' t w0 rowb
              Hcb eq_refl Hob Hinb Hcodeb Hidb Hxb Ht Hrange) as [Hcnt1 Hrow1].
  now apply (captured_goroutines code x (URL.ID row)).
Qed.

Lemma late_goroutines_count_one_click_witness :
  length (goroutines (burst "ahovCJ" (10 :: 11 :: 12 :: nil) sample_world)) = 3%nat
  /\ exists s,
       fst (GetURLStats (code_request "ahovCJ") 14
              (snd (run_goroutines 13 (burst "ahovCJ" (10 :: 11 :: 12 :: nil) sample_world))))
       = JSON StatusOK (StatsBody s)
       /\ StatsResponse.ClickCount s = 0 + 1.
Proof.
  destruct (late_goroutines_count_one_click "ahovCJ" (Some Day) 0 (10 :: 11 :: 12 :: nil)
              13 14 sample_world) as (Hlen & _ & Hs).
  - exact (counted_created _ 0 sample_rnd (init_world true) sample_world sample_response
             (coherent_init true) eq_refl sample_world_created).
  - discriminate.
  - repeat constructor.
  - vm_compute. split; [discriminate | reflexivity].
  - split; [exact Hlen | exact Hs].
Defined.

(** ** The store does not answer *)

Lemma First_offline (cond : URL.t -> bool) (db : Database.DB) :
  Database.online db = false -> Database.First cond db = inl Database.ErrConnection.
Proof. intros H. unfold Database.First. now rewrite H. Qed.

Lemma with_db_same (w : World) : with_db w (DB w) = w.
Proof. now destruct w. Qed.

Lemma GenerateShortCode_total (rnd : Utils.RandReader) :
  Utils.rand_contract rnd -> exists code, Utils.GenerateShortCode rnd = Some code.
Proof. intros H. apply fill_total. intros j Hj. apply H. lia. Qed.

(** X14.  While the store does not answer: [ShortenURL] changes nothing and
    answers 200 only from the cache, else 500 "Failed to create short URL";
    [RedirectURL] still answers from a cached mapping and otherwise answers
    404, as [GetURLStats] does without cached statistics; [HealthCheck]
    answers 503; and the goroutine of a redirect leaves the store as it is,
    so that its click is never counted. *)
Theorem store_outage (w : World) :
  Database.online (DB w) = false ->
  (forall c now rnd,
     snd (ShortenURL c now rnd w) = w
     /\ forall request,
          ShouldBindJSON c = inr request ->
          isValidURL (ShortenRequest.URL request) = true ->
          Utils.rand_contract rnd ->
          fst (ShortenURL c now rnd w)
          = match cached_mapping_for now (ShortenRequest.URL request) w with
            | Some urlData => JSON StatusOK (ShortenBody (shorten_response c urlData))
            | None => JSON StatusInternalServerError
                           (ErrorBody "Failed to create short URL")
            end)
  /\ (forall c now,
        match fst (Cache.GetURLMapping now (Param_shortCode c) w) with
        | inr u =>
            fst (RedirectURL c now w)
            = redirect_answer now (URL.ExpiresAt u) (URL.OriginalURL u)
        | inl _ =>
            RedirectURL c now w = (JSON StatusNotFound (ErrorBody "Short URL not found"), w)
        end)
  /\ (forall c now,
        match fst (Cache.GetURLStats now (Param_shortCode c) w) with
        | inr s => GetURLStats c now w = (JSON StatusOK (StatsBody s), w)
        | inl _ =>
            GetURLStats c now w = (JSON StatusNotFound (ErrorBody "Short URL not found"), w)
        end)
  /\ (forall now,
        response_code (fst (HealthCheck now w)) = StatusServiceUnavailable)
  /\ (forall now t, DB (snd (click_accounting now t w)) = DB w).
Proof.
  intros Hoff. split; [|split; [|split; [|split]]].
  - intros c now rnd. split.
    + destruct (ShortenURL_cases c now rnd w) as [[msg ->]|(request & Hb & Hv & ->)];
        [reflexivity|].
      unfold ShortenURL_paths.
      destruct (cached_mapping_for now _ w); [reflexivity|].
      rewrite First_offline by exact Hoff.
      destruct (Utils.GenerateShortCode rnd); [|reflexivity].
      unfold Database.Create. rewrite Hoff. cbn [negb snd]. apply with_db_same.
    + intros request Hb Hv Hrnd. rewrite (ShortenURL_eq c request) by assumption.
      unfold ShortenURL_paths.
      destruct (cached_mapping_for now _ w); [reflexivity|].
      rewrite First_offline by exact Hoff.
      destruct (GenerateShortCode_total rnd Hrnd) as [code ->].
      unfold Database.Create. rewrite Hoff. reflexivity.
  - intros c now. rewrite GetURLMapping_eq, RedirectURL_eq. cbn [fst].
    unfold RedirectURL_paths. rewrite First_offline by exact Hoff.
    destruct (cache_get now _ w) as [e|[u|s|s|n]]; try reflexivity.
    unfold RedirectURL_finish, redirect_answer. rewrite is_expired_eq.
    destruct (expired_at now (URL.ExpiresAt u)); reflexivity.
  - intros c now. rewrite GetURLStats_eq, GetURLStats_handler_eq. cbn [fst].
    unfold GetURLStats_paths. rewrite First_offline by exact Hoff.
    destruct (cache_get now _ w) as [e|[u|s|s|n]]; reflexivity.
  - intros now. rewrite HealthCheck_eq. cbn [fst].
    assert (Hp : probe_database (DB w) = false).
    { unfold probe_database, Database.Ping. rewrite Hoff.
      now destruct (Database.has_sql_pool (DB w)). }
    rewrite Hp. reflexivity.
  - intros now t. rewrite click_accounting_eq, click_accounting_effect_DB.
    unfold Database.Update_click_count. now rewrite Hoff.
Qed.

Lemma store_outage_witness :
  let w := set_store_online false sample_world in
  fst (RedirectURL (code_request "ahovCJ") 5 w)
  = Redirect StatusMovedPermanently "https://a.example/x"
  /\ GetURLStats (code_request "ahovCJ") 5 w
     = (JSON StatusNotFound (ErrorBody "Short URL not found"), w).
Proof.
  intros w. destruct (store_outage w eq_refl) as (_ & Hr & Hs & _).
  split.
  - exact (Hr (code_request "ahovCJ") 5).
  - exact (Hs (code_request "ahovCJ") 5).
Defined.

(** ** What the two read handlers touch *)

Lemma cache_entry_set_other (now : Time) (key key' : string) (v : Redis.Value)
      (ttl : Duration) (w : World) :
  key' <> key -> cache_entry (cache_set now key v ttl w) key' = cache_entry w key'.
Proof.
  intros Hne. unfold cache_entry, cache_set. rewrite cache_data_update.
  destruct (cache_up w); [|reflexivity]. now apply lookup_insert_ne, not_eq_sym.
Qed.

Lemma RedirectURL_finish_frame (code : string) (now : Time) (u : URL.t) (w : World) :
  let r := RedirectURL_finish code now u w in
  (forall key, cache_entry (snd r) key = cache_entry w key)
  /\ (response_code (fst r) = StatusMovedPermanently
      \/ response_code (fst r) = StatusGone)
  /\ (response_code (fst r) = StatusMovedPermanently ->
      snd r = spawn {| task_shortCode := code; task_urlRecord := u |} w
      /\ fst r = Redirect StatusMovedPermanently (URL.OriginalURL u)
      /\ is_expired now u = false).
Proof.
  unfold RedirectURL_finish. destruct (is_expired now u); cbn [fst snd response_code].
  - split; [reflexivity|]. split; [now right | discriminate].
  - split; [reflexivity|]. split; [now left | now repeat split].
Qed.

(** X15.  [RedirectURL] and [GetURLStats] never write the store.
    [RedirectURL] answers 301, 404 or 410, writes at most the cached mapping
    of its short code, and exactly when it answers 301 it starts one
    goroutine, which captured the short code and the record the answer was
    made from.  [GetURLStats] answers 200 or 404, starts no goroutine and
    writes at most the cached statistics of its short code. *)
Theorem read_handlers_frame (c : Context) (now : Time) (w : World) :
  let r := RedirectURL c now w in
  let s := GetURLStats c now w in
  (DB (snd r) = DB w
   /\ (forall key, key <> mapping_key (Param_shortCode c) ->
                   cache_entry (snd r) key = cache_entry w key)
   /\ (response_code (fst r) = StatusMovedPermanently
       \/ response_code (fst r) = StatusNotFound \/ response_code (fst r) = StatusGone)
   /\ (response_code (fst r) <> StatusMovedPermanently -> goroutines (snd r) = goroutines w)
   /\ (response_code (fst r) = StatusMovedPermanently ->
       exists u,
         goroutines (snd r)
         = (goroutines w
              ++ {| task_shortCode := Param_shortCode c; task_urlRecord := u |} :: nil)%list
         /\ fst r = Redirect StatusMovedPermanently (URL.OriginalURL u)
         /\ is_expired now u = false))
  /\ (DB (snd s) = DB w
      /\ goroutines (snd s) = goroutines w
      /\ (forall key, key <> stats_key (Param_shortCode c) ->
                      cache_entry (snd s) key = cache_entry w key)
      /\ (response_code (fst s) = StatusOK \/ response_code (fst s) = StatusNotFound)).
Proof.
  cbv zeta. split.
  - split; [apply RedirectURL_DB|]. rewrite RedirectURL_eq. unfold RedirectURL_paths.
    set (code := Param_shortCode c).
    assert (Hfin : forall (u : URL.t) (w1 : World),
              (forall key, key <> mapping_key code -> cache_entry w1 key = cache_entry w key) ->
              goroutines w1 = goroutines w ->
              let r := RedirectURL_finish code now u w1 in
              (forall key, key <> mapping_key code ->
                           cache_entry (snd r) key = cache_entry w key)
              /\ (response_code (fst r) = StatusMovedPermanently
                  \/ response_code (fst r) = StatusNotFound
                  \/ response_code (fst r) = StatusGone)
              /\ (response_code (fst r) <> StatusMovedPermanently ->
                  goroutines (snd r) = goroutines w)
              /\ (response_code (fst r) = StatusMovedPermanently ->
                  exists u0,
                    goroutines (snd r)
                    = (goroutines w
                         ++ {| task_shortCode := code; task_urlRecord := u0 |} :: nil)%list
                    /\ fst r = Redirect StatusMovedPermanently (URL.OriginalURL u0)
                    /\ is_expired now u0 = false)).
    { intros u w1 Hcache Hgs.
      destruct (RedirectURL_finish_frame code now u w1) as (Hf1 & Hf2 & Hf3).
      cbv zeta. split; [intros key Hk; rewrite Hf1; now apply Hcache|].
      split; [tauto|]. split.
      - intros Hne. unfold RedirectURL_finish in *.
        destruct (is_expired now u); [exact Hgs | now destruct Hne].
      - intros H301. destruct (Hf3 H301) as (Hw & Hr & Hx). exists u.
        rewrite Hw. unfold spawn. cbn [goroutines]. now rewrite Hgs. }
    destruct (cache_get now (mapping_key code) w) as [e|[u|st|st|n]];
      try (apply Hfin; [reflexivity | reflexivity]);
      (destruct (Database.First _ (DB w)) as [e'|dbURL];
       [cbn [fst snd response_code];
        split; [reflexivity|]; split; [now right; left|];
        split; [reflexivity | discriminate]
       |apply Hfin;
        [intros key Hk; now apply cache_entry_mapping_ne, not_eq_sym
        |apply goroutines_cache_mapping]]).
  - split; [apply GetURLStats_DB|]. rewrite GetURLStats_handler_eq.
    unfold GetURLStats_paths. set (code := Param_shortCode c).
    destruct (cache_get now (stats_key code) w) as [e|[u|st|st|n]];
      try (cbn [fst snd response_code]; split; [reflexivity|];
           split; [reflexivity | now left]);
      (destruct (Database.First _ (DB w)) as [e'|urlRecord];
       cbv zeta; cbn [fst snd response_code];
       [split; [reflexivity|]; split; [reflexivity | now right]
       |split; [apply goroutines_cache_stats|];
        split; [intros key Hk; now apply cache_entry_stats_ne, not_eq_sym | now left]]).
Qed.

Lemma read_handlers_frame_witness :
  exists u,
    goroutines (snd (RedirectURL (code_request "ahovCJ") 5 sample_world))
    = (goroutines sample_world
         ++ {| task_shortCode := "ahovCJ"; task_urlRecord := u |} :: nil)%list
    /\ fst (RedirectURL (code_request "ahovCJ") 5 sample_world)
       = Redirect StatusMovedPermanently (URL.OriginalURL u)
    /\ is_expired 5 u = false.
Proof.
  destruct (read_handlers_frame (code_request "ahovCJ") 5 sample_world)
    as ((_ & _ & _ & _ & H) & _).
  apply H. vm_compute. reflexivity.
Defined.

(** ** What [isValidURL] requires *)

Lemma append_cons (c : ascii) (p x : string) :
  String c p +:+ x = String c (p +:+ x).
Proof. reflexivity. Qed.

Lemma append_assoc (a b c : string) : (a +:+ b) +:+ c = a +:+ (b +:+ c).
Proof.
  induction a as [|x a IH]; [reflexivity|]. rewrite !append_cons. now rewrite IH.
Qed.

Lemma slice_to_prefix (s : string) (n : nat) : exists x, s = NetURL.slice_to s n +:+ x.
Proof.
  unfold NetURL.slice_to. revert s. induction n as [|n IH]; intros s.
  - exists s. now destruct s.
  - destruct s as [|c s]; [now exists EmptyString|].
    destruct (IH s) as [x Hx]. exists x. simpl substring. rewrite append_cons.
    now rewrite <- Hx.
Qed.

Lemma slice_to_app (p x : string) : NetURL.slice_to (p +:+ x) (String.length p) = p.
Proof.
  unfold NetURL.slice_to. induction p as [|c p IH]; [now destruct x|].
  rewrite append_cons. simpl. now rewrite IH.
Qed.

Lemma Cut_prefix (s : string) (sep : ascii) :
  exists x, s = fst (fst (NetURL.Cut s sep)) +:+ x.
Proof.
  induction s as [|c s IH]; [now exists EmptyString|].
  simpl NetURL.Cut. destruct (Ascii.eqb c sep).
  - now exists (String c s).
  - destruct IH as [x Hx]. destruct (NetURL.Cut s sep) as [[before after] found].
    exists x. cbn [fst] in *. rewrite append_cons. now rewrite <- Hx.
Qed.

Lemma HasPrefix_slashes (s : string) :
  NetURL.HasPrefix s "//" = true -> exists t, s = "//" +:+ t.
Proof.
  unfold NetURL.HasPrefix. destruct s as [|a [|b t]]; cbn [String.prefix].
  - discriminate.
  - destruct (ascii_dec "/" a); discriminate.
  - destruct (ascii_dec "/" a) as [<-|]; [|discriminate].
    destruct (ascii_dec "/" b) as [<-|]; [|discriminate]. intros _. now exists t.
Qed.

Lemma getScheme_from_spec (rest : string) :
  forall (pre rawURL scheme r : string),
    rawURL = pre +:+ rest ->
    NetURL.getScheme_from rawURL (String.length pre) rest = inr (scheme, r) ->
    scheme <> EmptyString ->
    rawURL = scheme +:+ String ":" r.
Proof.
  induction rest as [|c rest IH]; intros pre rawURL scheme r Hraw Hg Hs;
    simpl in Hg; [injection Hg as <- _; contradiction|].
  assert (Hnext : rawURL = (pre +:+ String c EmptyString) +:+ rest)
    by (rewrite append_assoc; exact Hraw).
  assert (Hlen : String.length (pre +:+ String c EmptyString) = S (String.length pre)).
  { clear. induction pre as [|a pre IH]; [reflexivity|].
    rewrite append_cons. simpl. now rewrite IH. }
  destruct (is_lower c || is_upper c).
  { rewrite <- Hlen in Hg. exact (IH _ _ _ _ Hnext Hg Hs). }
  destruct (is_digit c || NetURL.is_one_of "+-." c).
  { destruct (String.length pre) eqn:Hp; [injection Hg as <- _; contradiction|].
    rewrite <- Hlen in Hg. exact (IH _ _ _ _ Hnext Hg Hs). }
  destruct (Ascii.eqb_spec c ":") as [->|Hne].
  - destruct (String.length pre) eqn:Hp; [discriminate|].
    injection Hg as <- <-. clear Hnext Hlen. subst rawURL.
    rewrite <- Hp, slice_to_app. reflexivity.
  - injection Hg as <- _. contradiction.
Qed.

Lemma ToLower_nonempty (s : string) :
  NetURL.ToLower s <> EmptyString -> s <> EmptyString.
Proof. intros H ->. now apply H. Qed.

(** A parsed URL with a scheme and a host came from [scheme://...]. *)
Lemma parse_scheme_host (rawURL : string) (u : NetURL.URL) :
  NetURL.parse rawURL = inr u ->
  NetURL.Scheme u <> EmptyString -> NetURL.Host u <> EmptyString ->
  exists scheme tail, rawURL = scheme +:+ "://" +:+ tail /\ scheme <> EmptyString.
Proof.
  unfold NetURL.parse. intros Hp Hs Hh.
  destruct (NetURL.stringContainsCTLByte rawURL); [discriminate|].
  destruct (String.eqb rawURL "*"); [injection Hp as <-; now destruct Hs|].
  destruct (NetURL.getScheme rawURL) as [e|[scheme0 rest0]] eqn:Hg; [discriminate|].
  assert (Hrest : forall rest : string,
            (exists x, rest0 = rest +:+ x) ->
            NetURL.HasPrefix rest "//" = true ->
            NetURL.ToLower scheme0 <> EmptyString ->
            exists scheme tail, rawURL = scheme +:+ "://" +:+ tail /\ scheme <> EmptyString).
  { intros rest [x Hx] Hpre Hlow. apply ToLower_nonempty in Hlow.
    destruct (HasPrefix_slashes rest Hpre) as [t ->].
    exists scheme0, (t +:+ x). split; [|exact Hlow].
    rewrite (getScheme_from_spec rawURL EmptyString rawURL scheme0 rest0 eq_refl Hg Hlow).
    rewrite Hx. now rewrite append_assoc. }
  set (scheme := NetURL.ToLower scheme0) in *.
  assert (Hbody : forall (rest : string) (forceQuery : bool) (rawQuery : string),
            (exists x, rest0 = rest +:+ x) ->
            (let finish (user : option NetURL.Userinfo) (host : string) (omit : bool)
                        (rest1 : string) :=
               match NetURL.unescape rest1 NetURL.encodePath with
               | inl e => inl e
               | inr path =>
                   inr {| NetURL.Scheme := scheme; NetURL.Opaque := EmptyString;
                          NetURL.User := user; NetURL.Host := host; NetURL.Path := path;
                          NetURL.OmitHost := omit; NetURL.ForceQuery := forceQuery;
                          NetURL.RawQuery := rawQuery; NetURL.Fragment := EmptyString |}
               end in
             if negb (NetURL.HasPrefix rest "/") && NetURL.nonempty scheme then
               inr {| NetURL.Scheme := scheme; NetURL.Opaque := rest; NetURL.User := None;
                      NetURL.Host := EmptyString; NetURL.Path := EmptyString;
                      NetURL.OmitHost := false; NetURL.ForceQuery := forceQuery;
                      NetURL.RawQuery := rawQuery; NetURL.Fragment := EmptyString |}
             else if negb (NetURL.HasPrefix rest "/")
                     && NetURL.Contains (fst (fst (NetURL.Cut rest "/"))) ":" then
               inl NetURL.ErrColonInFirstSegment
             else if (NetURL.nonempty scheme || negb (NetURL.HasPrefix rest "///"))
                     && NetURL.HasPrefix rest "//" then
               let after := NetURL.slice_from rest 2 in
               let '(authority, rest') :=
                 match NetURL.Index after "/" with
                 | Some i => (NetURL.slice_to after i, NetURL.slice_from after i)
                 | None => (after, EmptyString)
                 end in
               match NetURL.parseAuthority authority with
               | inl e => inl e
               | inr (user, host) => finish user host false rest'
               end
             else if NetURL.nonempty scheme && NetURL.HasPrefix rest "/"
                  then finish None EmptyString true rest
                  else finish None EmptyString false rest) = inr u ->
            exists scheme1 tail,
              rawURL = scheme1 +:+ "://" +:+ tail /\ scheme1 <> EmptyString).
  { intros rest forceQuery rawQuery Hx. cbv zeta.
    destruct (negb (NetURL.HasPrefix rest "/") && NetURL.nonempty scheme);
      [intros [= <-]; now destruct Hh|].
    destruct (negb (NetURL.HasPrefix rest "/") && NetURL.Contains _ ":"); [discriminate|].
    destruct ((NetURL.nonempty scheme || negb (NetURL.HasPrefix rest "///"))
              && NetURL.HasPrefix rest "//") eqn:Hauth.
    - apply andb_true_iff in Hauth as [_ Hpre]. intros Hu. apply (Hrest rest Hx Hpre).
      destruct (match NetURL.Index (NetURL.slice_from rest 2) "/" with
                | Some i => _ | None => _ end) as [authority rest'].
      destruct (NetURL.parseAuthority authority) as [e|[user host]]; [discriminate|].
      destruct (NetURL.unescape rest' NetURL.encodePath); [discriminate|].
      injection Hu as <-. exact Hs.
    - destruct (NetURL.nonempty scheme && NetURL.HasPrefix rest "/");
        (destruct (NetURL.unescape rest NetURL.encodePath); [discriminate|]);
        intros [= <-]; now destruct Hh. }
  destruct (NetURL.HasSuffix1 rest0 "?" && (NetURL.Count rest0 "?" =? 1)%nat).
  - revert Hp. apply Hbody. apply slice_to_prefix.
  - pose proof (Cut_prefix rest0 "?") as Hx.
    destruct (NetURL.Cut rest0 "?") as [[r q] found]. cbn [fst] in Hx.
    revert Hp. now apply Hbody.
Qed.

(** X16.  [isValidURL] accepts only strings of the form [scheme://...] with
    a non-empty scheme: a bare host, a path, or a URL without the two
    slashes after the colon is refused. *)
Theorem isValidURL_requires_scheme_and_slashes (str : string) :
  isValidURL str = true ->
  exists scheme tail, str = scheme +:+ "://" +:+ tail /\ scheme <> EmptyString.
Proof.
  intros Hv. apply isValidURL_iff in Hv as (u & Hp & Hs & Hh).
  unfold NetURL.Parse in Hp.
  pose proof (Cut_prefix str "#") as [x Hx].
  destruct (NetURL.Cut str "#") as [[u0 frag] found]. cbn [fst] in Hx.
  destruct (NetURL.parse u0) as [e|url] eqn:Hu0; [discriminate|].
  assert (Hsame : NetURL.Scheme url = NetURL.Scheme u /\ NetURL.Host url = NetURL.Host u).
  { destruct frag; [injection Hp as <-; now split|].
    destruct (NetURL.unescape _ NetURL.encodeFragment); [discriminate|].
    injection Hp as <-. now split. }
  destruct Hsame as [Hs' Hh']. rewrite <- Hs' in Hs. rewrite <- Hh' in Hh.
  destruct (parse_scheme_host u0 url Hu0 Hs Hh) as (scheme & tail & Hraw & Hne).
  exists scheme, (tail +:+ x). split; [|exact Hne].
  rewrite Hx, Hraw. now rewrite !append_assoc.
Qed.

Lemma isValidURL_requires_scheme_and_slashes_witness :
  exists scheme tail,
    "https://example.com/path" = scheme +:+ "://" +:+ tail /\ scheme <> EmptyString.
Proof.
  apply (isValidURL_requires_scheme_and_slashes "https://example.com/path").
  vm_compute. reflexivity.
Defined.

(** ** One row per short code *)



(** ** What the rows hold *)

Lemma Forall2_mirrors_well_formed (rows' rows : list URL.t) :
  Forall2 mirrors rows' rows -> List.Forall well_formed_row rows ->
  List.Forall well_formed_row rows'.
Proof.
  intros H. induction H as [|r' r l' l Hm _ IH]; intros Hall; [constructor|].
  apply List.Forall_cons_iff in Hall as [Hr Hl]. constructor; [|now apply IH].
  destruct Hm as (_ & _ & _ & Hurl & Hcode & _). unfold well_formed_row.
  now rewrite Hurl, Hcode.
Qed.

Lemma GenerateShortCode_well_formed (rnd : Utils.RandReader) (code : string) :
  Utils.GenerateShortCode rnd = Some code ->
  String.length code = Utils.shortCodeLength /\ forallb is_alnum (chars code) = true.
Proof.
  intros H. apply fill_spec in H as [Hlen Hall]. split; [exact Hlen|].
  apply forallb_forall. intros ch Hin. rewrite List.Forall_forall in Hall. now apply Hall.
Qed.

Lemma step_well_formed (ev : Event) (w : World) :
  List.Forall well_formed_row (Database.rows (DB w)) ->
  List.Forall well_formed_row (Database.rows (DB (step w ev))).
Proof.
  intros Hall.
  destruct ev as [c now rnd|c now|c now|now|now|up|up]; cbn [step].
  - destruct (ShortenURL_cases c now rnd w) as [[msg ->]|(request & Hb & Hv & ->)];
      [exact Hall|].
    destruct (ShortenURL_paths_store c request now rnd w) as (_ & _ & Hrows & Hnew).
    destruct (Z.eq_dec (response_code (fst (ShortenURL_paths c request now rnd w)))
                       StatusCreated) as [H201|Hne]; [|now rewrite Hrows].
    destruct (Hnew H201) as (code & saved & Hg & _ & _ & Hrow & -> & _).
    apply List.Forall_app. split; [exact Hall|]. constructor; [|constructor].
    destruct (GenerateShortCode_well_formed rnd code Hg) as [Hlen Halnum].
    destruct Hrow as (_ & _ & Hurl & Hcode & _). unfold well_formed_row.
    rewrite Hurl, Hcode. repeat split; assumption.
  - now rewrite RedirectURL_DB.
  - now rewrite GetURLStats_DB.
  - now rewrite HealthCheck_eq.
  - exact (Forall2_mirrors_well_formed _ _ (run_goroutines_rows now w) Hall).
  - exact Hall.
  - exact Hall.
Qed.

(** X18.  Every row the service ever stores holds a URL that [isValidURL]
    accepts, under a short code of exactly six characters of [[A-Za-z0-9]]. *)
Theorem stored_rows_well_formed (w : World) (r : URL.t) :
  reachable w -> In r (Database.rows (DB w)) -> well_formed_row r.
Proof.
  intros (b & evs & ->).
  assert (Hall : List.Forall well_formed_row
                   (Database.rows (DB (run evs (init_world b))))).
  { assert (H0 : List.Forall well_formed_row (Database.rows (DB (init_world b))))
      by constructor.
    revert H0. generalize (init_world b). unfold run.
    induction evs as [|ev evs IH]; intros w0 H0; simpl; [exact H0|].
    apply IH. now apply step_well_formed. }
  rewrite List.Forall_forall in Hall. apply Hall.
Qed.

Lemma stored_rows_well_formed_witness :
  well_formed_row sample_row.
Proof.
  apply (stored_rows_well_formed sample_world).
  - exists true,
      (EvShorten (shorten_request false "sho.rt" "https://a.example/x" 1) 0 sample_rnd
         :: nil).
    reflexivity.
  - vm_compute. left. reflexivity.
Defined.

(** ** The answers of [ShortenURL] and [GetURLStats] *)

(** X19.  Whenever [ShortenURL] answers with a mapping, the status is 200 or
    201 and the short URL of the answer is built from the request: "https"
    when it came over TLS and "http" otherwise, then "://", the host of the
    request, "/" and the short code of the answer. *)
Theorem ShortenURL_short_url (c : Context) (now : Time) (rnd : Utils.RandReader)
        (w : World) (code : Z) (r : ShortenResponse.t) :
  fst (ShortenURL c now rnd w) = JSON code (ShortenBody r) ->
  (code = StatusOK \/ code = StatusCreated)
  /\ ShortenResponse.ShortURL r
     = (if TLS c then "https" else "http") +:+ "://" +:+ Host c +:+ "/"
       +:+ ShortenResponse.ShortCode r.
Proof.
  destruct (ShortenURL_cases c now rnd w) as [[msg ->]|(request & Hb & Hv & ->)];
    [discriminate|].
  unfold ShortenURL_paths.
  destruct (cached_mapping_for now _ w) as [u|].
  { intros [= <- <-]. split; [now left | reflexivity]. }
  destruct (Database.First _ (DB w)) as [e|existingURL].
  2:{ intros [= <- <-]. split; [now left | reflexivity]. }
  destruct (Utils.GenerateShortCode rnd) as [shortCode|]; [|discriminate].
  destruct (Database.Create now _ (DB w)) as [[e'|saved] db']; [discriminate|].
  intros [= <- <-]. split; [now right | reflexivity].
Qed.

Lemma ShortenURL_short_url_witness :
  ShortenResponse.ShortURL sample_response
  = "http" +:+ "://" +:+ "sho.rt" +:+ "/" +:+ "ahovCJ".
Proof.
  apply (ShortenURL_short_url (shorten_request false "sho.rt" "https://a.example/x" 1)
           0 sample_rnd (init_world true) StatusCreated sample_response).
  vm_compute. reflexivity.
Defined.

(** X20.  Statistics come from the row and are then served from the cache.
    In a coherent world whose store answers, [GetURLStats] on the short code
    of a row, without cached statistics, answers 200 with the row's URL,
    code, click count, creation time and expiry.  When these statistics
    marshal (the years of creation and expiry are within 0..9999) and the
    cache is usable, the same answer is given again for the next five
    minutes whatever the store has become, as long as the cached statistics
    are not invalidated; when they do not marshal, nothing is cached and
    the world is left as it was. *)
Theorem GetURLStats_from_the_row_then_cached
        (c : Context) (now now' : Time) (w : World) (row : URL.t) (db' : Database.DB) :
  coherent w -> Database.online (DB w) = true ->
  In row (Database.rows (DB w)) -> URL.ShortCode row = Param_shortCode c ->
  is_miss (fst (Cache.GetURLStats now (Param_shortCode c) w)) = true ->
  fst (GetURLStats c now w) = JSON StatusOK (StatsBody (stats_of row (URL.ClickCount row)))
  /\ (StatsResponse.json_Marshal_ok (stats_of row (URL.ClickCount row)) = true ->
      cache_up w = true -> now' < now + Cache.StatsCacheTTL ->
      fst (GetURLStats c now' (with_db (snd (GetURLStats c now w)) db'))
      = JSON StatusOK (StatsBody (stats_of row (URL.ClickCount row))))
  /\ (StatsResponse.json_Marshal_ok (stats_of row (URL.ClickCount row)) = false ->
      snd (GetURLStats c now w) = w).
Proof.
  intros Hc Ho Hin Hcode Hmiss. rewrite GetURLStats_eq in Hmiss. cbn [fst] in Hmiss.
  rewrite !GetURLStats_handler_eq.
  assert (HF : Database.First (Database.where_short_code (Param_shortCode c)) (DB w)
               = inr row)
    by (rewrite <- Hcode; apply First_short_code; assumption || apply Hc).
  assert (Hclicks : match cache_get now (clicks_key (Param_shortCode c)) w with
                    | inr (Redis.VInt n) => n
                    | _ => URL.ClickCount row
                    end = URL.ClickCount row).
  { destruct (cache_get now (clicks_key _) w) as [e|[u|s|s|n]] eqn:Hg; try reflexivity.
    exfalso. exact (coherent_no_counter _ _ _ _ Hc Hg). }
  assert (Hfirst :
    GetURLStats_paths (Param_shortCode c) now w
    = (JSON StatusOK (StatsBody (stats_of row (URL.ClickCount row))),
       cache_stats now (Param_shortCode c) (stats_of row (URL.ClickCount row)) w)).
  { unfold GetURLStats_paths. rewrite HF. cbv zeta. rewrite Hclicks.
    destruct (cache_get now (stats_key (Param_shortCode c)) w) as [e|[u|s|s|n]];
      try discriminate Hmiss; reflexivity. }
  rewrite Hfirst. cbn [fst snd]. split; [reflexivity|]. unfold cache_stats. split.
  - intros Hm Hup Hlt. rewrite Hm. unfold GetURLStats_paths.
    change (cache_get now' ?k (with_db ?w0 db')) with (cache_get now' k w0).
    rewrite cache_get_set_eq by assumption. reflexivity.
  - intros Hm. now rewrite Hm.
Qed.

Lemma GetURLStats_from_the_row_then_cached_witness :
  let row := sample_row in
  fst (GetURLStats (code_request "ahovCJ") 5 sample_world)
  = JSON StatusOK (StatsBody (stats_of row 0))
  /\ fst (GetURLStats (code_request "ahovCJ") 6
            (with_db (snd (GetURLStats (code_request "ahovCJ") 5 sample_world)) empty_db))
     = JSON StatusOK (StatsBody (stats_of row 0)).
Proof.
  intros row.
  destruct (GetURLStats_from_the_row_then_cached (code_request "ahovCJ") 5 6 sample_world
              row empty_db sample_world_coherent eq_refl) as [H1 H2].
  - vm_compute. left. reflexivity.
  - reflexivity.
  - vm_compute. reflexivity.
  - split; [exact H1|]. apply H2; [reflexivity | reflexivity | vm_compute; reflexivity].
Defined.
